(** * Location resolution of the community waste reporting platform

    A shallow embedding of [src/utils/location.ts] (coordinate acquisition,
    reverse geocoding, street/city normalisation, the detection workflow and
    the manual-entry validator) and of [requestLocation] in the citizen
    dashboard component, together with the properties the specification
    states about them.

    Conventions of the embedding.
    - A JavaScript string is the sequence of its code units; code units are
      modelled by [ascii] (0..255).  On that range the whitespace class of
      [trim] and of the regex class [\s], and the word class behind [\b], are
      exactly those of ECMAScript.  [toUpperCase] / [toLowerCase] are the
      ECMAScript maps on the ASCII range (code units below 128); above it
      they are taken to be the identity.
    - [null] / [undefined] are [None]; a JS value used as a condition is
      tested with [truthy].
    - [await] is sequential composition; the platform (geolocation, the
      geocoding HTTP endpoint, the statistics query) is an explicit [World]
      whose answers the code consumes, and every call the code issues is
      recorded in a trace of [Event]s.  The calls of the component's React
      state setters are events too.

    The second part embeds the code around these: the handlers of the
    component ([handleImageUpload], [handleManualLocationSubmit],
    [handleSubmit] and the inline ones), [createReport],
    [uploadReportImage] and [getReportsByStreet] of [src/db/reports.ts], and
    [getStreetStatistics] of [src/db/analytics.ts], with the Supabase
    client as an explicit [Backend]. *)

From Stdlib Require Import String Ascii List Bool Arith Lia NArith.
From Stdlib Require Import DecimalString.
From Stdlib Require Import Floats.PrimFloat.
From stdpp Require Import base option gmap strings.
Import ListNotations.

Local Open Scope string_scope.
Local Open Scope list_scope.
Local Open Scope nat_scope.

(* ===================================================================== *)
(** ** Code units and character classes *)
(* ===================================================================== *)

Module Char.

Definition code (c : ascii) : nat := nat_of_ascii c.

(** ECMAScript WhiteSpace and LineTerminator code points below 256:
    TAB, LF, VT, FF, CR, SPACE and NO-BREAK SPACE. *)
Definition is_space (c : ascii) : bool :=
  let n := code c in
  ((9 <=? n) && (n <=? 13)) || (n =? 32) || (n =? 160).

Definition is_upper (c : ascii) : bool :=
  let n := code c in (65 <=? n) && (n <=? 90).

Definition is_lower (c : ascii) : bool :=
  let n := code c in (97 <=? n) && (n <=? 122).

Definition is_digit (c : ascii) : bool :=
  let n := code c in (48 <=? n) && (n <=? 57).

(** The regex word class [\w] = [A-Za-z0-9_]. *)
Definition is_word (c : ascii) : bool :=
  is_upper c || is_lower c || is_digit c || (code c =? 95).

Definition toUpper (c : ascii) : ascii :=
  if is_lower c then ascii_of_nat (code c - 32) else c.

Definition toLower (c : ascii) : ascii :=
  if is_upper c then ascii_of_nat (code c + 32) else c.

(** Equality of code units under the [i] flag (both sides canonicalised
    with [toUpper]). *)
Definition eq_ci (a b : ascii) : bool :=
  Ascii.eqb (toUpper a) (toUpper b).

End Char.

(* ===================================================================== *)
(** ** JavaScript string primitives *)
(* ===================================================================== *)

(** Working representation: the list of code units. *)
Abbreviation chars := (list ascii).

Definition of_string (s : string) : chars := list_ascii_of_string s.
Definition to_string (l : chars) : string := string_of_list_ascii l.

Module Js.

(** [String.prototype.trim]. *)
Fixpoint trimStart (l : chars) : chars :=
  match l with
  | c :: t => if Char.is_space c then trimStart t else l
  | [] => []
  end.

Definition trimEnd (l : chars) : chars := rev (trimStart (rev l)).

Definition trim (l : chars) : chars := trimEnd (trimStart l).

Definition toUpperCase (l : chars) : chars := map Char.toUpper l.
Definition toLowerCase (l : chars) : chars := map Char.toLower l.

(** [===] on strings. *)
Definition str_eqb (a b : chars) : bool :=
  String.eqb (to_string a) (to_string b).

(** [s.split(sep)] for a one-character separator: always at least one
    piece; [cur] is the piece being read. *)
Fixpoint split_go (sep : ascii) (cur : chars) (l : chars) : list chars :=
  match l with
  | [] => [rev cur]
  | c :: t =>
      if Ascii.eqb c sep then rev cur :: split_go sep [] t
      else split_go sep (c :: cur) t
  end.

Definition split (sep : ascii) (l : chars) : list chars := split_go sep [] l.

(** [parts.join(sep)]. *)
Fixpoint join (sep : chars) (parts : list chars) : chars :=
  match parts with
  | [] => []
  | [p] => p
  | p :: ps => p ++ sep ++ join sep ps
  end.

End Js.

(* ===================================================================== *)
(** ** Regular expressions

    The regex literals of the source are sequences of the atoms below; the
    matcher is a backtracking matcher with greedy quantifiers, as
    ECMAScript's.  [prev] is the code unit just before the current position
    (needed by [\b]). *)
(* ===================================================================== *)

Module Regex.

Inductive atom : Type :=
| Chr (p : ascii -> bool)     (* one code unit in the class p *)
| Opt (p : ascii -> bool)     (* p?  greedy *)
| Star (p : ascii -> bool)    (* p*  greedy *)
| WordB                       (* \b *)
| EndA.                       (* $ (no m flag) *)

Definition regex := list atom.

(** A literal code unit, a literal under the [i] flag, [x+]. *)
Definition lit (c : ascii) : ascii -> bool := Ascii.eqb c.
Definition lit_i (c : ascii) : ascii -> bool := Char.eq_ci c.
Definition plus (p : ascii -> bool) : regex := [Chr p; Star p].

Definition word_at (o : option ascii) : bool :=
  match o with Some c => Char.is_word c | None => false end.

(** [match_here re prev l]: the number of code units the first successful
    match of [re] at the start of [l] consumes. *)
Fixpoint match_here (re : regex) : option ascii -> chars -> option nat :=
  match re with
  | [] => fun _ _ => Some 0
  | a :: re' =>
      let k := match_here re' in
      match a with
      | Chr p => fun _ l =>
          match l with
          | c :: t => if p c then S <$> k (Some c) t else None
          | [] => None
          end
      | Opt p => fun prev l =>
          match l with
          | c :: t =>
              if p c then
                match k (Some c) t with
                | Some n => Some (S n)
                | None => k prev l
                end
              else k prev l
          | [] => k prev l
          end
      | Star p =>
          fix star (prev : option ascii) (l : chars) {struct l} : option nat :=
            match l with
            | c :: t =>
                if p c then
                  match star (Some c) t with
                  | Some n => Some (S n)
                  | None => k prev l
                  end
                else k prev l
            | [] => k prev l
            end
      | WordB => fun prev l =>
          if xorb (word_at prev) (word_at (head l)) then k prev l else None
      | EndA => fun prev l =>
          match l with [] => k prev l | _ :: _ => None end
      end
  end.

(** [s.replace(re, r)]: scan the start positions from the left; with the
    [g] flag every match is replaced and the scan resumes after it,
    without it only the first one is.  [skip] counts the code units of the
    current match still to be passed over.  After an empty match the scan
    advances by one code unit. *)
Fixpoint replace_go (g : bool) (re : regex) (r : chars)
         (prev : option ascii) (l : chars) (skip : nat) {struct l} : chars :=
  match l with
  | [] =>
      match skip with
      | O => match match_here re prev [] with Some _ => r | None => [] end
      | S _ => []
      end
  | c :: t =>
      match skip with
      | S k => replace_go g re r (Some c) t k
      | O =>
          match match_here re prev l with
          | Some (S k) =>
              r ++ (if g then replace_go g re r (Some c) t k else drop k t)
          | Some O =>
              r ++ c :: (if g then replace_go g re r (Some c) t 0 else t)
          | None => c :: replace_go g re r (Some c) t 0
          end
      end
  end.

Definition replace_all (re : regex) (r : string) (l : chars) : chars :=
  replace_go true re (of_string r) None l 0.

Definition replace_first (re : regex) (r : string) (l : chars) : chars :=
  replace_go false re (of_string r) None l 0.

End Regex.

(* ===================================================================== *)
(** ** normalizeStreetName *)
(* ===================================================================== *)

Import Regex.

Definition comma : ascii := ","%char.
Definition dot : ascii := "."%char.
Definition space : ascii := " "%char.

(** [/,+/g], [/\s+/g], [/,\s*$/]. *)
Definition re_commas : regex := plus (lit comma).
Definition re_spaces : regex := plus Char.is_space.
Definition re_trailing_comma : regex := [Chr (lit comma); Star Char.is_space; EndA].

(** [/\bW\b\.?/gi] for a literal word [W]. *)
Definition re_abbrev (w : string) : regex :=
  WordB :: map (fun c => Chr (lit_i c)) (of_string w) ++ [WordB; Opt (lit dot)].

(** [/\bM\.?G\.?\b/gi]. *)
Definition re_mg : regex :=
  [WordB; Chr (lit_i "M"%char); Opt (lit dot);
   Chr (lit_i "G"%char); Opt (lit dot); WordB].

(** The callback of [.map]: tokens of at most three code units that are
    already upper case are kept, the others are put in Title Case. *)
Definition titleCase (word : chars) : chars :=
  if (length word <=? 3) && Js.str_eqb word (Js.toUpperCase word) then word
  else Js.toUpperCase (firstn 1 word) ++ Js.toLowerCase (skipn 1 word).

(** The abbreviation table, in the order of the [.replace] chain. *)
Definition abbreviations : list (string * string) :=
  [("Rd", "Road"); ("St", "Street"); ("Ave", "Avenue"); ("Blvd", "Boulevard");
   ("Dr", "Drive"); ("Ln", "Lane"); ("Ct", "Court"); ("Pl", "Place")].

Definition expandAbbreviations (l : chars) : chars :=
  replace_all re_mg "MG"
    (fold_left (fun acc '(w, r) => replace_all (re_abbrev w) r acc)
               abbreviations l).

Definition normalize_chars (l : chars) : chars :=
  let s1 := Js.trim l in
  let s2 := replace_all re_commas "," s1 in
  let s3 := replace_all re_spaces " " s2 in
  let s4 := Js.join [space] (map titleCase (Js.split space s3)) in
  let s5 := replace_first re_trailing_comma "" s4 in
  expandAbbreviations s5.

Definition normalizeStreetName (street : string) : string :=
  if String.eqb street "" then ""
  else to_string (normalize_chars (of_string street)).

(* ===================================================================== *)
(** ** Data model *)
(* ===================================================================== *)

(** A JS [number] is an IEEE-754 double. *)
Abbreviation number := float.

Record LocationCoordinates : Type := {
  latitude : number;
  longitude : number;
  accuracy : option number
}.

Record LocationAddress : Type := {
  street_name : string;
  city : string;
  state : option string;
  postal_code : option string;
  full_address : option string
}.

Inductive LocationSource : Type := Auto | Manual.

Record LocationResult : Type := {
  coordinates : LocationCoordinates;
  address : LocationAddress;
  source : LocationSource
}.

Inductive LocationState : Type :=
| Idle
| RequestingPermission
| Detecting
| Geocoding
| Success
| PermissionDenied
| Timeout
| Unsupported
| GeocodingFailed
| Error.

#[global] Instance LocationState_eq_dec : EqDecision LocationState.
Proof. solve_decision. Defined.

(** The [{ data, error }] pairs the functions resolve to. *)
Record Outcome (D E : Type) : Type := {
  data : option D;
  error : option E
}.
Arguments data {D E} _.
Arguments error {D E} _.

Record DetectOutcome : Type := {
  detect_data : option LocationResult;
  detect_error : option string;
  detect_state : LocationState
}.

(* ===================================================================== *)
(** ** The platform *)
(* ===================================================================== *)

(** A thrown value: an [Error] with its message, or anything else. *)
Inductive Thrown : Type :=
| ErrorObject (message : string)
| OtherValue.

Record PositionOptions : Type := {
  enableHighAccuracy : bool;
  timeout : N;
  maximumAge : N
}.

(** [GeolocationPositionError] codes. *)
Definition PERMISSION_DENIED : nat := 1.
Definition POSITION_UNAVAILABLE : nat := 2.
Definition TIMEOUT : nat := 3.

(** What [getCurrentPosition] calls back with: the platform calls exactly
    one of the two callbacks (with [timeout] set, at the latest when it
    expires). *)
Inductive PositionOutcome : Type :=
| PositionFound (lat lon acc : number)
| PositionError (code : nat).

(** The GET request of [reverseGeocode]: endpoint, query and headers. *)
Record Request : Type := {
  endpoint : string;
  format : string;
  lat : number;
  lon : number;
  zoom : nat;
  addressdetails : nat;
  headers : list (string * string)
}.

(** The parsed body: [address] is the provider's field-name → string map. *)
Record GeocodeJson : Type := {
  json_address : option (gmap string string);
  display_name : option string
}.

Inductive JsonOutcome : Type :=
| JsonRejected (t : Thrown)
| JsonValue (d : GeocodeJson).

Inductive FetchOutcome : Type :=
| FetchRejected (t : Thrown)
| FetchResponse (ok : bool) (body : JsonOutcome).

Record StreetStatistics : Type := {
  streetName : string;
  stat_city : string;
  totalReports : nat;
  openReports : nat;
  inProgressReports : nat;
  resolvedReports : nat;
  falseReports : nat;
  lastReportDate : string
}.

Inductive StatsOutcome : Type :=
| StatsThrown (t : Thrown)
| StatsReturned (stats : option (list StreetStatistics)).

(** [geolocation = None]: ['geolocation' in navigator] is false. *)
Record World : Type := {
  geolocation : option (PositionOptions -> PositionOutcome);
  fetch : Request -> FetchOutcome;
  getStreetStatistics : string -> StatsOutcome
}.

Inductive Event : Type :=
| EvGetCurrentPosition (o : PositionOptions)
| EvFetch (r : Request)
| EvConsoleError (label : string) (t : Thrown)
| EvGetStreetStatistics (street : string)
| EvSetLocationState (s : LocationState)
| EvSetLocationError (e : option string)
| EvSetManualLocationMode (b : bool)
| EvSetCoordinates (c : option LocationCoordinates)
| EvSetDetectedStreet (s : string)
| EvSetDetectedCity (s : string)
| EvSetLocationSource (s : LocationSource)
| EvSetStreetStats (s : option StreetStatistics).

(* ===================================================================== *)
(** ** Computations: a trace of events and a value or a thrown exception *)
(* ===================================================================== *)

Definition Comp (A : Type) : Type := (list Event * (Thrown + A))%type.

#[global] Instance Comp_ret : MRet Comp := fun A a => ([], inr a).

#[global] Instance Comp_bind : MBind Comp := fun A B f m =>
  match m with
  | (tr, inl t) => (tr, inl t)
  | (tr, inr a) => let '(tr', r) := f a in (tr ++ tr', r)
  end.

Definition throw {A : Type} (t : Thrown) : Comp A := ([], inl t).

Definition emit (e : Event) : Comp unit := ([e], inr tt).

(** [try { body } catch (e) { handler e }]. *)
Definition try_catch {A : Type} (body : Comp A) (handler : Thrown -> Comp A) : Comp A :=
  match body with
  | (tr, inl t) => let '(tr', r) := handler t in (tr ++ tr', r)
  | (tr, inr a) => (tr, inr a)
  end.

Definition trace {A : Type} (m : Comp A) : list Event := fst m.
Definition result {A : Type} (m : Comp A) : Thrown + A := snd m.

(** The value a computation returns, when it does not throw. *)
Definition returned {A : Type} (m : Comp A) : option A :=
  match snd m with inr a => Some a | inl _ => None end.

(* ===================================================================== *)
(** ** JS truthiness on optional strings *)
(* ===================================================================== *)

Definition truthy (v : option string) : bool :=
  match v with
  | Some s => negb (String.eqb s "")
  | None => false
  end.

(** [a || b]. *)
Definition js_or (a b : option string) : option string :=
  if truthy a then a else b.

(** [[...].filter(Boolean)] on optional strings. *)
Definition filter_Boolean (l : list (option string)) : list string :=
  omap (fun v => if truthy v then v else None) l.

(* ===================================================================== *)
(** ** src/utils/location.ts *)
(* ===================================================================== *)

Definition isGeolocationSupported (w : World) : bool :=
  match geolocation w with Some _ => true | None => false end.

Definition position_options : PositionOptions :=
  {| enableHighAccuracy := true; timeout := 10000%N; maximumAge := 0%N |}.

(** The [switch (error.code)] of the error callback. *)
Definition error_state_of_code (code : nat) : LocationState :=
  if code =? PERMISSION_DENIED then PermissionDenied
  else if code =? TIMEOUT then Timeout
  else if code =? POSITION_UNAVAILABLE then Error
  else Error.

Definition getCurrentLocation (w : World)
  : Comp (Outcome LocationCoordinates LocationState) :=
  if negb (isGeolocationSupported w) then
    mret {| data := None; error := Some Unsupported |}
  else
    match geolocation w with
    | Some getCurrentPosition =>
        _ ← emit (EvGetCurrentPosition position_options);
        match getCurrentPosition position_options with
        | PositionFound la lo acc =>
            mret {| data := Some {| latitude := la; longitude := lo;
                                    accuracy := Some acc |};
                    error := None |}
        | PositionError code =>
            mret {| data := None; error := Some (error_state_of_code code) |}
        end
    | None => throw (ErrorObject "navigator.geolocation is undefined")
    end.

(** The candidate fields of [extractStreetName], in the order of the array
    literal. *)
Definition streetFields : list string :=
  ["road"; "street"; "pedestrian"; "footway"; "path"; "highway"].

Definition areaFields : list string :=
  ["neighbourhood"; "suburb"; "district"].

(** The [for ... of] loop: the first truthy field is normalised and
    returned; [None] when the loop falls through. *)
Fixpoint first_street (fields : list (option string)) : option string :=
  match fields with
  | [] => None
  | field :: rest =>
      if truthy field then Some (normalizeStreetName (default "" field))
      else first_street rest
  end.

Definition extractStreetName (address : gmap string string) : string :=
  match first_street ((fun f => address !! f) <$> streetFields) with
  | Some s => s
  | None =>
      let fallback :=
        String.concat " "
          (filter_Boolean ((fun f => address !! f) <$> areaFields)) in
      if truthy (Some fallback) then normalizeStreetName fallback else ""
  end.

Definition nominatim_request (c : LocationCoordinates) : Request :=
  {| endpoint := "https://nominatim.openstreetmap.org/reverse";
     format := "json";
     lat := latitude c;
     lon := longitude c;
     zoom := 18;
     addressdetails := 1;
     headers := [("Accept-Language", "en");
                 ("User-Agent", "CommunityWasteReportingApp/1.0")] |}.

Definition await_fetch (w : World) (r : Request) : Comp (bool * JsonOutcome) :=
  _ ← emit (EvFetch r);
  match fetch w r with
  | FetchRejected t => throw t
  | FetchResponse ok body => mret (ok, body)
  end.

Definition await_json (body : JsonOutcome) : Comp GeocodeJson :=
  match body with
  | JsonRejected t => throw t
  | JsonValue d => mret d
  end.

(** The street name [reverseGeocode] holds when it reaches its
    "minimum required data" check: [extractStreetName], then the
    building / suburb fallback. *)
Definition street_candidate (address : gmap string string) : string :=
  let street_name := extractStreetName address in
  if negb (truthy (Some street_name)) then
    let fallbackComponents :=
      filter_Boolean [address !! "building";
                      js_or (address !! "suburb") (address !! "neighbourhood")] in
    if 0 <? length fallbackComponents
    then normalizeStreetName (String.concat " " fallbackComponents)
    else street_name
  else street_name.

Definition city_candidate (address : gmap string string) : string :=
  default "Unknown City"
    (js_or (js_or (js_or (js_or (js_or (address !! "city") (address !! "town"))
                                (address !! "village"))
                         (address !! "municipality"))
                  (address !! "county"))
           (Some "Unknown City")).

Definition no_street_message : string :=
  "Unable to identify street name from location. Please enter manually.".

Definition reverseGeocode_try (w : World) (coords : LocationCoordinates)
  : Comp (Outcome LocationAddress string) :=
  '(ok, body) ← await_fetch w (nominatim_request coords);
  _ ← (if negb ok then throw (ErrorObject "Geocoding service unavailable")
       else mret tt);
  d ← await_json body;
  match json_address d with
  | None => throw (ErrorObject "No address found for this location")
  | Some address =>
      let street_name := street_candidate address in
      let city := city_candidate address in
      if negb (truthy (Some street_name)) then
        mret {| data := None; error := Some no_street_message |}
      else
        mret {| data := Some {| street_name := normalizeStreetName street_name;
                                city := normalizeStreetName city;
                                state := address !! "state";
                                postal_code := address !! "postcode";
                                full_address := display_name d |};
                error := None |}
  end.

(** [error instanceof Error ? error.message : '...']. *)
Definition caught_message (t : Thrown) : string :=
  match t with
  | ErrorObject message => message
  | OtherValue => "Failed to get address from location"
  end.

Definition reverseGeocode_catch (t : Thrown)
  : Comp (Outcome LocationAddress string) :=
  _ ← emit (EvConsoleError "Reverse geocoding error:" t);
  mret {| data := None; error := Some (caught_message t) |}.

Definition reverseGeocode (w : World) (coords : LocationCoordinates)
  : Comp (Outcome LocationAddress string) :=
  try_catch (reverseGeocode_try w coords) reverseGeocode_catch.

Definition getErrorMessage (s : LocationState) : string :=
  match s with
  | PermissionDenied =>
      "Location permission denied. Please enable location access in your browser settings or enter the location manually."
  | Timeout =>
      "Location detection timed out. Please try again or enter the location manually."
  | Unsupported =>
      "Your browser does not support location detection. Please enter the location manually."
  | GeocodingFailed =>
      "Unable to identify street name from your location. Please enter it manually."
  | _ => "Unable to detect location. Please enter the location manually."
  end.

Definition detectLocation (w : World) : Comp DetectOutcome :=
  got ← getCurrentLocation w;
  match error got, data got with
  | None, Some coords =>
      geo ← reverseGeocode w coords;
      match truthy (error geo), data geo with
      | false, Some addr =>
          mret {| detect_data := Some {| coordinates := coords;
                                         address := addr;
                                         source := Auto |};
                  detect_error := None;
                  detect_state := Success |}
      | _, _ =>
          mret {| detect_data := None;
                  detect_error :=
                    js_or (error geo) (Some "Failed to determine address");
                  detect_state := GeocodingFailed |}
      end
  | coordError, _ =>
      mret {| detect_data := None;
              detect_error := Some (getErrorMessage (default Error coordError));
              detect_state := default Error coordError |}
  end.

Record Validation : Type := {
  valid : bool;
  validation_error : option string
}.

Definition street_message : string :=
  "Please enter a valid street name (minimum 3 characters)".
Definition city_message : string := "Please enter a valid city name".

Definition validateManualLocation (streetName cityName : string) : Validation :=
  let trimmedStreet := Js.trim (of_string streetName) in
  let trimmedCity := Js.trim (of_string cityName) in
  if negb (truthy (Some (to_string trimmedStreet))) || (length trimmedStreet <? 3)
  then {| valid := false; validation_error := Some street_message |}
  else if negb (truthy (Some (to_string trimmedCity))) || (length trimmedCity <? 2)
  then {| valid := false; validation_error := Some city_message |}
  else {| valid := true; validation_error := None |}.

(* ===================================================================== *)
(** ** CitizenDashboard: requestLocation *)
(* ===================================================================== *)

Definition await_getStreetStatistics (w : World) (street : string)
  : Comp (option (list StreetStatistics)) :=
  _ ← emit (EvGetStreetStatistics street);
  match getStreetStatistics w street with
  | StatsThrown t => throw t
  | StatsReturned stats => mret stats
  end.

Definition requestLocation_try (w : World) : Comp unit :=
  r ← detectLocation w;
  match truthy (detect_error r), detect_data r with
  | false, Some d =>
      _ ← emit (EvSetCoordinates (Some (coordinates d)));
      _ ← emit (EvSetDetectedStreet (street_name (address d)));
      _ ← emit (EvSetDetectedCity (city (address d)));
      _ ← emit (EvSetLocationSource Auto);
      _ ← emit (EvSetLocationState Success);
      stats ← await_getStreetStatistics w (street_name (address d));
      match stats with
      | Some (first :: _) => emit (EvSetStreetStats (Some first))
      | _ => mret tt
      end
  | _, _ =>
      _ ← emit (EvSetLocationState (detect_state r));
      _ ← emit (EvSetLocationError
                  (js_or (detect_error r) (Some "Failed to detect location")));
      emit (EvSetManualLocationMode true)
  end.

Definition requestLocation_catch (t : Thrown) : Comp unit :=
  _ ← emit (EvConsoleError "Location detection error:" t);
  _ ← emit (EvSetLocationState Error);
  _ ← emit (EvSetLocationError (Some "An unexpected error occurred"));
  emit (EvSetManualLocationMode true).

Definition requestLocation (w : World) : Comp unit :=
  _ ← emit (EvSetLocationState Detecting);
  _ ← emit (EvSetLocationError None);
  try_catch (requestLocation_try w) requestLocation_catch.

(** The values [locationState] takes during a run: the initial
    [useState('idle')] followed by every [setLocationState]. *)
Definition states_set (tr : list Event) : list LocationState :=
  omap (fun e => match e with EvSetLocationState s => Some s | _ => None end) tr.

Definition visited (w : World) : list LocationState :=
  Idle :: states_set (trace (requestLocation w)).

(** The platform calls a run issued. *)
Definition is_location_call (e : Event) : bool :=
  match e with EvGetCurrentPosition _ => true | _ => false end.


(* ===================================================================== *)
(** ** What the properties speak about *)
(* ===================================================================== *)

(** Exactly one of the two fields of a [{ data, error }] pair is non-null. *)
Definition exactly_one {A B : Type} (a : option A) (b : option B) : Prop :=
  (is_Some a /\ b = None) \/ (a = None /\ is_Some b).

(** Characters the normaliser treats uniformly: word characters and
    whitespace. *)
Definition plain_char (c : ascii) : bool := Char.is_word c || Char.is_space c.

Definition plain (s : string) : Prop :=
  forallb plain_char (of_string s) = true.

(** Worlds with constant answers, and the sample worlds the properties are
    instantiated at. *)
Definition world_of (geo : option PositionOutcome) (f : FetchOutcome)
           (st : StatsOutcome) : World :=
  {| geolocation := (fun o => fun _ : PositionOptions => o) <$> geo;
     fetch := fun _ => f;
     getStreetStatistics := fun _ => st |}.

Definition geocoded (address : gmap string string) : FetchOutcome :=
  FetchResponse true
    (JsonValue {| json_address := Some address; display_name := None |}).

Definition here : PositionOutcome := PositionFound 12.5%float 77.5%float 10%float.

Definition here_coords : LocationCoordinates :=
  {| latitude := 12.5%float; longitude := 77.5%float; accuracy := Some 10%float |}.

Definition address_mg_road : gmap string string :=
  <["road" := "MG Road"]> (<["city" := "Bengaluru"]> ∅).



Definition address_only_commas : gmap string string :=
  <["road" := ", ,"]> (<["city" := ","]> ∅).




Definition world_found (address : gmap string string) : World :=
  world_of (Some here) (geocoded address) (StatsReturned (Some [])).

Definition world_denied : World :=
  world_of (Some (PositionError PERMISSION_DENIED)) (geocoded address_mg_road)
           (StatsReturned None).

Definition world_timed_out : World :=
  world_of (Some (PositionError TIMEOUT)) (geocoded address_mg_road)
           (StatsReturned None).

Definition world_unavailable : World :=
  world_of (Some (PositionError POSITION_UNAVAILABLE)) (geocoded address_mg_road)
           (StatsReturned None).

Definition world_unsupported : World :=
  world_of None (geocoded address_mg_road) (StatsReturned None).

Definition world_http_down : World :=
  world_of (Some here) (FetchResponse false (JsonRejected OtherValue))
           (StatsReturned None).

Definition world_no_address : World :=
  world_of (Some here)
           (FetchResponse true
              (JsonValue {| json_address := None; display_name := None |}))
           (StatsReturned None).

Definition world_offline : World :=
  world_of (Some here) (FetchRejected (ErrorObject "Failed to fetch"))
           (StatsReturned None).



(* ===================================================================== *)
(** ** Vocabulary of the normalisation proofs *)
(* ===================================================================== *)

(** All 256 code units, to settle facts about character classes by
    evaluation. *)
Definition all_ascii : list ascii := map ascii_of_nat (seq 0 256).

(** What [/\s+/g -> ' '] computes: every run of whitespace becomes one
    space; [inrun] tells that the previous code unit was whitespace. *)
Fixpoint squeeze (inrun : bool) (l : chars) : chars :=
  match l with
  | [] => []
  | c :: t =>
      if Char.is_space c
      then (if inrun then squeeze true t else space :: squeeze true t)
      else c :: squeeze false t
  end.

(** Length of the leading run of code units in the class [p]. *)
Fixpoint run (p : ascii -> bool) (l : chars) : nat :=
  match l with
  | c :: t => if p c then S (run p t) else 0
  | [] => 0
  end.

(** A token: a non-empty sequence of word characters. *)
Definition good (t : chars) : Prop :=
  t <> [] /\ forallb Char.is_word t = true.

(** Tokens separated by single spaces. *)
Definition tidy (x : chars) : Prop :=
  exists T, T <> [] /\ Forall good T /\ x = Js.join [space] T.

(** What follows a token in a tidy string: the end or a space. *)
Definition gap (rest : chars) : Prop :=
  rest = [] \/ exists rest', rest = space :: rest'.

(** Equality of two sequences under the [i] flag. *)
Fixpoint ci_eqb (w t : chars) : bool :=
  match w, t with
  | [], [] => true
  | a :: w', c :: t' => Char.eq_ci a c && ci_eqb w' t'
  | _, _ => false
  end.

(** Matching the literal [w] under the [i] flag and continuing with [k]. *)
Fixpoint lits_then (w : chars) (k : option ascii -> chars -> option nat)
         (prev : option ascii) (l : chars) : option nat :=
  match w with
  | [] => k prev l
  | a :: w' =>
      match l with
      | c :: t => if Char.eq_ci a c then S <$> lits_then w' k (Some c) t else None
      | [] => None
      end
  end.

(** The effect of one abbreviation rule on a token. *)
Definition subst (w r : string) (t : chars) : chars :=
  if ci_eqb (of_string w) t then of_string r else t.

(** The effect of the whole replace chain on a token. *)
Definition expandToken (t : chars) : chars :=
  subst "MG" "MG"
    (fold_left (fun acc '(w, r) => subst w r acc) abbreviations t).

Definition normalizeToken (t : chars) : chars := expandToken (titleCase t).

(** The pipeline after whitespace has been collapsed. *)
Definition finish (x : chars) : chars :=
  expandAbbreviations
    (replace_first re_trailing_comma ""
       (Js.join [space] (map titleCase (Js.split space x)))).

Definition collapse (l : chars) : chars :=
  replace_all re_spaces " " (replace_all re_commas "," (Js.trim l)).

(** The code unit before the position reached after passing over [u]. *)
Definition prev_after (prev : option ascii) (u : chars) : option ascii :=
  fold_left (fun _ c => Some c) u prev.

(** [\b\.?], the end of every abbreviation pattern. *)
Definition re_word_end : regex := [WordB; Opt (lit dot)].

Arguments Char.eq_ci : simpl never.
Arguments Char.is_word : simpl never.
Arguments Char.is_space : simpl never.
Arguments lit : simpl never.
Arguments lit_i : simpl never.

(** What a token can be rewritten to. *)
Definition expansions : list chars :=
  map (fun '(_, r) => of_string r) abbreviations ++ [of_string "MG"].

Definition rule_ok (rule : string * string) : Prop :=
  good (of_string (fst rule)) /\ good (of_string (snd rule)).

(** A string of word characters and whitespace with at least one word
    character in it. *)
Definition wordy (s : string) : Prop :=
  plain s /\ existsb Char.is_word (of_string s) = true.


(* ===================================================================== *)
(** ** CitizenDashboard: the component state

    One field per [useState] of the component, with the setter calls as
    data.  A handler reads the state of the render it was created in and
    calls setters with plain values, so the state after a handler is that
    state with the setter calls applied in order. *)
(* ===================================================================== *)

(** A [File]: the code reads its name only. *)
Record File : Type := { file_name : string }.

Module Dash.

Record State : Type := {
  locationState : LocationState;
  description : string;
  uploadedImage : option string;
  uploadedFile : option File;
  showNotifications : bool;
  detectedStreet : string;
  detectedCity : string;
  locationError : option string;
  coordinates : option LocationCoordinates;
  submitting : bool;
  submitSuccess : bool;
  submitError : option string;
  streetStats : option StreetStatistics;
  manualLocationMode : bool;
  locationSource : LocationSource
}.

(** The initial values of the [useState] calls. *)
Definition initial : State :=
  {| locationState := Idle;
     description := "";
     uploadedImage := None;
     uploadedFile := None;
     showNotifications := false;
     detectedStreet := "";
     detectedCity := "";
     locationError := None;
     coordinates := None;
     submitting := false;
     submitSuccess := false;
     submitError := None;
     streetStats := None;
     manualLocationMode := false;
     locationSource := Auto |}.

Inductive Setter : Type :=
| setLocationState (v : LocationState)
| setDescription (v : string)
| setUploadedImage (v : option string)
| setUploadedFile (v : option File)
| setShowNotifications (v : bool)
| setDetectedStreet (v : string)
| setDetectedCity (v : string)
| setLocationError (v : option string)
| setCoordinates (v : option LocationCoordinates)
| setSubmitting (v : bool)
| setSubmitSuccess (v : bool)
| setSubmitError (v : option string)
| setStreetStats (v : option StreetStatistics)
| setManualLocationMode (v : bool)
| setLocationSource (v : LocationSource).

Definition apply (d : State) (s : Setter) : State :=
  match s with
  | setLocationState v =>
      {| locationState := v;
         description := description d;
         uploadedImage := uploadedImage d;
         uploadedFile := uploadedFile d;
         showNotifications := showNotifications d;
         detectedStreet := detectedStreet d;
         detectedCity := detectedCity d;
         locationError := locationError d;
         coordinates := coordinates d;
         submitting := submitting d;
         submitSuccess := submitSuccess d;
         submitError := submitError d;
         streetStats := streetStats d;
         manualLocationMode := manualLocationMode d;
         locationSource := locationSource d |}
  | setDescription v =>
      {| locationState := locationState d;
         description := v;
         uploadedImage := uploadedImage d;
         uploadedFile := uploadedFile d;
         showNotifications := showNotifications d;
         detectedStreet := detectedStreet d;
         detectedCity := detectedCity d;
         locationError := locationError d;
         coordinates := coordinates d;
         submitting := submitting d;
         submitSuccess := submitSuccess d;
         submitError := submitError d;
         streetStats := streetStats d;
         manualLocationMode := manualLocationMode d;
         locationSource := locationSource d |}
  | setUploadedImage v =>
      {| locationState := locationState d;
         description := description d;
         uploadedImage := v;
         uploadedFile := uploadedFile d;
         showNotifications := showNotifications d;
         detectedStreet := detectedStreet d;
         detectedCity := detectedCity d;
         locationError := locationError d;
         coordinates := coordinates d;
         submitting := submitting d;
         submitSuccess := submitSuccess d;
         submitError := submitError d;
         streetStats := streetStats d;
         manualLocationMode := manualLocationMode d;
         locationSource := locationSource d |}
  | setUploadedFile v =>
      {| locationState := locationState d;
         description := description d;
         uploadedImage := uploadedImage d;
         uploadedFile := v;
         showNotifications := showNotifications d;
         detectedStreet := detectedStreet d;
         detectedCity := detectedCity d;
         locationError := locationError d;
         coordinates := coordinates d;
         submitting := submitting d;
         submitSuccess := submitSuccess d;
         submitError := submitError d;
         streetStats := streetStats d;
         manualLocationMode := manualLocationMode d;
         locationSource := locationSource d |}
  | setShowNotifications v =>
      {| locationState := locationState d;
         description := description d;
         uploadedImage := uploadedImage d;
         uploadedFile := uploadedFile d;
         showNotifications := v;
         detectedStreet := detectedStreet d;
         detectedCity := detectedCity d;
         locationError := locationError d;
         coordinates := coordinates d;
         submitting := submitting d;
         submitSuccess := submitSuccess d;
         submitError := submitError d;
         streetStats := streetStats d;
         manualLocationMode := manualLocationMode d;
         locationSource := locationSource d |}
  | setDetectedStreet v =>
      {| locationState := locationState d;
         description := description d;
         uploadedImage := uploadedImage d;
         uploadedFile := uploadedFile d;
         showNotifications := showNotifications d;
         detectedStreet := v;
         detectedCity := detectedCity d;
         locationError := locationError d;
         coordinates := coordinates d;
         submitting := submitting d;
         submitSuccess := submitSuccess d;
         submitError := submitError d;
         streetStats := streetStats d;
         manualLocationMode := manualLocationMode d;
         locationSource := locationSource d |}
  | setDetectedCity v =>
      {| locationState := locationState d;
         description := description d;
         uploadedImage := uploadedImage d;
         uploadedFile := uploadedFile d;
         showNotifications := showNotifications d;
         detectedStreet := detectedStreet d;
         detectedCity := v;
         locationError := locationError d;
         coordinates := coordinates d;
         submitting := submitting d;
         submitSuccess := submitSuccess d;
         submitError := submitError d;
         streetStats := streetStats d;
         manualLocationMode := manualLocationMode d;
         locationSource := locationSource d |}
  | setLocationError v =>
      {| locationState := locationState d;
         description := description d;
         uploadedImage := uploadedImage d;
         uploadedFile := uploadedFile d;
         showNotifications := showNotifications d;
         detectedStreet := detectedStreet d;
         detectedCity := detectedCity d;
         locationError := v;
         coordinates := coordinates d;
         submitting := submitting d;
         submitSuccess := submitSuccess d;
         submitError := submitError d;
         streetStats := streetStats d;
         manualLocationMode := manualLocationMode d;
         locationSource := locationSource d |}
  | setCoordinates v =>
      {| locationState := locationState d;
         description := description d;
         uploadedImage := uploadedImage d;
         uploadedFile := uploadedFile d;
         showNotifications := showNotifications d;
         detectedStreet := detectedStreet d;
         detectedCity := detectedCity d;
         locationError := locationError d;
         coordinates := v;
         submitting := submitting d;
         submitSuccess := submitSuccess d;
         submitError := submitError d;
         streetStats := streetStats d;
         manualLocationMode := manualLocationMode d;
         locationSource := locationSource d |}
  | setSubmitting v =>
      {| locationState := locationState d;
         description := description d;
         uploadedImage := uploadedImage d;
         uploadedFile := uploadedFile d;
         showNotifications := showNotifications d;
         detectedStreet := detectedStreet d;
         detectedCity := detectedCity d;
         locationError := locationError d;
         coordinates := coordinates d;
         submitting := v;
         submitSuccess := submitSuccess d;
         submitError := submitError d;
         streetStats := streetStats d;
         manualLocationMode := manualLocationMode d;
         locationSource := locationSource d |}
  | setSubmitSuccess v =>
      {| locationState := locationState d;
         description := description d;
         uploadedImage := uploadedImage d;
         uploadedFile := uploadedFile d;
         showNotifications := showNotifications d;
         detectedStreet := detectedStreet d;
         detectedCity := detectedCity d;
         locationError := locationError d;
         coordinates := coordinates d;
         submitting := submitting d;
         submitSuccess := v;
         submitError := submitError d;
         streetStats := streetStats d;
         manualLocationMode := manualLocationMode d;
         locationSource := locationSource d |}
  | setSubmitError v =>
      {| locationState := locationState d;
         description := description d;
         uploadedImage := uploadedImage d;
         uploadedFile := uploadedFile d;
         showNotifications := showNotifications d;
         detectedStreet := detectedStreet d;
         detectedCity := detectedCity d;
         locationError := locationError d;
         coordinates := coordinates d;
         submitting := submitting d;
         submitSuccess := submitSuccess d;
         submitError := v;
         streetStats := streetStats d;
         manualLocationMode := manualLocationMode d;
         locationSource := locationSource d |}
  | setStreetStats v =>
      {| locationState := locationState d;
         description := description d;
         uploadedImage := uploadedImage d;
         uploadedFile := uploadedFile d;
         showNotifications := showNotifications d;
         detectedStreet := detectedStreet d;
         detectedCity := detectedCity d;
         locationError := locationError d;
         coordinates := coordinates d;
         submitting := submitting d;
         submitSuccess := submitSuccess d;
         submitError := submitError d;
         streetStats := v;
         manualLocationMode := manualLocationMode d;
         locationSource := locationSource d |}
  | setManualLocationMode v =>
      {| locationState := locationState d;
         description := description d;
         uploadedImage := uploadedImage d;
         uploadedFile := uploadedFile d;
         showNotifications := showNotifications d;
         detectedStreet := detectedStreet d;
         detectedCity := detectedCity d;
         locationError := locationError d;
         coordinates := coordinates d;
         submitting := submitting d;
         submitSuccess := submitSuccess d;
         submitError := submitError d;
         streetStats := streetStats d;
         manualLocationMode := v;
         locationSource := locationSource d |}
  | setLocationSource v =>
      {| locationState := locationState d;
         description := description d;
         uploadedImage := uploadedImage d;
         uploadedFile := uploadedFile d;
         showNotifications := showNotifications d;
         detectedStreet := detectedStreet d;
         detectedCity := detectedCity d;
         locationError := locationError d;
         coordinates := coordinates d;
         submitting := submitting d;
         submitSuccess := submitSuccess d;
         submitError := submitError d;
         streetStats := streetStats d;
         manualLocationMode := manualLocationMode d;
         locationSource := v |}
  end.

End Dash.

(* ===================================================================== *)
(** ** The reports table and the Supabase backend

    The row types follow the [reports] table of [supabase/schema.sql]. *)
(* ===================================================================== *)

Inductive ReportStatus : Type :=
| StatusOpen
| StatusInProgress
| StatusResolved
| StatusFalseReport.

#[global] Instance ReportStatus_eq_dec : EqDecision ReportStatus.
Proof. solve_decision. Defined.

(** [Database['public']['Tables']['reports']['Insert']]. *)
Module Insert.

Record t : Type := {
  image_url : string;
  latitude : number;
  longitude : number;
  street_name : string;
  city : string;
  description : option string;
  status : option ReportStatus
}.

End Insert.

(** [Report], the type of a stored row:
    [Database['public']['Tables']['reports']['Row']]. *)
Module Report.

Record t : Type := {
  id : string;
  image_url : string;
  latitude : number;
  longitude : number;
  street_name : string;
  city : string;
  description : option string;
  status : ReportStatus;
  created_at : string;
  updated_at : string;
  resolved_at : option string
}.

End Report.

(** The columns [getStreetStatistics] selects. *)
Module StatRow.

Record t : Type := {
  street_name : string;
  city : string;
  status : ReportStatus;
  created_at : string
}.

End StatRow.

(** The columns [getReportsByStreet] selects. *)
Module PlaceRow.

Record t : Type := {
  street_name : string;
  city : string;
  latitude : number;
  longitude : number;
  status : ReportStatus
}.

End PlaceRow.

Inductive UploadOutcome : Type :=
| UploadRejected (t : Thrown)
| UploadAnswered (error : option Thrown).

Inductive InsertOutcome : Type :=
| InsertRejected (t : Thrown)
| InsertAnswered (data : option Report.t) (error : option Thrown).

Inductive SelectOutcome : Type :=
| SelectRejected (t : Thrown)
| SelectAnswered (rows : option (list StatRow.t)) (error : option Thrown).

Inductive PlacesOutcome : Type :=
| PlacesRejected (t : Thrown)
| PlacesAnswered (rows : option (list PlaceRow.t)) (error : option Thrown).

(** What the code asks of its surroundings.  [createClient = Some t]:
    [createClient()] throws [t].  [Math_random_base36] is
    [Math.random().toString(36)]; [Date_later a b] is
    [new Date(a) > new Date(b)]; [null_read_message] is the message of the
    [TypeError] the engine throws when a property of [null] is read. *)
Record Backend : Type := {
  createClient : option Thrown;
  Date_now : N;
  Math_random_base36 : string;
  storage_upload : string -> File -> UploadOutcome;
  storage_getPublicUrl : string -> string;
  reports_insert : Insert.t -> InsertOutcome;
  reports_select : option string -> SelectOutcome;
  reports_places : PlacesOutcome;
  Date_later : string -> string -> bool;
  null_read_message : string
}.

(** What a handler does, in order. *)
Inductive Act : Type :=
| ActSet (s : Dash.Setter)
| ActLocation (e : Event)
| ActPreventDefault
| ActConsoleLog (label : string)
| ActConsoleError (label : string) (t : Thrown)
| ActStorageUpload (bucket path : string) (f : File)
                   (cacheControl : string) (upsert : bool)
| ActGetPublicUrl (bucket path : string)
| ActInsertReport (table : string) (row : Insert.t)
| ActSelectReports (table columns : string) (street_name : option string)
| ActSetTimeout (ms : N) (s : Dash.Setter)
| ActReadAsDataURL (f : File).

Definition Flow (A : Type) : Type := (list Act * (Thrown + A))%type.

#[global] Instance Flow_ret : MRet Flow := fun A a => ([], inr a).

#[global] Instance Flow_bind : MBind Flow := fun A B f m =>
  match m with
  | (tr, inl t) => (tr, inl t)
  | (tr, inr a) => let '(tr', r) := f a in (tr ++ tr', r)
  end.

Definition raise {A : Type} (t : Thrown) : Flow A := ([], inl t).

Definition act (a : Act) : Flow unit := ([a], inr tt).

(** [try { body } catch (e) { handler e }]. *)
Definition attempt {A : Type} (body : Flow A) (handler : Thrown -> Flow A)
  : Flow A :=
  match body with
  | (tr, inl t) => let '(tr', r) := handler t in (tr ++ tr', r)
  | (tr, inr a) => (tr, inr a)
  end.

(** [try { body } finally { fin }]. *)
Definition finally {A : Type} (body : Flow A) (fin : Flow unit) : Flow A :=
  match body, fin with
  | (tr, r), (tr', inr _) => (tr ++ tr', r)
  | (tr, _), (tr', inl t) => (tr ++ tr', inl t)
  end.

Definition acts {A : Type} (m : Flow A) : list Act := fst m.

Definition outcome {A : Type} (m : Flow A) : option A :=
  match snd m with inr a => Some a | inl _ => None end.

(** A computation of [location.ts] run from the component. *)
Definition located {A : Type} (m : Comp A) : Flow A :=
  (ActLocation <$> fst m, snd m).

Definition call_createClient (b : Backend) : Flow unit :=
  match createClient b with
  | Some t => raise t
  | None => mret tt
  end.

(** The decimal digits of an integer, as a template literal prints it. *)
Definition decimal (n : N) : string := NilEmpty.string_of_uint (N.to_uint n).

(** [s.substring(n)]. *)
Definition substring (n : nat) (s : string) : string :=
  to_string (drop n (of_string s)).

(* ===================================================================== *)
(** ** src/db/reports.ts: createReport, uploadReportImage *)
(* ===================================================================== *)

Definition as_open (report : Insert.t) : Insert.t :=
  {| Insert.image_url := Insert.image_url report;
     Insert.latitude := Insert.latitude report;
     Insert.longitude := Insert.longitude report;
     Insert.street_name := Insert.street_name report;
     Insert.city := Insert.city report;
     Insert.description := Insert.description report;
     Insert.status := Some StatusOpen |}.

Definition await_insert (b : Backend) (row : Insert.t)
  : Flow (option Report.t * option Thrown) :=
  _ ← act (ActInsertReport "reports" row);
  match reports_insert b row with
  | InsertRejected t => raise t
  | InsertAnswered d e => mret (d, e)
  end.

Definition createReport (b : Backend) (report : Insert.t)
  : Flow (Outcome Report.t Thrown) :=
  _ ← act (ActConsoleLog "createReport: Initiating with data:");
  _ ← call_createClient b;
  attempt
    ('(d, e) ← await_insert b (as_open report);
     match e with
     | Some err =>
         _ ← act (ActConsoleError "createReport: Supabase API Error:" err);
         raise err
     | None =>
         _ ← act (ActConsoleLog "createReport: Success!");
         mret {| data := d; error := None |}
     end)
    (fun t =>
       _ ← act (ActConsoleError "createReport: Unexpected Exception:" t);
       mret {| data := None; error := Some t |}).

(** [file.name.split('.').pop()]. *)
Definition fileExt (file : File) : string :=
  to_string (List.last (Js.split dot (of_string (file_name file))) []).

Definition filePath (b : Backend) (file : File) : string :=
  "reports/"
  ++ (decimal (Date_now b) ++ "-" ++ substring 7 (Math_random_base36 b)
      ++ "." ++ fileExt file).

Definition await_upload (b : Backend) (path : string) (file : File)
  : Flow (option Thrown) :=
  _ ← act (ActStorageUpload "waste-reports" path file "3600" false);
  match storage_upload b path file with
  | UploadRejected t => raise t
  | UploadAnswered e => mret e
  end.

(** The result [{ url, error }]: [url] is the [data] field. *)
Definition uploadReportImage (b : Backend) (file : File)
  : Flow (Outcome string Thrown) :=
  _ ← act (ActConsoleLog "uploadReportImage: Uploading file");
  _ ← call_createClient b;
  attempt
    (let path := filePath b file in
     uploadError ← await_upload b path file;
     match uploadError with
     | Some err =>
         _ ← act (ActConsoleError "uploadReportImage: Storage Error:" err);
         raise err
     | None =>
         _ ← act (ActGetPublicUrl "waste-reports" path);
         let publicUrl := storage_getPublicUrl b path in
         _ ← act (ActConsoleLog "uploadReportImage: Success, URL:");
         mret {| data := Some publicUrl; error := None |}
     end)
    (fun t =>
       _ ← act (ActConsoleError "uploadReportImage: Exception:" t);
       mret {| data := None; error := Some t |}).

(* ===================================================================== *)
(** ** src/db/reports.ts: getReportsByStreet *)
(* ===================================================================== *)

(** The values of [streetMap]; [count] and [openCount] hold natural
    numbers. *)
Module Place.

Record t : Type := {
  count : nat;
  totalLat : number;
  totalLng : number;
  city : string;
  openCount : nat
}.

End Place.

(** An element of the answer. *)
Module StreetCount.

Record t : Type := {
  street_name : string;
  city : string;
  count : nat;
  lat : number;
  lng : number
}.

End StreetCount.

Module ByStreet.

Definition hyphen : ascii := "-"%char.

(** [cond ? 1 : 0]. *)
Definition one_if (b : bool) : nat := if b then 1 else 0.

Definition is_open (report : PlaceRow.t) : bool :=
  bool_decide (PlaceRow.status report = StatusOpen).

(** The template literal [street_name-city]. *)
Definition key_of (report : PlaceRow.t) : string :=
  PlaceRow.street_name report ++ "-" ++ PlaceRow.city report.

(** The [else] branch of the [forEach] callback. *)
Definition first_place (report : PlaceRow.t) : Place.t :=
  {| Place.count := 1;
     Place.totalLat := PlaceRow.latitude report;
     Place.totalLng := PlaceRow.longitude report;
     Place.city := PlaceRow.city report;
     Place.openCount := one_if (is_open report) |}.

(** The [if (existing)] branch. *)
Definition add_place (report : PlaceRow.t) (existing : Place.t) : Place.t :=
  {| Place.count := Place.count existing + 1;
     Place.totalLat := (Place.totalLat existing + PlaceRow.latitude report)%float;
     Place.totalLng := (Place.totalLng existing + PlaceRow.longitude report)%float;
     Place.city := Place.city existing;
     Place.openCount := Place.openCount existing + one_if (is_open report) |}.

(** One step of the [forEach] on the [Map], kept in insertion order. *)
Fixpoint record_place (report : PlaceRow.t)
         (streetMap : list (string * Place.t)) : list (string * Place.t) :=
  match streetMap with
  | [] => [(key_of report, first_place report)]
  | (key, existing) :: rest =>
      if String.eqb key (key_of report)
      then (key, add_place report existing) :: rest
      else (key, existing) :: record_place report rest
  end.

Definition group_places (reports : list PlaceRow.t)
  : list (string * Place.t) :=
  fold_left (fun streetMap report => record_place report streetMap) reports [].

(** The double a count is: 1, incremented once per further report. *)
Definition number_of_count (n : nat) : number :=
  Nat.iter n (fun x => (x + 1)%float) 0%float.

(** [key.split('-')[0]]. *)
Definition street_of_key (key : string) : string :=
  to_string (hd [] (Js.split hyphen (of_string key))).

(** The callback of [Array.from(streetMap.entries()).map]. *)
Definition to_street_count (kv : string * Place.t) : StreetCount.t :=
  {| StreetCount.street_name := street_of_key (fst kv);
     StreetCount.city := Place.city (snd kv);
     StreetCount.count := Place.count (snd kv);
     StreetCount.lat :=
       (Place.totalLat (snd kv) / number_of_count (Place.count (snd kv)))%float;
     StreetCount.lng :=
       (Place.totalLng (snd kv) / number_of_count (Place.count (snd kv)))%float |}.

Definition street_counts (reports : list PlaceRow.t) : list StreetCount.t :=
  to_street_count <$> group_places reports.

Definition await_places (b : Backend)
  : Flow (option (list PlaceRow.t) * option Thrown) :=
  _ ← act (ActSelectReports "reports"
             "street_name, city, latitude, longitude, status" None);
  match reports_places b with
  | PlacesRejected t => raise t
  | PlacesAnswered rows e => mret (rows, e)
  end.

Definition getReportsByStreet (b : Backend)
  : Flow (Outcome (list StreetCount.t) Thrown) :=
  _ ← call_createClient b;
  attempt
    ('(reports, e) ← await_places b;
     match e with
     | Some err => raise err
     | None =>
         match reports with
         | None => mret {| data := None; error := None |}
         | Some rows =>
             mret {| data := Some (street_counts rows); error := None |}
         end
     end)
    (fun t =>
       _ ← act (ActConsoleError "Error fetching street reports:" t);
       mret {| data := None; error := Some t |}).

End ByStreet.

(* ===================================================================== *)
(** ** src/db/analytics.ts: getStreetStatistics *)
(* ===================================================================== *)

(** The values of [streetMap]. *)
Module Entry.

Record t : Type := {
  city : string;
  total : nat;
  open : nat;
  inProgress : nat;
  resolved : nat;
  falseReports : nat;
  lastDate : string
}.

End Entry.

Module Analytics.

Definition is_status (s : ReportStatus) (r : StatRow.t) : bool :=
  bool_decide (StatRow.status r = s).

(** [cond ? 1 : 0]. *)
Definition one_if (b : bool) : nat := if b then 1 else 0.

(** The [else] branch of the [forEach] callback: the entry of a street seen
    for the first time. *)
Definition first_entry (report : StatRow.t) : Entry.t :=
  {| Entry.city := StatRow.city report;
     Entry.total := 1;
     Entry.open := one_if (is_status StatusOpen report);
     Entry.inProgress := one_if (is_status StatusInProgress report);
     Entry.resolved := one_if (is_status StatusResolved report);
     Entry.falseReports := one_if (is_status StatusFalseReport report);
     Entry.lastDate := StatRow.created_at report |}.

(** The [if (existing)] branch: the entry updated in place. *)
Definition count_in (later : string -> string -> bool) (report : StatRow.t)
           (existing : Entry.t) : Entry.t :=
  {| Entry.city := Entry.city existing;
     Entry.total := Entry.total existing + 1;
     Entry.open :=
       Entry.open existing + one_if (is_status StatusOpen report);
     Entry.inProgress :=
       Entry.inProgress existing + one_if (is_status StatusInProgress report);
     Entry.resolved :=
       Entry.resolved existing + one_if (is_status StatusResolved report);
     Entry.falseReports :=
       Entry.falseReports existing + one_if (is_status StatusFalseReport report);
     Entry.lastDate :=
       if later (StatRow.created_at report) (Entry.lastDate existing)
       then StatRow.created_at report
       else Entry.lastDate existing |}.

(** One step of the [forEach] on the [Map], kept in insertion order: the
    entry of the report's street is updated where it stands, a new street
    goes to the end. *)
Fixpoint record_report (later : string -> string -> bool) (report : StatRow.t)
         (streetMap : list (string * Entry.t)) : list (string * Entry.t) :=
  match streetMap with
  | [] => [(StatRow.street_name report, first_entry report)]
  | (key, existing) :: rest =>
      if String.eqb key (StatRow.street_name report)
      then (key, count_in later report existing) :: rest
      else (key, existing) :: record_report later report rest
  end.

Definition group_by_street (later : string -> string -> bool)
           (reports : list StatRow.t) : list (string * Entry.t) :=
  fold_left (fun streetMap report => record_report later report streetMap)
            reports [].

(** The callback of [Array.from(streetMap.entries()).map]. *)
Definition to_statistics (kv : string * Entry.t) : StreetStatistics :=
  {| streetName := fst kv;
     stat_city := Entry.city (snd kv);
     totalReports := Entry.total (snd kv);
     openReports := Entry.open (snd kv);
     inProgressReports := Entry.inProgress (snd kv);
     resolvedReports := Entry.resolved (snd kv);
     falseReports := Entry.falseReports (snd kv);
     lastReportDate := Entry.lastDate (snd kv) |}.

Definition statistics (later : string -> string -> bool)
           (reports : list StatRow.t) : list StreetStatistics :=
  to_statistics <$> group_by_street later reports.

Definition await_select (b : Backend) (filter : option string)
  : Flow (option (list StatRow.t) * option Thrown) :=
  _ ← act (ActSelectReports "reports" "street_name, city, status, created_at"
                            filter);
  match reports_select b filter with
  | SelectRejected t => raise t
  | SelectAnswered rows e => mret (rows, e)
  end.

Definition getStreetStatistics (b : Backend) (streetName : option string)
  : Flow (Outcome (list StreetStatistics) Thrown) :=
  _ ← call_createClient b;
  attempt
    ('(reports, e) ← await_select b
                       (if truthy streetName then streetName else None);
     match e with
     | Some err => raise err
     | None =>
         match reports with
         | None => mret {| data := None; error := None |}
         | Some rows =>
             mret {| data := Some (statistics (Date_later b) rows);
                     error := None |}
         end
     end)
    (fun t =>
       _ ← act (ActConsoleError "Error fetching street statistics:" t);
       mret {| data := None; error := Some t |}).

End Analytics.

(* ===================================================================== *)
(** ** CitizenDashboard: the handlers *)
(* ===================================================================== *)

(** The coordinates [handleManualLocationSubmit] stores when none are
    known, and the fallback [handleSubmit] stores. *)
Definition manual_origin : LocationCoordinates :=
  {| latitude := 0%float; longitude := 0%float; accuracy := Some 1000%float |}.

Definition default_center : LocationCoordinates :=
  {| latitude := 0x1.2e32fec56d5dp+5%float;      (* 37.7749 *)
     longitude := (-0x1.e9ad77318fc5p+6)%float;  (* -122.4194 *)
     accuracy := Some 5000%float |}.

Definition is_manual (s : LocationSource) : bool :=
  match s with Manual => true | Auto => false end.

(** [!coordinates || (coordinates.latitude === 0 &&
    coordinates.longitude === 0 && locationSource === 'manual')]. *)
Definition wants_default (st : Dash.State) : bool :=
  match Dash.coordinates st with
  | None => true
  | Some c =>
      PrimFloat.eqb (latitude c) 0 && PrimFloat.eqb (longitude c) 0
      && is_manual (Dash.locationSource st)
  end.

Definition set (s : Dash.Setter) : Flow unit := act (ActSet s).

Definition handleManualLocationSubmit (st : Dash.State) : Flow unit :=
  let validation :=
    validateManualLocation (Dash.detectedStreet st) (Dash.detectedCity st) in
  if negb (valid validation) then
    set (Dash.setLocationError (validation_error validation))
  else
    _ ← set (Dash.setLocationSource Manual);
    _ ← set (Dash.setLocationState Success);
    _ ← set (Dash.setLocationError None);
    _ ← set (Dash.setManualLocationMode false);
    match Dash.coordinates st with
    | None => set (Dash.setCoordinates (Some manual_origin))
    | Some _ => mret tt
    end.

(** [error instanceof Error ? error.message : 'Failed to submit report']. *)
Definition submit_message (t : Thrown) : string :=
  match t with
  | ErrorObject message => message
  | OtherValue => "Failed to submit report"
  end.

(** The argument of [createReport] in [handleSubmit]: [c] is the
    [coordinates] of the render the handler belongs to. *)
Definition report_of (st : Dash.State) (c : LocationCoordinates)
           (imageUrl : string) : Insert.t :=
  {| Insert.image_url := imageUrl;
     Insert.latitude := latitude c;
     Insert.longitude := longitude c;
     Insert.street_name := Dash.detectedStreet st;
     Insert.city := Dash.detectedCity st;
     Insert.description :=
       js_or (Some (Dash.description st)) (Some "No description provided");
     Insert.status := None |}.

(** The body of the [try] block of [handleSubmit]. *)
Definition handleSubmit_try (b : Backend) (st : Dash.State) (file : File)
  : Flow unit :=
  up ← uploadReportImage b file;
  match error up, data up with
  | None, Some imageUrl =>
      if negb (truthy (Some imageUrl))
      then raise (ErrorObject "Failed to upload image")
      else
        match Dash.coordinates st with
        | None => raise (ErrorObject (null_read_message b))
        | Some c =>
            created ← createReport b (report_of st c imageUrl);
            match error created with
            | Some reportError => raise reportError
            | None =>
                _ ← set (Dash.setSubmitSuccess true);
                _ ← set (Dash.setDescription "");
                _ ← set (Dash.setUploadedImage None);
                _ ← set (Dash.setUploadedFile None);
                _ ← set (Dash.setLocationState Idle);
                _ ← set (Dash.setDetectedStreet "");
                _ ← set (Dash.setDetectedCity "");
                _ ← set (Dash.setCoordinates None);
                _ ← set (Dash.setLocationSource Auto);
                _ ← set (Dash.setManualLocationMode false);
                act (ActSetTimeout 5000 (Dash.setSubmitSuccess false))
            end
        end
  | _, _ => raise (ErrorObject "Failed to upload image")
  end.

Definition handleSubmit_catch (t : Thrown) : Flow unit :=
  _ ← act (ActConsoleError "Error submitting report:" t);
  set (Dash.setSubmitError (Some (submit_message t))).

Definition handleSubmit (b : Backend) (st : Dash.State) : Flow unit :=
  _ ← act ActPreventDefault;
  _ ← set (Dash.setSubmitError None);
  _ ← set (Dash.setSubmitSuccess false);
  match Dash.uploadedFile st with
  | None => set (Dash.setSubmitError (Some "Please upload an image"))
  | Some file =>
      if negb (bool_decide (Dash.locationState st = Success)) then
        set (Dash.setSubmitError
               (Some "Please detect or enter your location before submitting"))
      else if negb (truthy (Some (Dash.detectedStreet st)))
              || negb (truthy (Some (Dash.detectedCity st))) then
        set (Dash.setSubmitError (Some "Street name and city are required"))
      else
        _ ← (if wants_default st
             then set (Dash.setCoordinates (Some default_center))
             else mret tt);
        _ ← set (Dash.setSubmitting true);
        finally
          (attempt (handleSubmit_try b st file) handleSubmit_catch)
          (set (Dash.setSubmitting false))
  end.

(** [handleImageUpload]: [file] is [e.target.files?.[0]], [result] what the
    [FileReader] holds when it calls [onloadend]. *)
Definition handleImageUpload (file : option File) (result : option string)
  : Flow unit :=
  match file with
  | Some f =>
      _ ← set (Dash.setUploadedFile (Some f));
      _ ← act (ActReadAsDataURL f);
      set (Dash.setUploadedImage result)
  | None => mret tt
  end.

(** What the user, the mount effect and the timer can make the component
    do; each is handled to its end before the next. *)
Inductive UserAction : Type :=
| Mount
| ChooseImage (file : option File) (result : option string)
| RemoveImage
| EnterManually
| EditLocation
| TypeStreet (v : string)
| TypeCity (v : string)
| TypeDescription (v : string)
| ConfirmLocation
| TryAutoDetect
| ToggleNotifications
| CloseNotifications
| Submit
| SuccessTimeout.

Definition handle (w : World) (b : Backend) (a : UserAction) (st : Dash.State)
  : Flow unit :=
  match a with
  | Mount => located (requestLocation w)
  | ChooseImage file result => handleImageUpload file result
  | RemoveImage =>
      _ ← set (Dash.setUploadedImage None);
      _ ← set (Dash.setLocationState Idle);
      _ ← set (Dash.setDetectedStreet "");
      set (Dash.setDetectedCity "")
  | EnterManually => set (Dash.setManualLocationMode true)
  | EditLocation =>
      _ ← set (Dash.setManualLocationMode true);
      set (Dash.setLocationSource Manual)
  | TypeStreet v =>
      _ ← set (Dash.setDetectedStreet v);
      set (Dash.setLocationError None)
  | TypeCity v =>
      _ ← set (Dash.setDetectedCity v);
      set (Dash.setLocationError None)
  | TypeDescription v => set (Dash.setDescription v)
  | ConfirmLocation => handleManualLocationSubmit st
  | TryAutoDetect =>
      _ ← set (Dash.setManualLocationMode false);
      _ ← set (Dash.setLocationError None);
      located (requestLocation w)
  | ToggleNotifications =>
      set (Dash.setShowNotifications (negb (Dash.showNotifications st)))
  | CloseNotifications => set (Dash.setShowNotifications false)
  | Submit => handleSubmit b st
  | SuccessTimeout => set (Dash.setSubmitSuccess false)
  end.

(** Whether the control behind an action is on the page, by the conditions
    of the JSX: the file input shows without a preview and the remove
    button with one; the location block needs a preview, and in it the
    error box (with "Enter Location Manually") needs an error outside the
    manual mode, the detected location (with "Edit") the state ['success']
    outside the manual mode, and the manual form the manual mode; the
    submit button is disabled while submitting, without a preview, or
    without a settled location.  The mount effect is no control. *)
Definition rendered (w : World) (a : UserAction) (st : Dash.State) : bool :=
  let preview := truthy (Dash.uploadedImage st) in
  match a with
  | Mount => false
  | ChooseImage _ _ => negb preview
  | RemoveImage => preview
  | EnterManually =>
      preview && truthy (Dash.locationError st)
      && negb (Dash.manualLocationMode st)
  | EditLocation =>
      preview && bool_decide (Dash.locationState st = Success)
      && negb (Dash.manualLocationMode st)
  | TypeStreet _ | TypeCity _ | ConfirmLocation =>
      preview && Dash.manualLocationMode st
  | TryAutoDetect =>
      preview && Dash.manualLocationMode st && isGeolocationSupported w
  | TypeDescription _ => true
  | ToggleNotifications => true
  | CloseNotifications => Dash.showNotifications st
  | Submit =>
      negb (Dash.submitting st || negb preview
            || negb (bool_decide (Dash.locationState st = Success)))
  | SuccessTimeout => true
  end.

(** The setter call an act is, if it is one. *)
Definition setter_of_event (e : Event) : option Dash.Setter :=
  match e with
  | EvSetLocationState s => Some (Dash.setLocationState s)
  | EvSetLocationError v => Some (Dash.setLocationError v)
  | EvSetManualLocationMode v => Some (Dash.setManualLocationMode v)
  | EvSetCoordinates v => Some (Dash.setCoordinates v)
  | EvSetDetectedStreet v => Some (Dash.setDetectedStreet v)
  | EvSetDetectedCity v => Some (Dash.setDetectedCity v)
  | EvSetLocationSource v => Some (Dash.setLocationSource v)
  | EvSetStreetStats v => Some (Dash.setStreetStats v)
  | _ => None
  end.

Definition setter_of_act (a : Act) : option Dash.Setter :=
  match a with
  | ActSet s => Some s
  | ActLocation e => setter_of_event e
  | _ => None
  end.

Definition replay_act (st : Dash.State) (a : Act) : Dash.State :=
  match setter_of_act a with
  | Some s => Dash.apply st s
  | None => st
  end.

(** The state once a handler has run. *)
Definition after (st : Dash.State) (m : Flow unit) : Dash.State :=
  fold_left replay_act (acts m) st.

Definition step (w : World) (b : Backend) (a : UserAction) (st : Dash.State)
  : Dash.State :=
  after st (handle w b a st).

(** Every action of the list is on the page when its turn comes. *)
Fixpoint all_rendered (w : World) (b : Backend) (l : list UserAction)
         (st : Dash.State) : bool :=
  match l with
  | [] => true
  | a :: rest => rendered w a st && all_rendered w b rest (step w b a st)
  end.

(** The states the component can be in. *)
Inductive reachable : Dash.State -> Prop :=
| reachable_initial : reachable Dash.initial
| reachable_step (w : World) (b : Backend) (a : UserAction) (st : Dash.State) :
    reachable st -> reachable (step w b a st).

(** The statistics query of [requestLocation], answered by the backend:
    [const { data: stats } = await getStreetStatistics(street)]. *)
Definition stats_from (b : Backend) (street : string) : StatsOutcome :=
  match Analytics.getStreetStatistics b (Some street) with
  | (_, inl t) => StatsThrown t
  | (_, inr o) => StatsReturned (data o)
  end.

Definition world_with_backend (w : World) (b : Backend) : World :=
  {| geolocation := geolocation w;
     fetch := fetch w;
     getStreetStatistics := stats_from b |}.

(** The geocoding requests among the events. *)
Definition is_fetch (e : Event) : bool :=
  match e with EvFetch _ => true | _ => false end.

(** The backend calls among the acts. *)
Definition is_backend_call (a : Act) : bool :=
  match a with
  | ActStorageUpload _ _ _ _ _ | ActGetPublicUrl _ _ | ActInsertReport _ _
  | ActSelectReports _ _ _ => true
  | _ => false
  end.

Definition inserted (l : list Act) : list Insert.t :=
  omap (fun a => match a with ActInsertReport _ row => Some row | _ => None end) l.

Definition uploaded (l : list Act) : list string :=
  omap (fun a => match a with
                 | ActStorageUpload _ path _ _ _ => Some path
                 | _ => None
                 end) l.

Definition setters (l : list Act) : list Dash.Setter := omap setter_of_act l.

(** Several actions in a row. *)
Definition session (w : World) (b : Backend) (l : list UserAction)
           (st : Dash.State) : Dash.State :=
  fold_left (fun st a => step w b a st) l st.

(** [handleSubmit] gets past its three guards. *)
Definition ready (st : Dash.State) (file : File) : Prop :=
  Dash.uploadedFile st = Some file
  /\ Dash.locationState st = Success
  /\ truthy (Some (Dash.detectedStreet st)) = true
  /\ truthy (Some (Dash.detectedCity st)) = true.

(** No control is left that could settle the location. *)
Definition dead_end (st : Dash.State) : Prop :=
  Dash.locationState st <> Success
  /\ truthy (Dash.locationError st) = false
  /\ Dash.manualLocationMode st = false.

(** What holds of the component between two actions. *)
Definition settled (st : Dash.State) : Prop :=
  Dash.submitting st = false
  /\ Dash.locationState st <> RequestingPermission
  /\ Dash.locationState st <> Geocoding
  /\ (Dash.locationState st = Success -> is_Some (Dash.coordinates st)).

(** The storage took the file and handed out a usable URL. *)
Definition upload_succeeds (b : Backend) (file : File) : Prop :=
  createClient b = None
  /\ storage_upload b (filePath b file) file = UploadAnswered None
  /\ truthy (Some (storage_getPublicUrl b (filePath b file))) = true.

(* ===================================================================== *)
(** ** Vocabulary of the statistics proofs *)
(* ===================================================================== *)

Definition on_street (k : string) (r : StatRow.t) : bool :=
  String.eqb (StatRow.street_name r) k.

(** The reports of one street, in the order of the query's answer. *)
Definition rows_of (k : string) (rows : list StatRow.t) : list StatRow.t :=
  List.filter (on_street k) rows.

Definition with_status (s : ReportStatus) (rows : list StatRow.t) : nat :=
  length (List.filter (Analytics.is_status s) rows).

(** The entry of a street, from its reports alone. *)
Definition summary (later : string -> string -> bool) (l : list StatRow.t)
  : option Entry.t :=
  match l with
  | [] => None
  | r0 :: rest =>
      Some (fold_left (fun e r => Analytics.count_in later r e) rest
                      (Analytics.first_entry r0))
  end.

Definition has_key (k : string) (m : list (string * Entry.t)) : bool :=
  existsb (String.eqb k) (fst <$> m).

(** The same for [getReportsByStreet], whose key is the joined text. *)
Definition on_key (k : string) (r : PlaceRow.t) : bool :=
  String.eqb (ByStreet.key_of r) k.

Definition keyed (k : string) (rows : list PlaceRow.t) : list PlaceRow.t :=
  List.filter (on_key k) rows.

Definition place_summary (l : list PlaceRow.t) : option Place.t :=
  match l with
  | [] => None
  | r0 :: rest =>
      Some (fold_left (fun p r => ByStreet.add_place r p) rest
                      (ByStreet.first_place r0))
  end.

Definition has_place (k : string) (m : list (string * Place.t)) : bool :=
  existsb (String.eqb k) (fst <$> m).

(** A query answer for tests: three streets, one of them in two cities. *)
Definition stat_row (street cty : string) (s : ReportStatus) (at_ : string)
  : StatRow.t :=
  {| StatRow.street_name := street; StatRow.city := cty;
     StatRow.status := s; StatRow.created_at := at_ |}.

Definition sample_rows : list StatRow.t :=
  [stat_row "Oak Avenue" "Pune" StatusOpen "2024-03-02";
   stat_row "MG Road" "Bengaluru" StatusResolved "2024-03-05";
   stat_row "Oak Avenue" "Mumbai" StatusOpen "2024-01-09";
   stat_row "Canal Walk" "Pune" StatusFalseReport "2024-02-11";
   stat_row "Oak Avenue" "Pune" StatusInProgress "2024-04-21"].

(** Dates of equal length in ISO form compare as their text does: the
    timestamp used for the sample rows is the number the code units of the
    text spell in base 256. *)
Definition sample_timestamp (s : string) : Z :=
  Z.of_N (fold_left (fun n c => (n * 256 + N_of_ascii c)%N) (of_string s) 0%N).

Definition sample_later (a b : string) : bool :=
  (sample_timestamp b <? sample_timestamp a)%Z.

(* ===================================================================== *)
(** ** Sample backends and dashboard states *)
(* ===================================================================== *)

Definition stored (r : Insert.t) : Report.t :=
  {| Report.id := "0b9f5c1e-7c0a-4a39-9f0e-2d1c6a5e8b11";
     Report.image_url := Insert.image_url r;
     Report.latitude := Insert.latitude r;
     Report.longitude := Insert.longitude r;
     Report.street_name := Insert.street_name r;
     Report.city := Insert.city r;
     Report.description := Insert.description r;
     Report.status := default StatusOpen (Insert.status r);
     Report.created_at := "2024-04-21T10:00:00Z";
     Report.updated_at := "2024-04-21T10:00:00Z";
     Report.resolved_at := None |}.

Definition place_row (street cty : string) (la lo : number)
           (s : ReportStatus) : PlaceRow.t :=
  {| PlaceRow.street_name := street; PlaceRow.city := cty;
     PlaceRow.latitude := la; PlaceRow.longitude := lo;
     PlaceRow.status := s |}.

(** A table for tests: a street with a hyphen in its name. *)
Definition sample_places : list PlaceRow.t :=
  [place_row "Twenty-Third Street" "Pune" 18.5%float 73.75%float StatusOpen;
   place_row "Oak Avenue" "Pune" 18.25%float 73.5%float StatusResolved;
   place_row "Twenty-Third Street" "Pune" 18.75%float 73.25%float StatusOpen].

Definition backend_of (up : UploadOutcome) (ins : Insert.t -> InsertOutcome)
           (sel : option string -> SelectOutcome) : Backend :=
  {| createClient := None;
     Date_now := 1713693600000;
     Math_random_base36 := "0.4fzyo82mvyr";
     storage_upload := fun _ _ => up;
     storage_getPublicUrl := fun path =>
       ("https://example.supabase.co/storage/v1/object/public/waste-reports/"
        ++ path)%string;
     reports_insert := ins;
     reports_select := sel;
     reports_places := PlacesAnswered (Some sample_places) None;
     Date_later := sample_later;
     null_read_message := "Cannot read properties of null (reading 'latitude')" |}.

(** A table that honours the [eq] filter of the query. *)
Definition select_from (rows : list StatRow.t) (filter : option string)
  : SelectOutcome :=
  SelectAnswered
    (Some match filter with
          | Some street => rows_of street rows
          | None => rows
          end)
    None.

Definition backend_ok : Backend :=
  backend_of (UploadAnswered None)
             (fun r => InsertAnswered (Some (stored r)) None)
             (select_from sample_rows).

Definition backend_storage_down : Backend :=
  backend_of (UploadAnswered (Some (ErrorObject "Bucket not found")))
             (fun r => InsertAnswered (Some (stored r)) None)
             (select_from sample_rows).

Definition backend_insert_down : Backend :=
  backend_of (UploadAnswered None)
             (fun _ => InsertAnswered None
                         (Some (ErrorObject "permission denied for table reports")))
             (fun _ => SelectRejected (ErrorObject "Failed to fetch")).

Definition photo : File := {| file_name := "bin.overflow.jpg" |}.

(** The location was refused, the user picked a photo, typed a street and a
    city and confirmed them. *)
Definition manual_entry : list UserAction :=
  [Mount;
   ChooseImage (Some photo) (Some "data:image/jpeg;base64,/9j/4AAQ");
   TypeStreet "Oak Avenue";
   TypeCity "Pune";
   ConfirmLocation].

Definition state_manual_ready : Dash.State :=
  session world_denied backend_ok manual_entry Dash.initial.

(** The location was detected, the user picked a photo. *)
Definition state_detected : Dash.State :=
  session (world_found address_mg_road) backend_ok
          [Mount; ChooseImage (Some photo) (Some "data:image/jpeg;base64,/9j/4AAQ")]
          Dash.initial.
(* ===================================================================== *)
(** * Properties *)
(* ===================================================================== *)

(** ** Basic facts about strings and computations *)

Lemma to_string_empty (l : chars) :
  String.eqb (to_string l) "" = match l with [] => true | _ :: _ => false end.
Proof. destruct l; reflexivity. Qed.

Lemma truthy_to_string (l : chars) :
  truthy (Some (to_string l)) = (0 <? length l).
Proof. unfold truthy. rewrite to_string_empty. destruct l; reflexivity. Qed.

Lemma of_to_string (l : chars) : of_string (to_string l) = l.
Proof. apply list_ascii_of_string_of_list_ascii. Qed.

Lemma to_of_string (s : string) : to_string (of_string s) = s.
Proof. apply string_of_list_ascii_of_string. Qed.

Lemma truthy_Some (s : string) : truthy (Some s) = negb (String.eqb s "").
Proof. reflexivity. Qed.

Lemma truthy_nonempty (v : option string) :
  truthy v = true <-> exists s, v = Some s /\ s <> "".
Proof.
  destruct v as [s|]; simpl.
  - destruct (String.eqb_spec s ""); simpl; split.
    + discriminate.
    + intros (s' & [= <-] & Hne). contradiction.
    + intros _. eauto.
    + reflexivity.
  - split; [discriminate | intros (s & [=] & _)].
Qed.

(** ** validateManualLocation *)

(** C5. [validateManualLocation] accepts exactly the pairs whose trimmed
    street has at least 3 code units and whose trimmed city has at least 2;
    the street rule is checked first and only the first violated rule's
    message is returned; the three boundary examples of the specification
    evaluate as stated. *)
Theorem validateManualLocation_spec (streetName cityName : string) :
  let ls := length (Js.trim (of_string streetName)) in
  let lc := length (Js.trim (of_string cityName)) in
  (valid (validateManualLocation streetName cityName) = true
     <-> 3 <= ls /\ 2 <= lc)
  /\ validateManualLocation streetName cityName =
       (if ls <? 3 then
          {| valid := false; validation_error := Some street_message |}
        else if lc <? 2 then
          {| valid := false; validation_error := Some city_message |}
        else {| valid := true; validation_error := None |})
  /\ valid (validateManualLocation "ab" "City") = false
  /\ valid (validateManualLocation "Oak Avenue" "S") = false
  /\ valid (validateManualLocation "Oak Avenue" "SF") = true.
Proof.
  intros ls lc.
  assert (Heq : validateManualLocation streetName cityName =
       (if ls <? 3 then
          {| valid := false; validation_error := Some street_message |}
        else if lc <? 2 then
          {| valid := false; validation_error := Some city_message |}
        else {| valid := true; validation_error := None |})).
  { unfold validateManualLocation. rewrite !truthy_to_string.
    fold ls lc.
    destruct (Nat.ltb_spec ls 3) as [Hs|Hs].
    - rewrite orb_true_r. reflexivity.
    - destruct (Nat.ltb_spec 0 ls); [simpl | lia].
      destruct (Nat.ltb_spec lc 2) as [Hc|Hc].
      + rewrite orb_true_r. reflexivity.
      + destruct (Nat.ltb_spec 0 lc); [reflexivity | lia]. }
  split; [| split; [exact Heq | repeat split; reflexivity]].
  rewrite Heq.
  destruct (Nat.ltb_spec ls 3), (Nat.ltb_spec lc 2); simpl; split;
    try discriminate; try lia; auto.
Qed.

(** ** Computations *)

Ltac comp_unfold :=
  unfold returned, result, trace, mbind, mret, Comp_bind, Comp_ret, emit,
    throw, try_catch in *.

Lemma truthy_state_message (s : LocationState) :
  truthy (Some (getErrorMessage s)) = true.
Proof. destruct s; reflexivity. Qed.

(** ** getCurrentLocation *)

Lemma error_state_of_code_cases (code : nat) :
  (code = PERMISSION_DENIED -> error_state_of_code code = PermissionDenied)
  /\ (code = TIMEOUT -> error_state_of_code code = Timeout)
  /\ (code = POSITION_UNAVAILABLE -> error_state_of_code code = Error)
  /\ (code <> PERMISSION_DENIED -> code <> TIMEOUT ->
      error_state_of_code code = Error).
Proof.
  unfold error_state_of_code, PERMISSION_DENIED, TIMEOUT, POSITION_UNAVAILABLE.
  repeat split; intros; subst; try reflexivity.
  destruct (Nat.eqb_spec code 1); [contradiction |].
  destruct (Nat.eqb_spec code 3); [contradiction |].
  destruct (code =? 2); reflexivity.
Qed.

(** C6. Without the geolocation capability [getCurrentLocation] resolves to
    the error ['unsupported'] and issues no call at all; with it, a platform
    error is mapped by its code: permission denied to ['permission-denied'],
    timeout to ['timeout'], position unavailable and every other code to the
    generic ['error']. *)
Theorem getCurrentLocation_errors (w : World) :
  (geolocation w = None ->
     getCurrentLocation w =
       ([], inr {| data := None; error := Some Unsupported |}))
  /\ (forall getCurrentPosition code,
        geolocation w = Some getCurrentPosition ->
        getCurrentPosition position_options = PositionError code ->
        trace (getCurrentLocation w) = [EvGetCurrentPosition position_options]
        /\ exists st,
            returned (getCurrentLocation w)
              = Some {| data := None; error := Some st |}
            /\ (code = PERMISSION_DENIED -> st = PermissionDenied)
            /\ (code = TIMEOUT -> st = Timeout)
            /\ (code = POSITION_UNAVAILABLE -> st = Error)
            /\ (code <> PERMISSION_DENIED -> code <> TIMEOUT -> st = Error)).
Proof.
  split.
  - intros H. unfold getCurrentLocation, isGeolocationSupported.
    rewrite H. reflexivity.
  - intros gcp code Hg Hc. unfold getCurrentLocation, isGeolocationSupported.
    rewrite Hg.
    comp_unfold. simpl. rewrite Hc. simpl. split; [reflexivity |].
    exists (error_state_of_code code). split; [reflexivity |].
    apply error_state_of_code_cases.
Qed.

Lemma getCurrentLocation_errors_witness :
  getCurrentLocation world_unsupported
    = ([], inr {| data := None; error := Some Unsupported |})
  /\ returned (getCurrentLocation world_denied)
       = Some {| data := None; error := Some PermissionDenied |}
  /\ returned (getCurrentLocation world_timed_out)
       = Some {| data := None; error := Some Timeout |}
  /\ returned (getCurrentLocation world_unavailable)
       = Some {| data := None; error := Some Error |}.
Proof.
  split.
  - apply (proj1 (getCurrentLocation_errors world_unsupported)). reflexivity.
  - repeat split; reflexivity.
Defined.

(** ** reverseGeocode and detectLocation never throw *)

Lemma getCurrentLocation_cases (w : World) :
  exists tr o,
    getCurrentLocation w = (tr, inr o)
    /\ ((exists c, data o = Some c /\ error o = None)
        \/ (data o = None
            /\ exists st, error o = Some st
                 /\ In st [Unsupported; PermissionDenied; Timeout; Error])).
Proof.
  unfold getCurrentLocation, isGeolocationSupported.
  destruct (geolocation w) as [gcp|].
  - comp_unfold. simpl. destruct (gcp position_options) as [la lo acc|code].
    + eexists _, _. split; [reflexivity |]. left. simpl. eauto.
    + eexists _, _. split; [reflexivity |]. right. simpl. split; [reflexivity |].
      eexists. split; [reflexivity |].
      unfold error_state_of_code.
      repeat destruct (_ =? _); simpl; auto.
  - eexists _, _. split; [reflexivity |]. right. simpl. split; [reflexivity |].
    eexists. split; [reflexivity | simpl; auto].
Qed.

Lemma reverseGeocode_cases (w : World) (c : LocationCoordinates) :
  exists tr o,
    reverseGeocode w c = (tr, inr o)
    /\ ((exists a, data o = Some a /\ error o = None)
        \/ (data o = None /\ is_Some (error o))).
Proof.
  unfold reverseGeocode, reverseGeocode_try, await_fetch, await_json,
    reverseGeocode_catch.
  comp_unfold. simpl.
  destruct (fetch w (nominatim_request c)) as [t|ok body]; simpl.
  { eexists _, _. split; [reflexivity |]. right. simpl. eauto. }
  destruct ok; simpl.
  2:{ eexists _, _. split; [reflexivity |]. right. simpl. eauto. }
  destruct body as [t|d]; simpl.
  { eexists _, _. split; [reflexivity |]. right. simpl. eauto. }
  destruct (json_address d) as [a|]; simpl.
  2:{ eexists _, _. split; [reflexivity |]. right. simpl. eauto. }
  destruct (negb (negb _)); simpl.
  - eexists _, _. split; [reflexivity |]. right. simpl. eauto.
  - eexists _, _. split; [reflexivity |]. left. simpl. eauto.
Qed.

Lemma detectLocation_cases (w : World) :
  exists tr r,
    detectLocation w = (tr, inr r)
    /\ ((exists d, detect_data r = Some d /\ detect_error r = None
                   /\ detect_state r = Success)
        \/ (detect_data r = None /\ is_Some (detect_error r)
            /\ truthy (detect_error r) = true
            /\ In (detect_state r)
                 [Unsupported; PermissionDenied; Timeout; Error;
                  GeocodingFailed])).
Proof.
  unfold detectLocation.
  destruct (getCurrentLocation_cases w) as (tr & o & -> & Ho).
  comp_unfold. simpl.
  destruct Ho as [(c & Hd & He) | (Hd & st & He & Hst)]; rewrite Hd, He; simpl.
  - destruct (reverseGeocode_cases w c) as (tr' & g & -> & Hg). simpl.
    destruct Hg as [(a & Ha & Hea) | (Ha & Hea)]; rewrite Ha.
    + rewrite Hea. simpl. eexists _, _. split; [reflexivity |]. left. simpl. eauto.
    + assert (Hfail : exists m, m <> "" /\
                js_or (error g) (Some "Failed to determine address") = Some m).
      { unfold js_or. destruct (truthy (error g)) eqn:Ht.
        - apply truthy_nonempty in Ht as (m & -> & Hm). eauto.
        - eexists. split; [| reflexivity]. discriminate. }
      destruct Hfail as (m & Hm & Hjs).
      eexists _, _.
      split; [destruct (truthy (error g)); reflexivity |].
      right. simpl. rewrite Hjs.
      split; [reflexivity |]. split; [eauto |].
      split; [apply truthy_nonempty; eauto |]. tauto.
  - eexists _, _. split; [reflexivity |]. right. simpl.
    split; [reflexivity |]. split; [eauto |].
    split; [apply truthy_state_message |].
    simpl in Hst. tauto.
Qed.

(** C7. [reverseGeocode] answers a non-2xx response with the message
    "Geocoding service unavailable" and a body without an address object with
    "No address found for this location"; a rejected [fetch] or [json()] is
    caught and becomes an error result; [reverseGeocode], [detectLocation]
    and [requestLocation] return for every world (nothing is thrown out of
    them), and [detectLocation] maps every failed [reverseGeocode] to the
    state ['geocoding-failed']. *)
Theorem reverseGeocode_failures (w : World) (c : LocationCoordinates) :
  (forall body,
      fetch w (nominatim_request c) = FetchResponse false body ->
      returned (reverseGeocode w c)
        = Some {| data := None; error := Some "Geocoding service unavailable" |})
  /\ (forall d,
        fetch w (nominatim_request c) = FetchResponse true (JsonValue d) ->
        json_address d = None ->
        returned (reverseGeocode w c)
          = Some {| data := None;
                    error := Some "No address found for this location" |})
  /\ (forall t,
        fetch w (nominatim_request c) = FetchRejected t
        \/ fetch w (nominatim_request c) = FetchResponse true (JsonRejected t) ->
        returned (reverseGeocode w c)
          = Some {| data := None; error := Some (caught_message t) |})
  /\ (exists o, result (reverseGeocode w c) = inr o)
  /\ (exists r, result (detectLocation w) = inr r)
  /\ result (requestLocation w) = inr tt
  /\ (forall tr o r,
        getCurrentLocation w
          = (tr, inr {| data := Some c; error := None |}) ->
        returned (reverseGeocode w c) = Some o ->
        data o = None ->
        returned (detectLocation w) = Some r ->
        detect_state r = GeocodingFailed /\ detect_data r = None).
Proof.
  split; [| split; [| split; [| split; [| split; [| split]]]]].
  - intros body H.
    unfold reverseGeocode, reverseGeocode_try, await_fetch. comp_unfold. simpl.
    rewrite H. reflexivity.
  - intros d H Hd.
    unfold reverseGeocode, reverseGeocode_try, await_fetch, await_json.
    comp_unfold. simpl. rewrite H. simpl. rewrite Hd. reflexivity.
  - intros t [H|H];
      unfold reverseGeocode, reverseGeocode_try, await_fetch, await_json;
      comp_unfold; simpl; rewrite H; reflexivity.
  - destruct (reverseGeocode_cases w c) as (tr & o & -> & _). eauto.
  - destruct (detectLocation_cases w) as (tr & r & -> & _). eauto.
  - unfold requestLocation, requestLocation_try, requestLocation_catch,
      await_getStreetStatistics.
    destruct (detectLocation_cases w) as (tr & r & -> & Hr).
    comp_unfold. simpl.
    destruct Hr as [(d & -> & -> & _) | (-> & _ & -> & _)]; simpl.
    + destruct (getStreetStatistics w _) as [t|[[|s l]|]]; reflexivity.
    + reflexivity.
  - intros tr o r Hg Ho Hd Hr. revert Hr.
    unfold detectLocation. rewrite Hg. comp_unfold. simpl.
    destruct (reverseGeocode w c) as [tr' [t|g]]; simpl in *; [discriminate |].
    injection Ho as ->. rewrite Hd.
    destruct (truthy (error o)); intros [= <-]; split; reflexivity.
Qed.

Lemma reverseGeocode_failures_witness :
  returned (reverseGeocode world_http_down here_coords)
    = Some {| data := None; error := Some "Geocoding service unavailable" |}
  /\ returned (reverseGeocode world_no_address here_coords)
       = Some {| data := None;
                 error := Some "No address found for this location" |}
  /\ returned (reverseGeocode world_offline here_coords)
       = Some {| data := None; error := Some "Failed to fetch" |}
  /\ (detect_state <$> returned (detectLocation world_offline))
       = Some GeocodingFailed.
Proof.
  pose proof (reverseGeocode_failures world_http_down here_coords) as (H1 & _).
  pose proof (reverseGeocode_failures world_no_address here_coords) as (_ & H2 & _).
  pose proof (reverseGeocode_failures world_offline here_coords)
    as (_ & _ & H3 & _ & _ & _ & H4).
  split; [| split; [| split]].
  - eapply H1. reflexivity.
  - eapply H2; reflexivity.
  - apply (H3 (ErrorObject "Failed to fetch")). left. reflexivity.
  - destruct (H4 [EvGetCurrentPosition position_options]
                {| data := None; error := Some "Failed to fetch" |}
                {| detect_data := None; detect_error := Some "Failed to fetch";
                   detect_state := GeocodingFailed |})
      as [Hs _]; reflexivity.
Defined.

(** C10. Each of [getCurrentLocation], [reverseGeocode] and
    [detectLocation] returns, and in what it returns exactly one of the data
    and the error field is non-null; [detectLocation]'s state is ['success']
    exactly when its data field is non-null. *)
Theorem exactly_one_of_data_and_error (w : World) (c : LocationCoordinates) :
  (exists o, returned (getCurrentLocation w) = Some o
             /\ exactly_one (data o) (error o))
  /\ (exists o, returned (reverseGeocode w c) = Some o
                /\ exactly_one (data o) (error o))
  /\ (exists r, returned (detectLocation w) = Some r
                /\ exactly_one (detect_data r) (detect_error r)
                /\ (detect_state r = Success <-> is_Some (detect_data r))).
Proof.
  split; [| split].
  - destruct (getCurrentLocation_cases w) as (tr & o & -> & Ho).
    exists o. split; [reflexivity |].
    destruct Ho as [(x & -> & ->) | (-> & st & -> & _)]; [left | right]; eauto.
  - destruct (reverseGeocode_cases w c) as (tr & o & -> & Ho).
    exists o. split; [reflexivity |].
    destruct Ho as [(x & -> & ->) | (-> & He)]; [left | right]; eauto.
  - destruct (detectLocation_cases w) as (tr & r & -> & Hr).
    exists r. split; [reflexivity |].
    destruct Hr as [(d & -> & -> & ->) | (-> & He & _ & Hs)].
    + split; [left; eauto |]. split; eauto.
    + split; [right; eauto |]. split; [| intros [x [=]]].
      intros E. rewrite E in Hs. simpl in Hs. intuition discriminate.
Qed.

(** ** The states requestLocation visits *)

Lemma states_set_app (a b : list Event) :
  states_set (a ++ b) = states_set a ++ states_set b.
Proof. unfold states_set. apply omap_app. Qed.

Lemma getCurrentLocation_silent (w : World) :
  states_set (trace (getCurrentLocation w)) = [].
Proof.
  unfold getCurrentLocation, isGeolocationSupported.
  destruct (geolocation w) as [gcp|]; [| reflexivity].
  comp_unfold. simpl. destruct (gcp position_options); reflexivity.
Qed.

Lemma reverseGeocode_silent (w : World) (c : LocationCoordinates) :
  states_set (trace (reverseGeocode w c)) = [].
Proof.
  unfold reverseGeocode, reverseGeocode_try, await_fetch, await_json,
    reverseGeocode_catch.
  comp_unfold. simpl.
  destruct (fetch w (nominatim_request c)) as [t|[|] [t|d]]; simpl;
    try reflexivity.
  destruct (json_address d) as [a|]; simpl; [| reflexivity].
  destruct (negb (negb _)); reflexivity.
Qed.

Lemma detectLocation_silent (w : World) :
  states_set (trace (detectLocation w)) = [].
Proof.
  unfold detectLocation.
  pose proof (getCurrentLocation_silent w) as Hg.
  destruct (getCurrentLocation_cases w) as (tr & o & Heq & Ho).
  rewrite Heq in *. comp_unfold. simpl in *.
  destruct Ho as [(c & Hd & He) | (Hd & st & He & Hst)]; rewrite Hd, He; simpl.
  - pose proof (reverseGeocode_silent w c) as Hr.
    destruct (reverseGeocode_cases w c) as (tr' & g & Heq' & _).
    rewrite Heq' in *. simpl in *.
    destruct (truthy (error g)), (data g); simpl;
      rewrite !states_set_app, Hg, Hr; reflexivity.
  - rewrite states_set_app, Hg. reflexivity.
Qed.

(** Every run sets ['detecting'], then the state [detectLocation] returned;
    the only state that can follow is ['error'], when the statistics query
    after a success throws. *)
Lemma visited_shape (w : World) :
  exists r, returned (detectLocation w) = Some r
    /\ (visited w = [Idle; Detecting; detect_state r]
        \/ (detect_state r = Success
            /\ visited w = [Idle; Detecting; Success; Error])).
Proof.
  unfold visited, requestLocation, requestLocation_try, requestLocation_catch,
    await_getStreetStatistics.
  pose proof (detectLocation_silent w) as Hs.
  destruct (detectLocation_cases w) as (tr & r & Heq & Hr).
  rewrite Heq in *. exists r. split; [reflexivity |].
  comp_unfold. simpl in *.
  destruct Hr as [(d & -> & -> & ->) | (-> & _ & -> & _)]; simpl.
  - destruct (getStreetStatistics w _) as [t|[[|s l]|]]; simpl;
      rewrite !states_set_app, Hs; simpl; auto.
  - rewrite states_set_app, Hs. simpl. auto.
Qed.

(** X1. Every run of [requestLocation] visits idle, detecting and then the
    state [detectLocation] returned; only ['error'] can follow, after a
    success. *)
Theorem requestLocation_state_sequence (w : World) :
  exists r, returned (detectLocation w) = Some r
    /\ (visited w = [Idle; Detecting; detect_state r]
        \/ (detect_state r = Success
            /\ visited w = [Idle; Detecting; Success; Error])).
Proof. exact (visited_shape w). Qed.

(** C8 (evaluation). On a run where the position is found and the geocoder
    answers with a road and a city, [requestLocation] sets ['detecting'] and
    then ['success']; ['geocoding'] is not visited, on this run or on any
    other.  A permission denial visits idle, detecting, permission-denied. *)
Theorem requestLocation_skips_geocoding :
  (detect_state <$> returned (detectLocation (world_found address_mg_road)))
    = Some Success
  /\ visited (world_found address_mg_road) = [Idle; Detecting; Success]
  /\ visited world_denied = [Idle; Detecting; PermissionDenied]
  /\ (forall w, In Geocoding (visited w) -> False).
Proof.
  repeat split; try reflexivity.
  intros w Hin.
  destruct (visited_shape w) as (r & Hret & [Hv | [Hst Hv]]); rewrite Hv in Hin.
  - destruct (detectLocation_cases w) as (tr & r' & Heq & Hr).
    rewrite Heq in Hret. injection Hret as ->.
    simpl in Hin. destruct Hin as [|[|[Hg|[]]]]; try discriminate.
    destruct Hr as [(d & _ & _ & Hs) | (_ & _ & _ & Hs)]; rewrite Hg in Hs.
    + discriminate.
    + simpl in Hs. intuition discriminate.
  - simpl in Hin. destruct Hin as [|[|[|[|[]]]]]; discriminate.
Qed.

(** X2. When the platform reports a permission denial, [requestLocation]
    visits exactly idle, detecting, permission-denied. *)
Theorem visited_permission_denied (w : World)
      (getCurrentPosition : PositionOptions -> PositionOutcome) :
  geolocation w = Some getCurrentPosition ->
  getCurrentPosition position_options = PositionError PERMISSION_DENIED ->
  visited w = [Idle; Detecting; PermissionDenied].
Proof.
  intros Hg Hp.
  unfold visited, requestLocation, requestLocation_try, detectLocation,
    getCurrentLocation, isGeolocationSupported.
  rewrite Hg. comp_unfold. simpl. rewrite Hp. reflexivity.
Qed.

Lemma visited_permission_denied_witness :
  visited world_denied = [Idle; Detecting; PermissionDenied].
Proof.
  apply (visited_permission_denied world_denied
           (fun _ => PositionError PERMISSION_DENIED)); reflexivity.
Defined.

(** ** Normalisation examples *)

(** C3 (evaluation). What the normaliser returns on the two examples of the
    specification: the all-upper-case three-letter token "OAK" is kept as it
    is, and the house number is kept. *)
Theorem normalizeStreetName_examples :
  normalizeStreetName "OAK   AVE" = "OAK Avenue"
  /\ normalizeStreetName "123 main st." = "123 Main Street"
  /\ normalizeStreetName "MG Road" = "MG Road".
Proof. repeat split; vm_compute; reflexivity. Qed.

(** ** Street extraction *)

Lemma normalizeStreetName_empty : normalizeStreetName "" = "".
Proof. reflexivity. Qed.













(** ** Character classes *)

Lemma all_ascii_complete (c : ascii) : In c all_ascii.
Proof.
  unfold all_ascii. rewrite <- (ascii_nat_embedding c).
  apply in_map, in_seq. pose proof (nat_ascii_bounded c). lia.
Qed.

Lemma for_all_ascii (P : ascii -> bool) :
  forallb P all_ascii = true -> forall c, P c = true.
Proof.
  intros H c. rewrite forallb_forall in H. apply H, all_ascii_complete.
Qed.

Ltac by_cases_on c P :=
  revert c; apply (for_all_ascii P); vm_compute; reflexivity.

Lemma word_not_space (c : ascii) :
  Char.is_word c = true -> Char.is_space c = false.
Proof.
  enough (H : implb (Char.is_word c) (negb (Char.is_space c)) = true).
  { revert H. destruct (Char.is_word c), (Char.is_space c); cbn; congruence. }
  by_cases_on c (fun c => implb (Char.is_word c) (negb (Char.is_space c))).
Qed.

Lemma space_is_space : Char.is_space space = true.
Proof. reflexivity. Qed.

Lemma word_not_punct (c : ascii) :
  Char.is_word c = true ->
  Ascii.eqb c space = false /\ lit comma c = false /\ lit dot c = false.
Proof.
  enough (H : implb (Char.is_word c)
                (negb (Ascii.eqb c space) && negb (lit comma c)
                 && negb (lit dot c)) = true).
  { intros Hw. rewrite Hw in H. revert H.
    destruct (Ascii.eqb c space), (lit comma c), (lit dot c); cbn;
      intros; auto; discriminate. }
  by_cases_on c (fun c => implb (Char.is_word c)
                (negb (Ascii.eqb c space) && negb (lit comma c)
                 && negb (lit dot c))).
Qed.

Lemma space_not_comma (c : ascii) :
  Char.is_space c = true -> lit comma c = false.
Proof.
  enough (H : implb (Char.is_space c) (negb (lit comma c)) = true).
  { intros Hs. rewrite Hs in H. revert H.
    destruct (lit comma c); cbn; intros; auto; discriminate. }
  by_cases_on c (fun c => implb (Char.is_space c) (negb (lit comma c))).
Qed.

Lemma toUpper_word (c : ascii) :
  Char.is_word (Char.toUpper c) = Char.is_word c.
Proof.
  enough (H : Bool.eqb (Char.is_word (Char.toUpper c)) (Char.is_word c) = true)
    by (apply eqb_prop, H).
  by_cases_on c (fun c => Bool.eqb (Char.is_word (Char.toUpper c)) (Char.is_word c)).
Qed.

Lemma toLower_word (c : ascii) :
  Char.is_word (Char.toLower c) = Char.is_word c.
Proof.
  enough (H : Bool.eqb (Char.is_word (Char.toLower c)) (Char.is_word c) = true)
    by (apply eqb_prop, H).
  by_cases_on c (fun c => Bool.eqb (Char.is_word (Char.toLower c)) (Char.is_word c)).
Qed.

Lemma toUpper_idem (c : ascii) : Char.toUpper (Char.toUpper c) = Char.toUpper c.
Proof.
  apply Ascii.eqb_eq.
  by_cases_on c (fun c => Ascii.eqb (Char.toUpper (Char.toUpper c)) (Char.toUpper c)).
Qed.

Lemma toLower_idem (c : ascii) : Char.toLower (Char.toLower c) = Char.toLower c.
Proof.
  apply Ascii.eqb_eq.
  by_cases_on c (fun c => Ascii.eqb (Char.toLower (Char.toLower c)) (Char.toLower c)).
Qed.

Lemma eq_ci_word (a c : ascii) :
  Char.eq_ci a c = true -> Char.is_word c = Char.is_word a.
Proof.
  unfold Char.eq_ci. intros H. apply Ascii.eqb_eq in H.
  rewrite <- (toUpper_word c), <- (toUpper_word a), H. reflexivity.
Qed.

(** ** trim *)

Lemma trimStart_all_space (l : chars) :
  forallb Char.is_space l = true -> Js.trimStart l = [].
Proof.
  induction l as [|c t IH]; simpl; [reflexivity |].
  destruct (Char.is_space c); simpl; [exact IH | discriminate].
Qed.

Lemma trimStart_app (a b : chars) :
  Js.trimStart (a ++ b) =
    if forallb Char.is_space a then Js.trimStart b else Js.trimStart a ++ b.
Proof.
  induction a as [|c a IH]; simpl; [reflexivity |].
  destruct (Char.is_space c); simpl; [exact IH | reflexivity].
Qed.

Lemma forallb_rev (p : ascii -> bool) (l : chars) :
  forallb p (rev l) = forallb p l.
Proof.
  induction l as [|c t IH]; simpl; [reflexivity |].
  rewrite forallb_app, IH. simpl. rewrite andb_true_r. apply andb_comm.
Qed.

Lemma trimEnd_cons (c : ascii) (t : chars) :
  Js.trimEnd (c :: t) =
    if forallb Char.is_space (c :: t) then [] else c :: Js.trimEnd t.
Proof.
  unfold Js.trimEnd. simpl rev. rewrite trimStart_app, forallb_rev.
  simpl forallb. destruct (forallb Char.is_space t) eqn:Et.
  - rewrite (trimStart_all_space (rev t)) by (rewrite forallb_rev; exact Et).
    simpl. destruct (Char.is_space c); reflexivity.
  - rewrite andb_false_r, rev_app_distr. reflexivity.
Qed.

Lemma trimEnd_word_app (u z : chars) :
  forallb Char.is_word u = true ->
  Js.trimEnd (u ++ z) = u ++ Js.trimEnd z.
Proof.
  induction u as [|c u IH]; simpl; [reflexivity |].
  intros H. apply andb_prop in H as [Hc Hu].
  rewrite trimEnd_cons. simpl forallb.
  rewrite (word_not_space c Hc). simpl. rewrite IH; auto.
Qed.

Lemma trimStart_forallb (p : ascii -> bool) (l : chars) :
  forallb p l = true -> forallb p (Js.trimStart l) = true.
Proof.
  induction l as [|c t IH]; simpl; [reflexivity |].
  intros H. destruct (Char.is_space c); [| exact H].
  apply andb_prop in H as [_ H]. auto.
Qed.

Lemma trimEnd_forallb (p : ascii -> bool) (l : chars) :
  forallb p l = true -> forallb p (Js.trimEnd l) = true.
Proof.
  intros H. unfold Js.trimEnd.
  rewrite forallb_rev. apply trimStart_forallb. rewrite forallb_rev. exact H.
Qed.

Lemma trimStart_head (l : chars) :
  Js.trimStart l = []
  \/ exists c t, Js.trimStart l = c :: t /\ Char.is_space c = false.
Proof.
  induction l as [|c t IH]; simpl; [auto |].
  destruct (Char.is_space c) eqn:E; [exact IH | right; eauto].
Qed.

Lemma trimEnd_spaces (l : chars) :
  forallb Char.is_space (Js.trimEnd l) = true ->
  forallb Char.is_space l = true.
Proof.
  induction l as [|c t IH]; [reflexivity |].
  rewrite trimEnd_cons.
  destruct (forallb Char.is_space (c :: t)) eqn:E; [reflexivity |].
  simpl. intros H. apply andb_prop in H as [Hc Ht].
  simpl in E. rewrite Hc, (IH Ht) in E. discriminate.
Qed.

(** ** Replacing runs of whitespace *)

Lemma match_star_run (p : ascii -> bool) (prev : option ascii) (l : chars) :
  match_here [Star p] prev l = Some (run p l).
Proof.
  revert prev. induction l as [|c t IH]; intros prev; [reflexivity |].
  simpl in *. destruct (p c); [| reflexivity].
  rewrite IH. reflexivity.
Qed.

Lemma match_plus (p : ascii -> bool) (prev : option ascii) (l : chars) :
  match_here (plus p) prev l =
    match l with
    | c :: t => if p c then Some (S (run p t)) else None
    | [] => None
    end.
Proof.
  destruct l as [|c t]; [reflexivity |].
  unfold plus. change (match_here (Chr p :: [Star p]) prev (c :: t))
    with (if p c then S <$> match_here [Star p] (Some c) t else None).
  rewrite match_star_run. reflexivity.
Qed.

Lemma squeeze_true_run (l : chars) :
  squeeze true l = squeeze false (drop (run Char.is_space l) l).
Proof.
  induction l as [|c t IH]; simpl; [reflexivity |].
  destruct (Char.is_space c) eqn:E; simpl; [exact IH | rewrite E; reflexivity].
Qed.

Lemma replace_spaces_go (l : chars) (prev : option ascii) (k : nat) :
  k = 0 \/ k = run Char.is_space l ->
  replace_go true re_spaces [space] prev l k = squeeze false (drop k l).
Proof.
  revert prev k. induction l as [|c t IH]; intros prev k Hk.
  - destruct k; reflexivity.
  - destruct k as [|k].
    + cbn [replace_go]. unfold re_spaces. rewrite match_plus.
      simpl drop. simpl squeeze. destruct (Char.is_space c) eqn:E.
      * simpl app. rewrite IH by auto. rewrite <- squeeze_true_run. reflexivity.
      * rewrite IH by auto. reflexivity.
    + cbn [replace_go]. destruct Hk as [Hk|Hk]; [discriminate |].
      simpl in Hk. destruct (Char.is_space c); [| discriminate].
      injection Hk as ->. rewrite IH by auto. reflexivity.
Qed.

Lemma replace_spaces_squeeze (l : chars) :
  replace_all re_spaces " " l = squeeze false l.
Proof. unfold replace_all. apply (replace_spaces_go l None 0). auto. Qed.

(** A pattern that starts with a class no code unit of the string is in
    matches nowhere. *)
Lemma replace_absent (g : bool) (p : ascii -> bool) (re : regex) (r : chars)
      (l : chars) (prev : option ascii) :
  forallb (fun c => negb (p c)) l = true ->
  replace_go g (Chr p :: re) r prev l 0 = l.
Proof.
  revert prev. induction l as [|c t IH]; intros prev H; [reflexivity |].
  simpl in H. apply andb_prop in H as [Hc Ht].
  cbn [replace_go]. 
  change (match_here (Chr p :: re) prev (c :: t))
    with (if p c then S <$> match_here re (Some c) t else None).
  destruct (p c); [discriminate |]. rewrite IH; auto.
Qed.

(** ** Tidy strings *)

Lemma join_cons (sep a : chars) (T : list chars) :
  T <> [] -> Js.join sep (a :: T) = a ++ sep ++ Js.join sep T.
Proof. destruct T; [contradiction | reflexivity]. Qed.

Lemma tidy_single (c : ascii) : Char.is_word c = true -> tidy [c].
Proof.
  intros H. exists [[c]]. repeat split; try discriminate.
  constructor; [| constructor]. split; [discriminate |]. simpl. rewrite H. reflexivity.
Qed.

Lemma tidy_cons_word (c : ascii) (x : chars) :
  Char.is_word c = true -> tidy x -> tidy (c :: x).
Proof.
  intros Hc (T & Hne & Hgood & ->).
  destruct T as [|t T]; [contradiction |].
  inversion Hgood as [|? ? [Ht1 Ht2] HT]; subst.
  exists ((c :: t) :: T). split; [discriminate |]. split.
  - constructor; [| exact HT]. split; [discriminate |].
    simpl. rewrite Hc. exact Ht2.
  - destruct T; reflexivity.
Qed.

Lemma tidy_cons_gap (c : ascii) (x : chars) :
  Char.is_word c = true -> tidy x -> tidy (c :: space :: x).
Proof.
  intros Hc (T & Hne & Hgood & ->).
  exists ([c] :: T). split; [discriminate |]. split.
  - constructor; [| exact Hgood]. split; [discriminate |].
    simpl. rewrite Hc. reflexivity.
  - rewrite join_cons by exact Hne. reflexivity.
Qed.

Lemma plain_char_cases (c : ascii) :
  plain_char c = true ->
  (Char.is_space c = true /\ Char.is_word c = false)
  \/ (Char.is_space c = false /\ Char.is_word c = true).
Proof.
  unfold plain_char. intros H.
  destruct (Char.is_word c) eqn:Ew.
  - right. split; [apply word_not_space, Ew | reflexivity].
  - left. simpl in H. auto.
Qed.

Lemma plain_char_not_comma (c : ascii) :
  plain_char c = true -> negb (lit comma c) = true.
Proof.
  intros H. apply negb_true_iff.
  destruct (plain_char_cases c H) as [[Hs _]|[_ Hw]].
  - apply space_not_comma, Hs.
  - apply word_not_punct, Hw.
Qed.

Lemma squeeze_nil_spaces (b : bool) (z : chars) :
  squeeze b z = [] -> forallb Char.is_space z = true.
Proof.
  revert b. induction z as [|c t IH]; intros b; simpl; [reflexivity |].
  destruct (Char.is_space c); simpl.
  - destruct b; [apply IH | discriminate].
  - discriminate.
Qed.

Lemma squeeze_trimEnd (t : chars) (b : bool) :
  forallb plain_char t = true ->
  squeeze b (Js.trimEnd t) = []
  \/ tidy (squeeze b (Js.trimEnd t))
  \/ (b = false /\ exists x, squeeze b (Js.trimEnd t) = space :: x /\ tidy x).
Proof.
  revert b. induction t as [|c t IH]; intros b Hp; [left; reflexivity |].
  simpl in Hp. apply andb_prop in Hp as [Hc Ht].
  rewrite trimEnd_cons.
  destruct (forallb Char.is_space (c :: t)) eqn:Eall; [left; reflexivity |].
  simpl squeeze.
  destruct (plain_char_cases c Hc) as [[Hs Hw]|[Hs Hw]]; rewrite Hs.
  - simpl in Eall. rewrite Hs in Eall. simpl in Eall.
    assert (Hne : squeeze true (Js.trimEnd t) <> []).
    { intros E. apply squeeze_nil_spaces, trimEnd_spaces in E. congruence. }
    destruct (IH true Ht) as [E|[E|[E _]]]; try congruence.
    destruct b; [right; left; exact E |].
    right. right. split; [reflexivity |]. eauto.
  - destruct (IH false Ht) as [E|[E|[_ (x & E & Hx)]]].
    + rewrite E. right. left. apply tidy_single, Hw.
    + right. left. apply tidy_cons_word; assumption.
    + rewrite E. right. left. apply tidy_cons_gap; assumption.
Qed.

Lemma collapse_unfold (l : chars) :
  forallb plain_char l = true ->
  collapse l = squeeze false (Js.trim l).
Proof.
  intros H. unfold collapse. rewrite replace_spaces_squeeze.
  unfold replace_all, re_commas, plus. rewrite replace_absent; [reflexivity |].
  unfold Js.trim. apply trimEnd_forallb, trimStart_forallb.
  rewrite forallb_forall in *. intros c Hc.
  apply plain_char_not_comma, H, Hc.
Qed.

(** Collapsing a plain string leaves nothing or tokens separated by single
    spaces. *)
Lemma collapse_tidy (l : chars) :
  forallb plain_char l = true ->
  collapse l = [] \/ tidy (collapse l).
Proof.
  intros H. rewrite collapse_unfold by exact H. unfold Js.trim.
  pose proof (trimStart_forallb plain_char l H) as Hp.
  destruct (trimStart_head l) as [E|(c & t & E & Hc)].
  - rewrite E. left. reflexivity.
  - rewrite E in *.
    destruct (squeeze_trimEnd (c :: t) false Hp) as [E'|[E'|[_ (x & E' & _)]]];
      auto.
    rewrite trimEnd_cons in E'. simpl forallb in E'. rewrite Hc in E'.
    simpl in E'. rewrite Hc in E'. injection E' as -> _. discriminate.
Qed.

Lemma join_plain (T : list chars) :
  Forall good T -> forallb plain_char (Js.join [space] T) = true.
Proof.
  induction 1 as [|t T [Hne Hw] HT IH]; [reflexivity |].
  assert (Ht : forallb plain_char t = true).
  { rewrite forallb_forall in *. intros c Hc. unfold plain_char.
    rewrite (Hw c Hc). reflexivity. }
  destruct T as [|t' T]; [exact Ht |].
  rewrite join_cons by discriminate.
  rewrite !forallb_app, Ht, IH. reflexivity.
Qed.

Lemma join_head (T : list chars) :
  T <> [] -> Forall good T ->
  exists c x, Js.join [space] T = c :: x /\ Char.is_word c = true.
Proof.
  intros Hne HT. destruct T as [|t T]; [contradiction |].
  inversion HT as [|? ? [Ht Hw] _]; subst.
  destruct t as [|c t]; [contradiction |].
  simpl in Hw. apply andb_prop in Hw as [Hc _].
  destruct T; simpl; eauto.
Qed.

Lemma squeeze_word_app (b : bool) (u z : chars) :
  u <> [] -> forallb Char.is_word u = true ->
  squeeze b (u ++ z) = u ++ squeeze false z.
Proof.
  revert b. induction u as [|c u IH]; intros b Hne Hw; [contradiction |].
  simpl in *. apply andb_prop in Hw as [Hc Hu].
  rewrite (word_not_space c Hc). f_equal.
  destruct u as [|c' u]; [reflexivity |]. apply IH; [discriminate | exact Hu].
Qed.

Lemma squeeze_space (z : chars) :
  squeeze false (space :: z) = space :: squeeze true z.
Proof. reflexivity. Qed.

Lemma squeeze_true_word (c : ascii) (x : chars) :
  Char.is_word c = true -> squeeze true (c :: x) = squeeze false (c :: x).
Proof. intros H. simpl. rewrite (word_not_space c H). reflexivity. Qed.

Lemma squeeze_join (T : list chars) :
  T <> [] -> Forall good T ->
  squeeze false (Js.join [space] T) = Js.join [space] T.
Proof.
  intros Hne HT. induction HT as [|t T [Ht Hw] HT IH]; [contradiction |].
  destruct T as [|t' T].
  - simpl. rewrite <- (app_nil_r t) at 1.
    rewrite squeeze_word_app by assumption. simpl. apply app_nil_r.
  - rewrite join_cons by discriminate.
    rewrite squeeze_word_app by assumption. f_equal.
    change ([space] ++ Js.join [space] (t' :: T))
      with (space :: Js.join [space] (t' :: T)).
    rewrite squeeze_space. f_equal.
    destruct (join_head (t' :: T)) as (c & x & E & Hc); [discriminate | exact HT |].
    rewrite <- IH at 2 by discriminate. rewrite E.
    apply squeeze_true_word, Hc.
Qed.

Lemma trim_join (T : list chars) :
  T <> [] -> Forall good T ->
  Js.trim (Js.join [space] T) = Js.join [space] T.
Proof.
  intros Hne HT. unfold Js.trim.
  destruct (join_head T Hne HT) as (c & x & E & Hc).
  assert (Hs : Js.trimStart (Js.join [space] T) = Js.join [space] T).
  { rewrite E. simpl. rewrite (word_not_space c Hc). reflexivity. }
  rewrite Hs. clear c x E Hc Hs.
  induction HT as [|t T [Ht Hw] HT IH]; [contradiction |].
  destruct T as [|t' T].
  - simpl. rewrite <- (app_nil_r t) at 1.
    rewrite trimEnd_word_app by assumption. apply app_nil_r.
  - rewrite join_cons by discriminate.
    rewrite trimEnd_word_app by assumption. f_equal.
    change ([space] ++ Js.join [space] (t' :: T))
      with (space :: Js.join [space] (t' :: T)).
    rewrite trimEnd_cons, IH by discriminate.
    destruct (join_head (t' :: T)) as (c & x & E & Hc); [discriminate | exact HT |].
    rewrite E at 1. simpl forallb.
    rewrite (word_not_space c Hc). reflexivity.
Qed.

Lemma collapse_join (T : list chars) :
  T <> [] -> Forall good T ->
  collapse (Js.join [space] T) = Js.join [space] T.
Proof.
  intros Hne HT. rewrite collapse_unfold by (apply join_plain, HT).
  rewrite trim_join by assumption. apply squeeze_join; assumption.
Qed.

(** ** split *)

Lemma split_go_word_app (u cur rest : chars) :
  forallb Char.is_word u = true ->
  Js.split_go space cur (u ++ rest) = Js.split_go space (rev u ++ cur) rest.
Proof.
  revert cur. induction u as [|c u IH]; intros cur H; [reflexivity |].
  simpl in H. apply andb_prop in H as [Hc Hu].
  simpl. destruct (word_not_punct c Hc) as [-> _].
  rewrite IH by exact Hu. rewrite <- app_assoc. reflexivity.
Qed.

Lemma split_join (T : list chars) :
  T <> [] -> Forall good T -> Js.split space (Js.join [space] T) = T.
Proof.
  unfold Js.split. intros Hne HT.
  induction HT as [|t T [Ht Hw] HT IH]; [contradiction |].
  destruct T as [|t' T].
  - simpl Js.join. rewrite <- (app_nil_r t) at 1.
    rewrite split_go_word_app by exact Hw. simpl.
    rewrite app_nil_r, rev_involutive. reflexivity.
  - rewrite join_cons by discriminate.
    rewrite split_go_word_app by exact Hw.
    change ([space] ++ Js.join [space] (t' :: T))
      with (space :: Js.join [space] (t' :: T)).
    cbn [Js.split_go]. rewrite Ascii.eqb_refl, IH by discriminate.
    rewrite app_nil_r, rev_involutive. reflexivity.
Qed.

(** ** Replacing whole tokens of a tidy string *)

Lemma prev_after_word (prev : option ascii) (u : chars) :
  forallb Char.is_word u = true -> word_at prev = true ->
  word_at (prev_after prev u) = true.
Proof.
  revert prev. induction u as [|c u IH]; intros prev Hu Hp; [exact Hp |].
  simpl in Hu. apply andb_prop in Hu as [Hc Hu]. apply IH; assumption.
Qed.

Lemma replace_skip (g : bool) (re : regex) (rs u rest : chars)
      (prev : option ascii) :
  replace_go g re rs prev (u ++ rest) (length u)
  = replace_go g re rs (prev_after prev u) rest 0.
Proof.
  revert prev. induction u as [|c u IH]; intros prev; [reflexivity |].
  simpl. apply IH.
Qed.

Section TokenReplace.

Variable re : regex.
Variable rs : chars.
Variable tokmatch : chars -> bool.

Hypothesis match_inside : forall prev c l,
    word_at prev = true -> Char.is_word c = true ->
    match_here re prev (c :: l) = None.

Hypothesis match_gap : forall prev l, gap l -> match_here re prev l = None.

Hypothesis match_token : forall prev t rest,
    word_at prev = false -> good t -> gap rest ->
    match_here re prev (t ++ rest)
    = if tokmatch t then Some (length t) else None.

Lemma replace_inside (u rest : chars) (prev : option ascii) :
  forallb Char.is_word u = true -> word_at prev = true ->
  replace_go true re rs prev (u ++ rest) 0
  = u ++ replace_go true re rs (prev_after prev u) rest 0.
Proof.
  revert prev. induction u as [|c u IH]; intros prev Hu Hp; [reflexivity |].
  simpl in Hu. apply andb_prop in Hu as [Hc Hu].
  change ((c :: u) ++ rest) with (c :: (u ++ rest)).
  cbn [replace_go]. rewrite match_inside by assumption.
  rewrite IH by assumption. reflexivity.
Qed.

Lemma replace_token (t rest : chars) (prev : option ascii) :
  good t -> word_at prev = false -> gap rest ->
  replace_go true re rs prev (t ++ rest) 0
  = (if tokmatch t then rs else t)
      ++ replace_go true re rs (prev_after prev t) rest 0.
Proof.
  intros Hgood Hp Hrest.
  pose proof (match_token prev t rest Hp Hgood Hrest) as Hm.
  destruct Hgood as [Hne Hw]. destruct t as [|c t]; [contradiction |].
  simpl in Hw. apply andb_prop in Hw as [Hc Hw].
  change ((c :: t) ++ rest) with (c :: (t ++ rest)) in *.
  cbn [replace_go]. rewrite Hm. destruct (tokmatch (c :: t)).
  - simpl length. cbv beta iota. rewrite replace_skip. reflexivity.
  - rewrite replace_inside by assumption. reflexivity.
Qed.

Lemma replace_join (T : list chars) (prev : option ascii) :
  Forall good T -> word_at prev = false ->
  replace_go true re rs prev (Js.join [space] T) 0
  = Js.join [space] (map (fun t => if tokmatch t then rs else t) T).
Proof.
  intros HT. revert prev.
  induction HT as [|t T Ht HT IH]; intros prev Hp.
  - simpl. rewrite match_gap by (left; reflexivity). reflexivity.
  - destruct T as [|t' T].
    + simpl Js.join. rewrite <- (app_nil_r t) at 1.
      rewrite replace_token by (auto; left; reflexivity).
      simpl. rewrite match_gap by (left; reflexivity). apply app_nil_r.
    + rewrite join_cons by discriminate.
      rewrite replace_token by (auto; right; eauto).
      change ([space] ++ Js.join [space] (t' :: T))
        with (space :: Js.join [space] (t' :: T)).
      cbn [replace_go]. rewrite match_gap by (right; eauto).
      rewrite IH by reflexivity.
      change (map (fun t => if tokmatch t then rs else t) (t :: t' :: T))
        with ((if tokmatch t then rs else t)
                :: map (fun t => if tokmatch t then rs else t) (t' :: T)).
      rewrite join_cons by discriminate. reflexivity.
Qed.

End TokenReplace.

(** ** The abbreviation patterns match whole tokens *)

Lemma match_wordb (re' : regex) (prev : option ascii) (l : chars) :
  match_here (WordB :: re') prev l
  = if xorb (word_at prev) (word_at (head l)) then match_here re' prev l
    else None.
Proof. reflexivity. Qed.

Lemma match_chr (p : ascii -> bool) (re' : regex) (prev : option ascii)
      (l : chars) :
  match_here (Chr p :: re') prev l
  = match l with
    | c :: t => if p c then S <$> match_here re' (Some c) t else None
    | [] => None
    end.
Proof. reflexivity. Qed.

Lemma match_opt_absent (p : ascii -> bool) (re' : regex)
      (prev : option ascii) (l : chars) :
  match l with c :: _ => p c = false | [] => True end ->
  match_here (Opt p :: re') prev l = match_here re' prev l.
Proof.
  destruct l as [|c t]; [reflexivity |]. intros H.
  change (match_here (Opt p :: re') prev (c :: t))
    with (if p c then
            match match_here re' (Some c) t with
            | Some n => Some (S n)
            | None => match_here re' prev (c :: t)
            end
          else match_here re' prev (c :: t)).
  rewrite H. reflexivity.
Qed.

Lemma match_lits (w : chars) (re' : regex) (prev : option ascii) (l : chars) :
  match_here (map (fun c => Chr (lit_i c)) w ++ re') prev l
  = lits_then w (match_here re') prev l.
Proof.
  revert prev l. induction w as [|a w IH]; intros prev l; [reflexivity |].
  change (map (fun c => Chr (lit_i c)) (a :: w) ++ re')
    with (Chr (lit_i a) :: (map (fun c => Chr (lit_i c)) w ++ re')).
  rewrite match_chr. destruct l as [|c t]; [reflexivity |].
  simpl. unfold lit_i. destruct (Char.eq_ci a c); [| reflexivity].
  rewrite IH. reflexivity.
Qed.

Lemma gap_head (rest : chars) :
  gap rest ->
  word_at (head rest) = false
  /\ match rest with c :: _ => lit dot c = false | [] => True end.
Proof.
  intros [->|(rest' & ->)]; simpl; split; auto; reflexivity.
Qed.

Lemma match_word_end (prev : option ascii) (rest : chars) :
  word_at prev = true -> gap rest ->
  match_here re_word_end prev rest = Some 0.
Proof.
  intros Hp Hrest. destruct (gap_head rest Hrest) as [Hh Hd].
  unfold re_word_end. rewrite match_wordb, Hp, Hh. simpl xorb. cbv iota.
  rewrite match_opt_absent by exact Hd. reflexivity.
Qed.

Lemma match_word_end_inside (prev : option ascii) (c : ascii) (l : chars) :
  word_at prev = true -> Char.is_word c = true ->
  match_here re_word_end prev (c :: l) = None.
Proof.
  intros Hp Hc. unfold re_word_end. rewrite match_wordb, Hp. simpl.
  rewrite Hc. reflexivity.
Qed.

Lemma eq_ci_gap (a : ascii) (rest : chars) :
  Char.is_word a = true -> gap rest ->
  match rest with c :: _ => Char.eq_ci a c = false | [] => True end.
Proof.
  intros Ha [->|(rest' & ->)]; [exact I |].
  destruct (Char.eq_ci a space) eqn:E; [| reflexivity].
  apply eq_ci_word in E. rewrite Ha in E. discriminate.
Qed.

Lemma lits_token (w t rest : chars) (prev : option ascii) :
  forallb Char.is_word w = true ->
  forallb Char.is_word t = true ->
  word_at prev = true -> gap rest ->
  lits_then w (match_here re_word_end) prev (t ++ rest)
  = if ci_eqb w t then Some (length t) else None.
Proof.
  revert t prev. induction w as [|a w IH]; intros t prev Hw Ht Hp Hrest.
  - destruct t as [|c t]; cbn [lits_then app ci_eqb length].
    + apply match_word_end; assumption.
    + simpl in Ht. apply andb_prop in Ht as [Hc _].
      apply match_word_end_inside; assumption.
  - simpl in Hw. apply andb_prop in Hw as [Ha Hw].
    destruct t as [|c t]; cbn [lits_then app ci_eqb length].
    + pose proof (eq_ci_gap a rest Ha Hrest) as Hg.
      destruct rest as [|c rest]; [reflexivity |]. rewrite Hg. reflexivity.
    + simpl in Ht. apply andb_prop in Ht as [Hc Ht].
      destruct (Char.eq_ci a c); [| reflexivity].
      rewrite IH by assumption. cbn [andb]. destruct (ci_eqb w t); reflexivity.
Qed.

Lemma re_abbrev_unfold (w : string) :
  re_abbrev w
  = WordB :: map (fun c => Chr (lit_i c)) (of_string w) ++ re_word_end.
Proof. reflexivity. Qed.

Lemma abbrev_inside (w : string) (prev : option ascii) (c : ascii) (l : chars) :
  word_at prev = true -> Char.is_word c = true ->
  match_here (re_abbrev w) prev (c :: l) = None.
Proof.
  intros Hp Hc. rewrite re_abbrev_unfold, match_wordb, Hp. simpl.
  rewrite Hc. reflexivity.
Qed.

Lemma abbrev_gap (w : string) (prev : option ascii) (l : chars) :
  good (of_string w) -> gap l ->
  match_here (re_abbrev w) prev l = None.
Proof.
  intros [Hne Hw] Hl. rewrite re_abbrev_unfold, match_wordb.
  destruct (xorb _ _); [| reflexivity].
  rewrite match_lits. destruct (of_string w) as [|a w']; [contradiction |].
  simpl in Hw. apply andb_prop in Hw as [Ha _].
  pose proof (eq_ci_gap a l Ha Hl) as Hg.
  destruct l as [|c l]; simpl; [reflexivity |]. rewrite Hg. reflexivity.
Qed.

Lemma abbrev_token (w : string) (prev : option ascii) (t rest : chars) :
  good (of_string w) ->
  word_at prev = false -> good t -> gap rest ->
  match_here (re_abbrev w) prev (t ++ rest)
  = if ci_eqb (of_string w) t then Some (length t) else None.
Proof.
  intros [Hne Hw] Hp [Htne Ht] Hrest.
  rewrite re_abbrev_unfold, match_wordb, Hp, match_lits.
  destruct (of_string w) as [|a w']; [contradiction |].
  destruct t as [|c t]; [contradiction |].
  simpl in Hw, Ht. apply andb_prop in Hw as [Ha Hw].
  apply andb_prop in Ht as [Hc Ht].
  simpl. rewrite Hc. simpl.
  destruct (Char.eq_ci a c); [| reflexivity].
  rewrite lits_token by assumption. destruct (ci_eqb w' t); reflexivity.
Qed.

Lemma replace_abbrev_join (w r : string) (T : list chars) :
  good (of_string w) -> Forall good T ->
  replace_all (re_abbrev w) r (Js.join [space] T)
  = Js.join [space] (map (subst w r) T).
Proof.
  intros Hw HT. unfold replace_all.
  apply (replace_join (re_abbrev w) (of_string r) (ci_eqb (of_string w)));
    auto using abbrev_inside, abbrev_gap, abbrev_token.
Qed.

(** [M.?G.?\b]: in a tidy string no dot follows, so only the tokens that
    spell MG match. *)

Lemma mg_inside (prev : option ascii) (c : ascii) (l : chars) :
  word_at prev = true -> Char.is_word c = true ->
  match_here re_mg prev (c :: l) = None.
Proof.
  intros Hp Hc. unfold re_mg. rewrite match_wordb, Hp. simpl.
  rewrite Hc. reflexivity.
Qed.

Lemma mg_gap (prev : option ascii) (l : chars) :
  gap l -> match_here re_mg prev l = None.
Proof.
  intros Hl. unfold re_mg. rewrite match_wordb.
  destruct (xorb _ _); [| reflexivity].
  rewrite match_chr.
  destruct Hl as [->|(l' & ->)]; reflexivity.
Qed.

Lemma word_not_dot (l rest : chars) :
  forallb Char.is_word l = true -> gap rest ->
  match l ++ rest with c :: _ => lit dot c = false | [] => True end.
Proof.
  intros Hl Hrest. destruct l as [|c l]; simpl.
  - apply gap_head, Hrest.
  - simpl in Hl. apply andb_prop in Hl as [Hc _]. apply word_not_punct, Hc.
Qed.

Lemma mg_token (prev : option ascii) (t rest : chars) :
  word_at prev = false -> good t -> gap rest ->
  match_here re_mg prev (t ++ rest)
  = if ci_eqb (of_string "MG") t then Some (length t) else None.
Proof.
  intros Hp [Htne Ht] Hrest. unfold re_mg.
  destruct t as [|c1 t]; [contradiction |].
  simpl in Ht. apply andb_prop in Ht as [Hc1 Ht].
  rewrite match_wordb, Hp. simpl head. simpl word_at. rewrite Hc1.
  simpl xorb. cbv iota.
  change ((c1 :: t) ++ rest) with (c1 :: (t ++ rest)).
  rewrite match_chr. simpl ci_eqb. unfold lit_i at 1.
  destruct (Char.eq_ci "M" c1); [| reflexivity]. simpl andb.
  rewrite match_opt_absent by (apply word_not_dot; assumption).
  destruct t as [|c2 t].
  - simpl app. rewrite match_chr.
    pose proof (eq_ci_gap "G"%char rest eq_refl Hrest) as Hg.
    destruct rest as [|c rest]; [reflexivity |].
    unfold lit_i. rewrite Hg. reflexivity.
  - simpl in Ht. apply andb_prop in Ht as [Hc2 Ht].
    change ((c2 :: t) ++ rest) with (c2 :: (t ++ rest)).
    rewrite match_chr. unfold lit_i at 1.
    destruct (Char.eq_ci "G" c2); [| reflexivity]. simpl andb.
    rewrite match_opt_absent by (apply word_not_dot; assumption).
    rewrite match_wordb. simpl word_at at 1. rewrite Hc2.
    destruct t as [|c3 t].
    + simpl app. destruct (gap_head rest Hrest) as [-> _]. reflexivity.
    + simpl in Ht. apply andb_prop in Ht as [Hc3 _].
      simpl. rewrite Hc3. reflexivity.
Qed.

Lemma replace_mg_join (T : list chars) :
  Forall good T ->
  replace_all re_mg "MG" (Js.join [space] T)
  = Js.join [space] (map (subst "MG" "MG") T).
Proof.
  intros HT. unfold replace_all.
  apply (replace_join re_mg (of_string "MG") (ci_eqb (of_string "MG")));
    auto using mg_inside, mg_gap, mg_token.
Qed.

(** ** Tokens through the pipeline *)

Lemma good_cons (c : ascii) (t : chars) :
  good (c :: t) <-> Char.is_word c = true /\ forallb Char.is_word t = true.
Proof.
  unfold good. simpl. rewrite andb_true_iff. split.
  - intros [_ H]. exact H.
  - intros H. split; [discriminate | exact H].
Qed.

Lemma titleCase_good (t : chars) : good t -> good (titleCase t).
Proof.
  intros Hg. unfold titleCase. destruct (_ && _); [exact Hg |].
  destruct t as [|c t]; [destruct Hg; contradiction |].
  apply good_cons in Hg as [Hc Ht]. simpl. apply good_cons.
  rewrite toUpper_word. split; [exact Hc |].
  unfold Js.toLowerCase. rewrite forallb_forall in *.
  intros x Hx. apply in_map_iff in Hx as (y & <- & Hy).
  rewrite toLower_word. auto.
Qed.

Lemma titleCase_idem (t : chars) : titleCase (titleCase t) = titleCase t.
Proof.
  unfold titleCase at 2 3.
  destruct ((length t <=? 3) && Js.str_eqb t (Js.toUpperCase t)) eqn:E.
  - unfold titleCase. rewrite E. reflexivity.
  - destruct t as [|c t]; [discriminate |].
    clear E.
    change (Js.toUpperCase (firstn 1 (c :: t)) ++ Js.toLowerCase (skipn 1 (c :: t)))
      with (Char.toUpper c :: Js.toLowerCase t).
    unfold titleCase. destruct (_ && _); [reflexivity |].
    change (Js.toUpperCase (firstn 1 (Char.toUpper c :: Js.toLowerCase t))
            ++ Js.toLowerCase (skipn 1 (Char.toUpper c :: Js.toLowerCase t)))
      with (Char.toUpper (Char.toUpper c)
              :: Js.toLowerCase (Js.toLowerCase t)).
    rewrite toUpper_idem. f_equal.
    unfold Js.toLowerCase. rewrite map_map.
    apply map_ext. intros a. apply toLower_idem.
Qed.

Lemma subst_good (w r : string) (t : chars) :
  good (of_string r) -> good t -> good (subst w r t).
Proof. intros Hr Ht. unfold subst. destruct (ci_eqb _ _); assumption. Qed.

Lemma Forall_good_map (f : chars -> chars) (T : list chars) :
  (forall t, good t -> good (f t)) -> Forall good T -> Forall good (map f T).
Proof.
  intros Hf HT. induction HT; constructor; auto.
Qed.

Lemma replace_rules_join (rules : list (string * string)) (T : list chars) :
  Forall rule_ok rules -> Forall good T ->
  fold_left (fun acc '(w, r) => replace_all (re_abbrev w) r acc) rules
            (Js.join [space] T)
  = Js.join [space]
      (map (fun t => fold_left (fun acc '(w, r) => subst w r acc) rules t) T).
Proof.
  intros Hrules. revert T.
  induction Hrules as [|[w r] rules [Hw Hr] Hrules IH]; intros T HT.
  - simpl. rewrite map_id. reflexivity.
  - cbn [fold_left]. rewrite replace_abbrev_join by assumption.
    rewrite IH by (apply Forall_good_map; auto using subst_good).
    rewrite map_map. reflexivity.
Qed.

Lemma rules_good (rules : list (string * string)) (t : chars) :
  Forall rule_ok rules -> good t ->
  good (fold_left (fun acc '(w, r) => subst w r acc) rules t).
Proof.
  intros Hrules. revert t.
  induction Hrules as [|[w r] rules [Hw Hr] Hrules IH]; intros t Ht;
    [exact Ht |].
  cbn [fold_left]. apply IH, subst_good; assumption.
Qed.

Lemma abbreviations_ok : Forall rule_ok abbreviations.
Proof.
  unfold abbreviations.
  repeat (constructor; [split; (split; [discriminate | reflexivity]) |]).
  constructor.
Qed.

Lemma expandToken_good (t : chars) : good t -> good (expandToken t).
Proof.
  intros Ht. unfold expandToken. apply subst_good.
  - split; [discriminate | reflexivity].
  - apply rules_good; [apply abbreviations_ok | exact Ht].
Qed.

Lemma normalizeToken_good (t : chars) : good t -> good (normalizeToken t).
Proof. intros Ht. apply expandToken_good, titleCase_good, Ht. Qed.

Lemma expandAbbreviations_join (T : list chars) :
  Forall good T ->
  expandAbbreviations (Js.join [space] T)
  = Js.join [space] (map expandToken T).
Proof.
  intros HT. unfold expandAbbreviations.
  rewrite replace_rules_join by (auto using abbreviations_ok).
  rewrite replace_mg_join.
  - rewrite map_map. reflexivity.
  - apply Forall_good_map; [| exact HT].
    intros t Ht. apply rules_good; [apply abbreviations_ok | exact Ht].
Qed.

Lemma finish_join (T : list chars) :
  T <> [] -> Forall good T ->
  finish (Js.join [space] T) = Js.join [space] (map normalizeToken T).
Proof.
  intros Hne HT. unfold finish. rewrite split_join by assumption.
  assert (HT1 : Forall good (map titleCase T))
    by (apply Forall_good_map; auto using titleCase_good).
  unfold replace_first, re_trailing_comma. rewrite replace_absent.
  - rewrite expandAbbreviations_join by exact HT1.
    rewrite map_map. reflexivity.
  - pose proof (join_plain _ HT1) as Hp. rewrite forallb_forall in *.
    intros c Hc. apply plain_char_not_comma, Hp, Hc.
Qed.

Lemma normalize_chars_unfold (l : chars) :
  normalize_chars l = finish (collapse l).
Proof. reflexivity. Qed.

Lemma expandToken_cases (x : chars) :
  expandToken x = x \/ In (expandToken x) expansions.
Proof.
  unfold expandToken, abbreviations. cbn [fold_left]. unfold subst.
  do 8 (destruct (ci_eqb _ x); [right; vm_compute; tauto | cbv iota]).
  destruct (ci_eqb _ x); [right; vm_compute; tauto | left; reflexivity].
Qed.

Lemma expansions_fixed (x : chars) :
  In x expansions -> normalizeToken x = x.
Proof.
  unfold expansions, abbreviations. simpl.
  intros H. repeat (destruct H as [<-|H]; [vm_compute; reflexivity |]).
  contradiction.
Qed.

Lemma normalizeToken_idem (t : chars) :
  normalizeToken (normalizeToken t) = normalizeToken t.
Proof.
  unfold normalizeToken at 2 3.
  destruct (expandToken_cases (titleCase t)) as [E|E].
  - rewrite E. unfold normalizeToken. rewrite titleCase_idem. exact E.
  - apply expansions_fixed, E.
Qed.

Lemma normalize_chars_plain (l : chars) :
  forallb plain_char l = true ->
  normalize_chars l = []
  \/ exists T, T <> [] /\ Forall good T /\ normalize_chars l = Js.join [space] T.
Proof.
  intros Hp. rewrite normalize_chars_unfold.
  destruct (collapse_tidy l Hp) as [E|(T & Hne & HT & E)]; rewrite E.
  - left. reflexivity.
  - right. exists (map normalizeToken T). split; [| split].
    + destruct T; [contradiction | discriminate].
    + apply Forall_good_map; auto using normalizeToken_good.
    + apply finish_join; assumption.
Qed.

Lemma normalize_chars_join (T : list chars) :
  T <> [] -> Forall good T ->
  normalize_chars (Js.join [space] T) = Js.join [space] (map normalizeToken T).
Proof.
  intros Hne HT. rewrite normalize_chars_unfold, collapse_join by assumption.
  apply finish_join; assumption.
Qed.

Lemma normalize_chars_idem (l : chars) :
  forallb plain_char l = true ->
  normalize_chars (normalize_chars l) = normalize_chars l.
Proof.
  intros Hp. rewrite (normalize_chars_unfold l).
  destruct (collapse_tidy l Hp) as [E|(T & Hne & HT & E)]; rewrite E.
  - reflexivity.
  - rewrite finish_join by assumption.
    rewrite normalize_chars_join.
    + rewrite map_map. f_equal. apply map_ext.
      intros t. apply normalizeToken_idem.
    + destruct T; [contradiction | discriminate].
    + apply Forall_good_map; auto using normalizeToken_good.
Qed.

Lemma normalizeStreetName_idem_plain (s : string) :
  plain s ->
  normalizeStreetName (normalizeStreetName s) = normalizeStreetName s.
Proof.
  intros Hp. unfold normalizeStreetName.
  destruct (String.eqb s "") eqn:Es; [reflexivity |].
  destruct (String.eqb_spec (to_string (normalize_chars (of_string s))) "")
    as [E|E]; [symmetry; exact E |].
  rewrite of_to_string, normalize_chars_idem by exact Hp. reflexivity.
Qed.

(** C1 (as amended). On every string made only of word characters
    (letters, digits, underscore) and whitespace, normalising twice gives
    the same string as normalising once; the steps are applied in the order
    trim, collapse commas, collapse whitespace, selective Title Case, strip a
    trailing comma, expand abbreviations. *)
Theorem normalizeStreetName_idempotent_plain (s : string) :
  plain s ->
  normalizeStreetName (normalizeStreetName s) = normalizeStreetName s
  /\ normalizeStreetName s =
       (if String.eqb s "" then ""
        else to_string
               (expandAbbreviations
                  (replace_first re_trailing_comma ""
                     (Js.join [space]
                        (map titleCase
                           (Js.split space
                              (replace_all re_spaces " "
                                 (replace_all re_commas ","
                                    (Js.trim (of_string s)))))))))).
Proof.
  intros Hp. split; [apply normalizeStreetName_idem_plain, Hp | reflexivity].
Qed.

Lemma normalizeStreetName_idempotent_plain_witness :
  normalizeStreetName (normalizeStreetName "OAK   AVE  mg  rd")
    = normalizeStreetName "OAK   AVE  mg  rd".
Proof.
  apply (normalizeStreetName_idempotent_plain "OAK   AVE  mg  rd").
  reflexivity.
Defined.

(** C1 (counterexample). A comma that stands alone before the end is
    stripped and leaves the space before it, which only a second pass
    trims. *)
Lemma normalizeStreetName_not_idempotent :
  normalizeStreetName "Main St ," = "Main Street "
  /\ normalizeStreetName (normalizeStreetName "Main St ,") = "Main Street"
  /\ normalizeStreetName (normalizeStreetName "Main St ,")
       <> normalizeStreetName "Main St ,".
Proof. repeat split; vm_compute; try reflexivity; discriminate. Qed.

(** ** The address of a successful detection *)



Lemma of_string_app (a b : string) :
  of_string (a ++ b)%string = of_string a ++ of_string b.
Proof. induction a as [|c a IH]; simpl; [reflexivity |]. f_equal. exact IH. Qed.



Lemma trimStart_spaces (l : chars) :
  forallb Char.is_space (Js.trimStart l) = true ->
  forallb Char.is_space l = true.
Proof.
  induction l as [|c t IH]; simpl; [reflexivity |].
  destruct (Char.is_space c) eqn:E; simpl; [exact IH |].
  rewrite E. discriminate.
Qed.

Lemma spaces_no_word (l : chars) :
  forallb Char.is_space l = true -> existsb Char.is_word l = false.
Proof.
  induction l as [|c t IH]; simpl; [reflexivity |].
  intros H. apply andb_prop in H as [Hc Ht]. rewrite (IH Ht), orb_false_r.
  destruct (Char.is_word c) eqn:E; [| reflexivity].
  apply word_not_space in E. congruence.
Qed.

Lemma join_nonempty (T : list chars) :
  T <> [] -> Forall good T -> Js.join [space] T <> [].
Proof.
  intros Hne HT. destruct (join_head T Hne HT) as (c & x & -> & _).
  discriminate.
Qed.

Lemma to_string_nonempty (l : chars) : l <> [] -> to_string l <> "".
Proof. destruct l; [contradiction | discriminate]. Qed.

(** A wordy string is normalised to a non-empty string, which the
    normaliser leaves as it is. *)
Lemma normalize_wordy (s : string) :
  wordy s ->
  normalizeStreetName s <> ""
  /\ normalizeStreetName (normalizeStreetName s) = normalizeStreetName s.
Proof.
  intros [Hp Hw]. split; [| apply normalizeStreetName_idem_plain, Hp].
  unfold normalizeStreetName.
  destruct (String.eqb_spec s "") as [->|Hs]; [discriminate |].
  apply to_string_nonempty. rewrite normalize_chars_unfold.
  destruct (collapse_tidy _ Hp) as [E|(T & Hne & HT & E)].
  - rewrite collapse_unfold in E by exact Hp.
    apply squeeze_nil_spaces, trimEnd_spaces, trimStart_spaces,
      spaces_no_word in E. congruence.
  - rewrite E, finish_join by assumption.
    apply join_nonempty.
    + destruct T; [contradiction | discriminate].
    + apply Forall_good_map; auto using normalizeToken_good.
Qed.















(** X3. With nothing but commas in the geocoder's fields the run succeeds
    too, with an empty street name and an empty city: the check for an empty
    street name comes before the last normalisation. *)
Theorem detectLocation_success_empty_street :
  exists r d,
    returned (detectLocation (world_found address_only_commas)) = Some r
    /\ detect_state r = Success
    /\ detect_data r = Some d
    /\ street_name (address d) = ""
    /\ city (address d) = "".
Proof. eexists _, _. repeat split; reflexivity. Qed.


(** X4. Every string of word characters and whitespace that contains a
    word character is normalised to a non-empty string, which the normaliser
    leaves unchanged. *)
Theorem normalizeStreetName_wordy (s : string) :
  wordy s ->
  normalizeStreetName s <> ""
  /\ normalizeStreetName (normalizeStreetName s) = normalizeStreetName s.
Proof. exact (normalize_wordy s). Qed.

Lemma normalizeStreetName_wordy_witness :
  normalizeStreetName "canal walk" <> ""
  /\ normalizeStreetName (normalizeStreetName "canal walk")
       = normalizeStreetName "canal walk".
Proof. apply (normalizeStreetName_wordy "canal walk"). split; reflexivity. Defined.

(* ===================================================================== *)
(** * The rest of the code: reports, statistics, the dashboard handlers *)
(* ===================================================================== *)

Ltac flow_unfold :=
  unfold outcome, acts, mbind, mret, Flow_bind, Flow_ret, act, raise, attempt,
    finally, set, call_createClient in *.

(** ** createReport *)

(** X5. [createReport] issues one insert, of the report it was given with
    the status forced to ['open'] whatever status the caller put in it, and
    turns the answer into [{ data, error }]: the row with no error when the
    insert answered without one, no row and the error otherwise.  When
    [createClient()] throws, the exception leaves [createReport] before any
    insert. *)
Theorem createReport_inserts_open (b : Backend) (report : Insert.t) :
  (createClient b = None ->
   exists row,
     inserted (acts (createReport b report)) = [row]
     /\ Insert.status row = Some StatusOpen
     /\ Insert.image_url row = Insert.image_url report
     /\ Insert.latitude row = Insert.latitude report
     /\ Insert.longitude row = Insert.longitude report
     /\ Insert.street_name row = Insert.street_name report
     /\ Insert.city row = Insert.city report
     /\ Insert.description row = Insert.description report
     /\ outcome (createReport b report)
        = Some match reports_insert b row with
               | InsertAnswered d None => {| data := d; error := None |}
               | InsertAnswered _ (Some e) => {| data := None; error := Some e |}
               | InsertRejected t => {| data := None; error := Some t |}
               end)
  /\ (forall t,
        createClient b = Some t ->
        snd (createReport b report) = inl t
        /\ inserted (acts (createReport b report)) = []).
Proof.
  split.
  - intros Hc. exists (as_open report).
    unfold createReport, await_insert. flow_unfold. rewrite Hc. simpl.
    destruct (reports_insert b (as_open report)) as [t|d [e|]]; simpl;
      repeat split; reflexivity.
  - intros t Hc. unfold createReport. flow_unfold. rewrite Hc. simpl.
    split; reflexivity.
Qed.

(** ** uploadReportImage *)

Lemma split_go_nonempty (sep : ascii) (cur l : chars) :
  Js.split_go sep cur l <> [].
Proof.
  revert cur. induction l as [|c t IH]; intros cur; simpl; [discriminate |].
  destruct (Ascii.eqb c sep); [discriminate | apply IH].
Qed.

Lemma last_cons_nonempty (x : chars) (l : list chars) :
  l <> [] -> List.last (x :: l) [] = List.last l [].
Proof. destruct l; [contradiction | reflexivity]. Qed.

Lemma split_go_last (sep : ascii) (l cur : chars) :
  let x := List.last (Js.split_go sep cur l) [] in
  (~ In sep l /\ x = rev cur ++ l)
  \/ (exists stem, l = stem ++ sep :: x /\ ~ In sep x).
Proof.
  revert cur. induction l as [|c t IH]; intros cur; simpl.
  - left. split; [tauto | rewrite app_nil_r; reflexivity].
  - destruct (Ascii.eqb_spec c sep) as [->|Hne].
    + rewrite last_cons_nonempty by apply split_go_nonempty.
      right. destruct (IH []) as [[Hno Hx]|(stem & Hl & Hno)].
      * exists []. simpl in *. rewrite Hx. split; [reflexivity | exact Hno].
      * exists (sep :: stem). simpl. split; [f_equal; exact Hl | exact Hno].
    + destruct (IH (c :: cur)) as [[Hno Hx]|(stem & Hl & Hno)].
      * left. split; [intros [E|E]; [congruence | tauto] |].
        rewrite Hx. simpl. rewrite <- app_assoc. reflexivity.
      * right. exists (c :: stem). simpl. split; [f_equal; exact Hl | exact Hno].
Qed.

Lemma to_string_app (a b : chars) :
  to_string (a ++ b) = (to_string a ++ to_string b)%string.
Proof. induction a as [|c a IH]; simpl; [reflexivity |]. rewrite IH. reflexivity. Qed.

(** X6. The extension [uploadReportImage] gives the stored file is the text
    after the last dot of the file's name, and the whole name when it has no
    dot; it never contains a dot.  The storage path is "reports/", the
    clock, a dash, the random digits from the eighth on, a dot and that
    extension. *)
Theorem fileExt_after_last_dot (file : File) :
  let name := file_name file in
  let ext := fileExt file in
  (In dot (of_string ext) -> False)
  /\ (((In dot (of_string name) -> False) /\ ext = name)
      \/ exists stem, name = (stem ++ "." ++ ext)%string)
  /\ forall b,
      filePath b file
      = ("reports/" ++ decimal (Date_now b) ++ "-"
         ++ substring 7 (Math_random_base36 b) ++ "." ++ ext)%string.
Proof.
  intros name ext. subst name ext. unfold fileExt, Js.split.
  pose proof (split_go_last dot (of_string (file_name file)) []) as H.
  simpl in H.
  set (x := List.last (Js.split_go dot [] (of_string (file_name file))) []) in *.
  rewrite of_to_string.
  destruct H as [[Hno Hx]|(stem & Hl & Hno)].
  - split; [rewrite Hx; exact Hno |]. split; [| reflexivity].
    left. split; [exact Hno |]. rewrite Hx. apply to_of_string.
  - split; [exact Hno |]. split; [| reflexivity].
    right. exists (to_string stem).
    rewrite <- (to_of_string (file_name file)), Hl, to_string_app.
    reflexivity.
Qed.

(** X7. [uploadReportImage] uploads the file once, to the bucket
    "waste-reports" under [filePath], never overwriting ([upsert] is false),
    and does not throw once [createClient()] has returned: it answers the
    public URL of that path with no error when the storage accepted the
    file, and no URL with the storage's error when it refused or the call
    was rejected. *)
Theorem uploadReportImage_outcome (b : Backend) (file : File) :
  createClient b = None ->
  let path := filePath b file in
  (exists before after_,
      acts (uploadReportImage b file)
      = before ++ ActStorageUpload "waste-reports" path file "3600" false
               :: after_
      /\ uploaded before = [] /\ uploaded after_ = [])
  /\ outcome (uploadReportImage b file)
     = Some match storage_upload b path file with
            | UploadAnswered None =>
                {| data := Some (storage_getPublicUrl b path); error := None |}
            | UploadAnswered (Some e) => {| data := None; error := Some e |}
            | UploadRejected t => {| data := None; error := Some t |}
            end.
Proof.
  intros Hc path. subst path.
  unfold uploadReportImage, await_upload. flow_unfold. rewrite Hc. simpl.
  destruct (storage_upload b (filePath b file) file) as [t|[e|]]; simpl;
    (split; [eexists [_], _; split; [reflexivity | split; reflexivity]
            | reflexivity]).
Qed.

(** ** getStreetStatistics: grouping the reports by street *)

Lemma has_key_In (k : string) (m : list (string * Entry.t)) :
  has_key k m = true <-> In k (fst <$> m).
Proof.
  unfold has_key. rewrite existsb_exists. split.
  - intros (x & Hx & E). apply String.eqb_eq in E. subst. exact Hx.
  - intros H. exists k. split; [exact H | apply String.eqb_refl].
Qed.

Lemma record_report_keys (later : string -> string -> bool) (r : StatRow.t)
      (m : list (string * Entry.t)) :
  fst <$> Analytics.record_report later r m
  = (fst <$> m)
      ++ (if has_key (StatRow.street_name r) m then []
          else [StatRow.street_name r]).
Proof.
  induction m as [|[k e] m IH]; [reflexivity |].
  unfold has_key in *. cbn [Analytics.record_report fmap list_fmap existsb fst].
  rewrite (String.eqb_sym (StatRow.street_name r) k).
  destruct (String.eqb k (StatRow.street_name r)) eqn:E.
  - cbn. rewrite app_nil_r. reflexivity.
  - cbn. f_equal. exact IH.
Qed.

Lemma record_report_In (later : string -> string -> bool) (r : StatRow.t)
      (m : list (string * Entry.t)) (k : string) (e' : Entry.t) :
  NoDup (fst <$> m) ->
  In (k, e') (Analytics.record_report later r m) ->
  (k <> StatRow.street_name r /\ In (k, e') m)
  \/ (k = StatRow.street_name r
      /\ ((exists e, In (k, e) m /\ e' = Analytics.count_in later r e)
          \/ (has_key k m = false /\ e' = Analytics.first_entry r))).
Proof.
  induction m as [|[k0 e0] m IH]; intros Hnd Hin.
  - simpl in Hin. destruct Hin as [[= <- <-]|[]]. right. split; auto.
  - cbn [fmap list_fmap fst] in Hnd. apply NoDup_cons in Hnd as [Hk0 Hnd].
    cbn [Analytics.record_report] in Hin.
    destruct (String.eqb_spec k0 (StatRow.street_name r)) as [E|E].
    + destruct Hin as [[= <- <-]|Hin].
      * right. split; [exact E |]. left. exists e0. split; [left |]; reflexivity.
      * left. split; [| right; exact Hin].
        intros ->. apply Hk0. rewrite E.
        apply list_elem_of_In, (in_map fst _ _ Hin).
    + destruct Hin as [[= <- <-]|Hin].
      * left. split; [exact E | left; reflexivity].
      * destruct (IH Hnd Hin) as [[Hne H]|[-> [(e & H & He)|[Hk He]]]].
        -- left. split; [exact Hne | right; exact H].
        -- right. split; [reflexivity |]. left. exists e. split; [right |]; auto.
        -- right. split; [reflexivity |]. right. split; [| exact He].
           unfold has_key in *. cbn. rewrite Hk, orb_false_r.
           apply String.eqb_neq. congruence.
Qed.

Lemma record_report_NoDup (later : string -> string -> bool) (r : StatRow.t)
      (m : list (string * Entry.t)) :
  NoDup (fst <$> m) -> NoDup (fst <$> Analytics.record_report later r m).
Proof.
  intros Hnd. rewrite record_report_keys.
  destruct (has_key _ m) eqn:E; [rewrite app_nil_r; exact Hnd |].
  apply NoDup_app. split; [exact Hnd |]. split; [| apply NoDup_singleton].
  intros x Hx Hx'. apply list_elem_of_In in Hx'. destruct Hx' as [<-|[]].
  apply list_elem_of_In, has_key_In in Hx. congruence.
Qed.

Lemma group_by_street_snoc (later : string -> string -> bool)
      (rows : list StatRow.t) (r : StatRow.t) :
  Analytics.group_by_street later (rows ++ [r])
  = Analytics.record_report later r (Analytics.group_by_street later rows).
Proof. unfold Analytics.group_by_street. rewrite fold_left_app. reflexivity. Qed.

Lemma rows_of_snoc (k : string) (rows : list StatRow.t) (r : StatRow.t) :
  rows_of k (rows ++ [r])
  = rows_of k rows ++ (if on_street k r then [r] else []).
Proof.
  unfold rows_of. rewrite List.filter_app. simpl.
  destruct (on_street k r); reflexivity.
Qed.

Lemma summary_snoc (later : string -> string -> bool) (l : list StatRow.t)
      (r : StatRow.t) (e : Entry.t) :
  summary later l = Some e ->
  summary later (l ++ [r]) = Some (Analytics.count_in later r e).
Proof.
  destruct l as [|r0 l]; [discriminate |]. simpl. intros [= <-].
  rewrite fold_left_app. reflexivity.
Qed.

(** The grouping keeps one entry per street, and the entry of a street is
    the summary of that street's reports. *)
Lemma group_by_street_inv (later : string -> string -> bool)
      (rows : list StatRow.t) :
  NoDup (fst <$> Analytics.group_by_street later rows)
  /\ (forall k, has_key k (Analytics.group_by_street later rows) = true
                <-> rows_of k rows <> [])
  /\ (forall k e, In (k, e) (Analytics.group_by_street later rows) ->
                  summary later (rows_of k rows) = Some e).
Proof.
  induction rows as [|r rows IH] using rev_ind.
  - split; [constructor |]. split.
    + intros k. split; [discriminate | intros H; contradiction].
    + intros k e [].
  - destruct IH as (Hnd & Hkeys & Hsum).
    rewrite group_by_street_snoc.
    split; [apply record_report_NoDup, Hnd |]. split.
    + intros k. rewrite has_key_In, record_report_keys, in_app_iff,
        <- has_key_In, Hkeys, rows_of_snoc.
      unfold on_street. rewrite (String.eqb_sym _ k).
      destruct (String.eqb_spec k (StatRow.street_name r)) as [->|Hne].
      * split; [intros _ E; apply app_eq_nil in E as [_ E]; discriminate |].
        intros _. destruct (has_key _ _) eqn:Ek.
        -- left. apply Hkeys, Ek.
        -- right. left. reflexivity.
      * rewrite app_nil_r. split; [| tauto].
        intros [H|H]; [exact H |].
        destruct (has_key _ _); simpl in H; [tauto |].
        destruct H as [E|[]]. congruence.
    + intros k e Hin. rewrite rows_of_snoc.
      destruct (record_report_In later r _ k e Hnd Hin)
        as [[Hne H]|[-> [(e0 & H & ->)|[Hk ->]]]].
      * unfold on_street.
        destruct (String.eqb_spec (StatRow.street_name r) k);
          [congruence |]. rewrite app_nil_r. apply Hsum, H.
      * unfold on_street. rewrite String.eqb_refl.
        apply summary_snoc, Hsum, H.
      * unfold on_street. rewrite String.eqb_refl.
        assert (E : rows_of (StatRow.street_name r) rows = []).
        { destruct (rows_of _ rows) eqn:E; [reflexivity |].
          assert (Hk' : has_key (StatRow.street_name r)
                          (Analytics.group_by_street later rows) = true)
            by (apply Hkeys; rewrite E; discriminate).
          congruence. }
        rewrite E. reflexivity.
Qed.

Lemma with_status_cons (s : ReportStatus) (r : StatRow.t) (l : list StatRow.t) :
  with_status s (r :: l) = Analytics.one_if (Analytics.is_status s r) + with_status s l.
Proof.
  unfold with_status. simpl. destruct (Analytics.is_status s r); reflexivity.
Qed.

Lemma with_status_total (l : list StatRow.t) :
  with_status StatusOpen l + with_status StatusInProgress l
  + with_status StatusResolved l + with_status StatusFalseReport l
  = length l.
Proof.
  induction l as [|r l IH]; [reflexivity |].
  rewrite !with_status_cons. simpl length. rewrite <- IH.
  unfold Analytics.is_status.
  destruct (StatRow.status r); simpl; lia.
Qed.

Lemma fold_count_in (later : string -> string -> bool) (rest : list StatRow.t)
      (e0 : Entry.t) :
  let e := fold_left (fun e r => Analytics.count_in later r e) rest e0 in
  Entry.total e = Entry.total e0 + length rest
  /\ Entry.open e = Entry.open e0 + with_status StatusOpen rest
  /\ Entry.inProgress e = Entry.inProgress e0 + with_status StatusInProgress rest
  /\ Entry.resolved e = Entry.resolved e0 + with_status StatusResolved rest
  /\ Entry.falseReports e
     = Entry.falseReports e0 + with_status StatusFalseReport rest
  /\ Entry.city e = Entry.city e0
  /\ In (Entry.lastDate e) (Entry.lastDate e0 :: (StatRow.created_at <$> rest)).
Proof.
  revert e0. induction rest as [|r rest IH]; intros e0.
  - unfold with_status. simpl. repeat split; try lia. left. reflexivity.
  - cbn [fold_left]. specialize (IH (Analytics.count_in later r e0)).
    cbv zeta in *. destruct IH as (H1 & H2 & H3 & H4 & H5 & H6 & H7).
    rewrite H1, H2, H3, H4, H5, H6, !with_status_cons, fmap_cons. simpl.
    repeat split; try lia.
    destruct H7 as [H7|H7]; [| right; right; exact H7].
    rewrite <- H7. unfold Analytics.count_in. simpl.
    destruct (later _ _); auto.
Qed.

Lemma summary_counts (later : string -> string -> bool) (l : list StatRow.t)
      (e : Entry.t) :
  summary later l = Some e ->
  Entry.total e = length l
  /\ Entry.open e = with_status StatusOpen l
  /\ Entry.inProgress e = with_status StatusInProgress l
  /\ Entry.resolved e = with_status StatusResolved l
  /\ Entry.falseReports e = with_status StatusFalseReport l
  /\ (exists r0 rest, l = r0 :: rest /\ Entry.city e = StatRow.city r0)
  /\ In (Entry.lastDate e) (StatRow.created_at <$> l).
Proof.
  destruct l as [|r0 rest]; [discriminate |]. simpl. intros [= <-].
  destruct (fold_count_in later rest (Analytics.first_entry r0))
    as (H1 & H2 & H3 & H4 & H5 & H6 & H7).
  rewrite H1, H2, H3, H4, H5, H6, !with_status_cons. simpl.
  repeat split; try lia; eauto.
Qed.

Lemma statistics_In (later : string -> string -> bool) (rows : list StatRow.t)
      (s : StreetStatistics) :
  In s (Analytics.statistics later rows) ->
  exists e, In (streetName s, e) (Analytics.group_by_street later rows)
            /\ s = Analytics.to_statistics (streetName s, e).
Proof.
  unfold Analytics.statistics. intros H.
  apply list_elem_of_In, list_elem_of_fmap in H as ([k e] & -> & H).
  exists e. split; [apply list_elem_of_In, H | reflexivity].
Qed.

Lemma statistics_names (later : string -> string -> bool)
      (rows : list StatRow.t) :
  streetName <$> Analytics.statistics later rows
  = fst <$> Analytics.group_by_street later rows.
Proof.
  unfold Analytics.statistics. rewrite <- list_fmap_compose.
  apply list_fmap_ext. intros i [k e] _. reflexivity.
Qed.

Lemma rows_of_nonempty (k : string) (rows : list StatRow.t) :
  rows_of k rows <> [] <-> exists r, In r rows /\ StatRow.street_name r = k.
Proof.
  unfold rows_of. split.
  - destruct (List.filter _ rows) as [|r l] eqn:E; [contradiction |].
    intros _. assert (H : In r (List.filter (on_street k) rows))
      by (rewrite E; left; reflexivity).
    apply filter_In in H as [H1 H2]. exists r. split; [exact H1 |].
    apply String.eqb_eq, H2.
  - intros (r & Hr & <-) E.
    assert (H : In r (List.filter (on_street (StatRow.street_name r)) rows)).
    { apply filter_In. split; [exact Hr | apply String.eqb_refl]. }
    rewrite E in H. exact H.
Qed.

(** X8. [getStreetStatistics] answers one entry per street name that occurs
    in the reports, in the order the names first occur: a further report
    adds its street at the end when it is new and leaves the order alone
    when it is not. *)
Theorem statistics_one_entry_per_street (later : string -> string -> bool)
        (rows : list StatRow.t) :
  NoDup (streetName <$> Analytics.statistics later rows)
  /\ (forall k, In k (streetName <$> Analytics.statistics later rows)
                <-> exists r, In r rows /\ StatRow.street_name r = k)
  /\ (forall r,
        streetName <$> Analytics.statistics later (rows ++ [r])
        = (streetName <$> Analytics.statistics later rows)
            ++ (if existsb (String.eqb (StatRow.street_name r))
                           (streetName <$> Analytics.statistics later rows)
                then [] else [StatRow.street_name r])).
Proof.
  destruct (group_by_street_inv later rows) as (Hnd & Hkeys & _).
  rewrite !statistics_names. split; [exact Hnd |]. split.
  - intros k. rewrite <- has_key_In, Hkeys. apply rows_of_nonempty.
  - intros r. rewrite statistics_names, group_by_street_snoc.
    apply record_report_keys.
Qed.

Lemma record_report_sum (later : string -> string -> bool) (r : StatRow.t)
      (m : list (string * Entry.t)) :
  sum_list ((fun kv => Entry.total (snd kv)) <$> Analytics.record_report later r m)
  = S (sum_list ((fun kv => Entry.total (snd kv)) <$> m)).
Proof.
  induction m as [|[k e] m IH]; [reflexivity |].
  cbn [Analytics.record_report].
  destruct (String.eqb k (StatRow.street_name r)).
  - rewrite !fmap_cons. simpl. lia.
  - rewrite !fmap_cons. cbn [sum_list sum_list_with]. rewrite IH. simpl. lia.
Qed.

(** X9. In the answer of [getStreetStatistics] the entry of a street counts
    exactly the reports that carry that street name, whatever their city:
    its total is their number (at least one), its four status counts are
    the numbers of them with that status, and the four add up to the total.
    The totals of all entries add up to the number of reports. *)
Theorem statistics_counts (later : string -> string -> bool)
        (rows : list StatRow.t) :
  (forall s, In s (Analytics.statistics later rows) ->
     let mine := rows_of (streetName s) rows in
     totalReports s = length mine
     /\ 1 <= totalReports s
     /\ openReports s = with_status StatusOpen mine
     /\ inProgressReports s = with_status StatusInProgress mine
     /\ resolvedReports s = with_status StatusResolved mine
     /\ falseReports s = with_status StatusFalseReport mine
     /\ openReports s + inProgressReports s + resolvedReports s
        + falseReports s = totalReports s)
  /\ sum_list (totalReports <$> Analytics.statistics later rows) = length rows.
Proof.
  split.
  - intros s Hs mine. subst mine.
    destruct (statistics_In later rows s Hs) as (e & Hin & ->).
    destruct (group_by_street_inv later rows) as (_ & _ & Hsum).
    cbn [Analytics.to_statistics streetName fst snd] in *.
    destruct (summary_counts later _ e (Hsum _ _ Hin))
      as (H1 & H2 & H3 & H4 & H5 & (r0 & rest & Hl & _) & _).
    simpl. rewrite H1, H2, H3, H4, H5.
    repeat split; try reflexivity.
    + rewrite Hl. simpl. lia.
    + apply with_status_total.
  - unfold Analytics.statistics. rewrite <- list_fmap_compose.
    induction rows as [|r rows IH] using rev_ind; [reflexivity |].
    rewrite group_by_street_snoc, length_app. simpl.
    change (totalReports ∘ Analytics.to_statistics)
      with (fun kv : string * Entry.t => Entry.total (snd kv)) in *.
    rewrite record_report_sum, IH. lia.
Qed.

(** X10. The city of an entry is the city of the first report with that
    street name (reports of a street of the same name in another city are
    counted under it), and its last report date is the date of one of the
    street's reports. *)
Theorem statistics_city_of_first_report (later : string -> string -> bool)
        (rows : list StatRow.t) (s : StreetStatistics) :
  In s (Analytics.statistics later rows) ->
  exists r0 rest,
    rows_of (streetName s) rows = r0 :: rest
    /\ stat_city s = StatRow.city r0
    /\ In (lastReportDate s) (StatRow.created_at <$> r0 :: rest).
Proof.
  intros Hs. destruct (statistics_In later rows s Hs) as (e & Hin & ->).
  destruct (group_by_street_inv later rows) as (_ & _ & Hsum).
  cbn [Analytics.to_statistics streetName fst snd] in *.
  destruct (summary_counts later _ e (Hsum _ _ Hin))
    as (_ & _ & _ & _ & _ & (r0 & rest & Hl & Hc) & Hd).
  exists r0, rest. rewrite <- Hl. simpl. auto.
Qed.

Lemma statistics_city_of_first_report_witness :
  exists r0 rest,
    rows_of "Oak Avenue" sample_rows = r0 :: rest
    /\ "Pune" = StatRow.city r0
    /\ In "2024-04-21" (StatRow.created_at <$> r0 :: rest).
Proof.
  apply (statistics_city_of_first_report sample_later sample_rows
           {| streetName := "Oak Avenue"; stat_city := "Pune";
              totalReports := 3; openReports := 2; inProgressReports := 1;
              resolvedReports := 0; falseReports := 0;
              lastReportDate := "2024-04-21" |}).
  vm_compute. auto.
Defined.

Lemma fold_latest (later : string -> string -> bool) (ts : string -> Z)
      (rest : list StatRow.t) (e0 : Entry.t) :
  (forall a b, later a b = (ts b <? ts a)%Z) ->
  let e := fold_left (fun e r => Analytics.count_in later r e) rest e0 in
  (ts (Entry.lastDate e0) <= ts (Entry.lastDate e))%Z
  /\ forall r, In r rest ->
               (ts (StatRow.created_at r) <= ts (Entry.lastDate e))%Z.
Proof.
  intros Hl. revert e0. induction rest as [|r rest IH]; intros e0.
  - simpl. split; [lia | intros r []].
  - cbn [fold_left]. specialize (IH (Analytics.count_in later r e0)).
    cbv zeta in *. destruct IH as [H1 H2].
    assert (H0 : (ts (Entry.lastDate e0)
                  <= ts (Entry.lastDate (Analytics.count_in later r e0)))%Z
                 /\ (ts (StatRow.created_at r)
                     <= ts (Entry.lastDate (Analytics.count_in later r e0)))%Z).
    { unfold Analytics.count_in. simpl. rewrite Hl.
      destruct (Z.ltb_spec (ts (Entry.lastDate e0)) (ts (StatRow.created_at r)));
        lia. }
    split; [lia |]. intros r' [<-|Hr]; [lia | apply H2, Hr].
Qed.

(** X11. When the dates of the reports compare by their timestamps, the
    last report date of an entry is the latest date among the reports of
    its street. *)
Theorem statistics_latest_date (later : string -> string -> bool)
        (ts : string -> Z) (rows : list StatRow.t) (s : StreetStatistics)
        (r : StatRow.t) :
  (forall a b, later a b = (ts b <? ts a)%Z) ->
  In s (Analytics.statistics later rows) ->
  In r rows -> StatRow.street_name r = streetName s ->
  (ts (StatRow.created_at r) <= ts (lastReportDate s))%Z.
Proof.
  intros Hl Hs Hr Hk.
  destruct (statistics_In later rows s Hs) as (e & Hin & ->).
  destruct (group_by_street_inv later rows) as (_ & _ & Hsum).
  cbn [Analytics.to_statistics streetName lastReportDate fst snd] in *.
  specialize (Hsum _ _ Hin).
  assert (Hmine : In r (rows_of (streetName
            (Analytics.to_statistics (StatRow.street_name r, e))) rows)).
  { apply filter_In. split; [exact Hr | apply String.eqb_refl]. }
  cbn [Analytics.to_statistics streetName fst] in Hmine.
  rewrite <- Hk in Hsum.
  destruct (rows_of (StatRow.street_name r) rows) as [|r0 rest];
    [discriminate |].
  simpl in Hsum. injection Hsum as <-.
  destruct (fold_latest later ts rest (Analytics.first_entry r0) Hl)
    as [H1 H2].
  destruct Hmine as [<-|Hmine]; [exact H1 | apply H2, Hmine].
Qed.

Lemma statistics_latest_date_witness :
  (sample_timestamp "2024-01-09" <= sample_timestamp "2024-04-21")%Z.
Proof.
  apply (statistics_latest_date sample_later sample_timestamp sample_rows
           {| streetName := "Oak Avenue"; stat_city := "Pune";
              totalReports := 3; openReports := 2; inProgressReports := 1;
              resolvedReports := 0; falseReports := 0;
              lastReportDate := "2024-04-21" |}
           (stat_row "Oak Avenue" "Mumbai" StatusOpen "2024-01-09")).
  - reflexivity.
  - vm_compute. auto.
  - vm_compute. auto 10.
  - reflexivity.
Defined.

Lemma statistics_filtered_rows (later : string -> string -> bool)
      (k : string) (r0 : StatRow.t) (rest : list StatRow.t) :
  (forall r, In r (r0 :: rest) -> StatRow.street_name r = k) ->
  exists e,
    Analytics.group_by_street later (r0 :: rest) = [(k, e)]
    /\ summary later (r0 :: rest) = Some e.
Proof.
  intros Hk.
  assert (Hall : rows_of k (r0 :: rest) = r0 :: rest).
  { unfold rows_of. apply forallb_filter_id. apply forallb_forall.
    intros r Hr. unfold on_street. rewrite (Hk r Hr). apply String.eqb_refl. }
  destruct (group_by_street_inv later (r0 :: rest)) as (Hnd & Hkey & Hsum).
  set (G := Analytics.group_by_street later (r0 :: rest)) in *.
  assert (Hkeys : forall k' e', In (k', e') G -> k' = k).
  { intros k' e' Hin. specialize (Hsum _ _ Hin).
    destruct (rows_of k' (r0 :: rest)) as [|r l] eqn:E; [discriminate |].
    assert (Hr : In r (rows_of k' (r0 :: rest))) by (rewrite E; left; reflexivity).
    apply filter_In in Hr as [Hr Hon]. unfold on_street in Hon.
    apply String.eqb_eq in Hon. rewrite <- Hon. apply Hk, Hr. }
  assert (Hhas : has_key k G = true).
  { apply Hkey. rewrite Hall. discriminate. }
  destruct G as [|[k1 e1] G'].
  - discriminate.
  - assert (k1 = k) by (apply (Hkeys k1 e1); left; reflexivity). subst k1.
    destruct G' as [|[k2 e2] G''].
    + exists e1. split; [reflexivity |].
      rewrite <- Hall. apply Hsum. left. reflexivity.
    + assert (k2 = k) by (apply (Hkeys k2 e2); right; left; reflexivity).
      subst k2. simpl in Hnd. inversion Hnd as [|? ? Hnot _]. exfalso.
      apply Hnot. apply list_elem_of_here.
Qed.

(** X12. When every row of the answer carries the street that was asked
    for, as a query with an honoured filter answers, the statistics have
    exactly one entry: that street, with the number of rows as its total. *)
Theorem statistics_of_one_street (later : string -> string -> bool)
        (k : string) (r0 : StatRow.t) (rest : list StatRow.t) :
  (forall r, In r (r0 :: rest) -> StatRow.street_name r = k) ->
  exists s,
    Analytics.statistics later (r0 :: rest) = [s]
    /\ streetName s = k
    /\ stat_city s = StatRow.city r0
    /\ totalReports s = S (length rest).
Proof.
  intros Hk.
  destruct (statistics_filtered_rows later k r0 rest Hk) as (e & HG & Hs).
  exists (Analytics.to_statistics (k, e)).
  unfold Analytics.statistics. rewrite HG.
  split; [reflexivity |]. split; [reflexivity |].
  destruct (summary_counts later _ e Hs)
    as (Ht & _ & _ & _ & _ & (r & l & Hl & Hc) & _).
  injection Hl as <- <-.
  split; [exact Hc | exact Ht].
Qed.

Lemma statistics_of_one_street_witness :
  exists s,
    Analytics.statistics sample_later (rows_of "Oak Avenue" sample_rows) = [s]
    /\ streetName s = "Oak Avenue"
    /\ stat_city s = "Pune"
    /\ totalReports s = 3.
Proof.
  apply (statistics_of_one_street sample_later "Oak Avenue"
           (stat_row "Oak Avenue" "Pune" StatusOpen "2024-03-02")
           [stat_row "Oak Avenue" "Mumbai" StatusOpen "2024-01-09";
            stat_row "Oak Avenue" "Pune" StatusInProgress "2024-04-21"]).
  simpl. intros r [<-|[<-|[<-|[]]]]; reflexivity.
Defined.

(** X13. Once [createClient()] has returned, [getStreetStatistics] does not
    throw.  It issues one query on "reports", filtered by the street name
    only when the name is non-empty: for the empty name, as for none, the
    whole table is read.  The rows become the statistics; a refused or
    rejected query becomes [{ data: null, error }]; no rows and no error
    become [{ data: null, error: null }]. *)
Theorem getStreetStatistics_outcome (b : Backend) (name : option string) :
  createClient b = None ->
  let asked := if truthy name then name else None in
  acts (Analytics.getStreetStatistics b name)
  = ActSelectReports "reports" "street_name, city, status, created_at" asked
    :: match reports_select b asked with
       | SelectRejected t | SelectAnswered _ (Some t) =>
           [ActConsoleError "Error fetching street statistics:" t]
       | SelectAnswered _ None => []
       end
  /\ outcome (Analytics.getStreetStatistics b name)
     = Some match reports_select b asked with
            | SelectAnswered (Some rows) None =>
                {| data := Some (Analytics.statistics (Date_later b) rows);
                   error := None |}
            | SelectAnswered None None => {| data := None; error := None |}
            | SelectAnswered _ (Some e) => {| data := None; error := Some e |}
            | SelectRejected t => {| data := None; error := Some t |}
            end
  /\ (name = Some "" -> asked = None).
Proof.
  intros Hc asked.
  unfold Analytics.getStreetStatistics, Analytics.await_select. flow_unfold.
  rewrite Hc. fold asked. simpl.
  destruct (reports_select b asked) as [t|[rows|] [e|]]; simpl;
    (split; [reflexivity | split; [reflexivity |]]);
    intros ->; reflexivity.
Qed.

Lemma getStreetStatistics_outcome_witness :
  acts (Analytics.getStreetStatistics backend_ok (Some ""))
  = [ActSelectReports "reports" "street_name, city, status, created_at" None]
  /\ outcome (Analytics.getStreetStatistics backend_ok (Some ""))
     = Some {| data := Some (Analytics.statistics sample_later sample_rows);
               error := None |}
  /\ (Some "" = Some "" -> @None string = None).
Proof.
  apply (getStreetStatistics_outcome backend_ok (Some "")). reflexivity.
Defined.

Lemma uploadReportImage_outcome_witness :
  (exists before after_,
      acts (uploadReportImage backend_ok photo)
      = before
        ++ ActStorageUpload "waste-reports"
             "reports/1713693600000-82mvyr.jpg" photo "3600" false
        :: after_
      /\ uploaded before = [] /\ uploaded after_ = [])
  /\ outcome (uploadReportImage backend_ok photo)
     = Some {| data :=
                 Some "https://example.supabase.co/storage/v1/object/public/waste-reports/reports/1713693600000-82mvyr.jpg";
               error := None |}.
Proof.
  apply (uploadReportImage_outcome backend_ok photo). reflexivity.
Defined.

(** ** The dashboard: setter calls and the state after a handler *)

Lemma setters_app (a b : list Act) : setters (a ++ b) = setters a ++ setters b.
Proof. unfold setters. apply omap_app. Qed.

Lemma inserted_app (a b : list Act) :
  inserted (a ++ b) = inserted a ++ inserted b.
Proof. unfold inserted. apply omap_app. Qed.

Lemma omap_cons_match {A B : Type} (f : A -> option B) (a : A) (l : list A) :
  omap f (a :: l)
  = match f a with Some y => y :: omap f l | None => omap f l end.
Proof. reflexivity. Qed.

Lemma after_setters (st : Dash.State) (m : Flow unit) :
  after st m = fold_left Dash.apply (setters (acts m)) st.
Proof.
  unfold after, setters. generalize (acts m). intros l. revert st.
  induction l as [|a l IH]; intros st; [reflexivity |].
  rewrite omap_cons_match. cbn [fold_left]. rewrite IH.
  unfold replay_act. destruct (setter_of_act a); reflexivity.
Qed.

Lemma setters_located {A : Type} (m : Comp A) :
  setters (acts (located m)) = omap setter_of_event (trace m).
Proof.
  unfold located, acts, trace, setters. simpl.
  induction (fst m) as [|e l IH]; [reflexivity |].
  rewrite fmap_cons, !omap_cons_match. cbn [setter_of_act].
  rewrite IH. reflexivity.
Qed.

Lemma getCurrentLocation_quiet (w : World) :
  omap setter_of_event (trace (getCurrentLocation w)) = [].
Proof.
  unfold getCurrentLocation, isGeolocationSupported.
  destruct (geolocation w) as [gcp|]; [| reflexivity].
  comp_unfold. simpl. destruct (gcp position_options); reflexivity.
Qed.

Lemma reverseGeocode_quiet (w : World) (c : LocationCoordinates) :
  omap setter_of_event (trace (reverseGeocode w c)) = [].
Proof.
  unfold reverseGeocode, reverseGeocode_try, await_fetch, await_json,
    reverseGeocode_catch.
  comp_unfold. simpl.
  destruct (fetch w (nominatim_request c)) as [t|[|] [t|d]]; simpl;
    try reflexivity.
  destruct (json_address d) as [a|]; simpl; [| reflexivity].
  destruct (negb (negb _)); reflexivity.
Qed.

Lemma detectLocation_quiet (w : World) :
  omap setter_of_event (trace (detectLocation w)) = [].
Proof.
  unfold detectLocation.
  pose proof (getCurrentLocation_quiet w) as Hg.
  destruct (getCurrentLocation_cases w) as (tr & o & Heq & Ho).
  rewrite Heq in *. comp_unfold. simpl in *.
  destruct Ho as [(c & Hd & He) | (Hd & st & He & Hst)]; rewrite Hd, He; simpl.
  - pose proof (reverseGeocode_quiet w c) as Hr.
    destruct (reverseGeocode_cases w c) as (tr' & g & Heq' & _).
    rewrite Heq' in *. simpl in *.
    destruct (truthy (error g)), (data g); simpl;
      rewrite !omap_app, Hg, Hr; reflexivity.
  - rewrite omap_app, Hg. reflexivity.
Qed.

(** The setter calls of a run of [requestLocation], in order. *)
Lemma requestLocation_setters (w : World) :
  exists r,
    returned (detectLocation w) = Some r
    /\ ((detect_data r = None
         /\ truthy (detect_error r) = true
         /\ In (detect_state r)
              [Unsupported; PermissionDenied; Timeout; Error; GeocodingFailed]
         /\ omap setter_of_event (trace (requestLocation w))
            = [Dash.setLocationState Detecting; Dash.setLocationError None;
               Dash.setLocationState (detect_state r);
               Dash.setLocationError (detect_error r);
               Dash.setManualLocationMode true])
        \/ (exists d,
              detect_data r = Some d
              /\ omap setter_of_event (trace (requestLocation w))
                 = [Dash.setLocationState Detecting; Dash.setLocationError None;
                    Dash.setCoordinates (Some (coordinates d));
                    Dash.setDetectedStreet (street_name (address d));
                    Dash.setDetectedCity (city (address d));
                    Dash.setLocationSource Auto;
                    Dash.setLocationState Success]
                   ++ match getStreetStatistics w (street_name (address d)) with
                      | StatsThrown _ =>
                          [Dash.setLocationState Error;
                           Dash.setLocationError
                             (Some "An unexpected error occurred");
                           Dash.setManualLocationMode true]
                      | StatsReturned (Some (first :: _)) =>
                          [Dash.setStreetStats (Some first)]
                      | StatsReturned _ => []
                      end)).
Proof.
  unfold requestLocation, requestLocation_try, requestLocation_catch,
    await_getStreetStatistics.
  pose proof (detectLocation_quiet w) as Hs.
  destruct (detectLocation_cases w) as (tr & r & Heq & Hr).
  rewrite Heq in *. exists r. split; [reflexivity |].
  comp_unfold. simpl in *.
  destruct Hr as [(d & Hd & He & Hst) | (Hd & _ & Ht & Hst)].
  - right. exists d. split; [exact Hd |]. rewrite Hd, He. simpl.
    destruct (getStreetStatistics w _) as [t|[[|s l]|]]; simpl;
      rewrite !omap_app, Hs; reflexivity.
  - left. split; [exact Hd |]. split; [exact Ht |]. split; [exact Hst |].
    rewrite Hd, Ht. simpl. rewrite omap_app, Hs.
    unfold js_or. rewrite Ht. reflexivity.
Qed.

Lemma requestLocation_after (w : World) (st : Dash.State) :
  let st' := after st (located (requestLocation w)) in
  exists r,
    returned (detectLocation w) = Some r
    /\ Dash.description st' = Dash.description st
    /\ Dash.uploadedImage st' = Dash.uploadedImage st
    /\ Dash.uploadedFile st' = Dash.uploadedFile st
    /\ Dash.showNotifications st' = Dash.showNotifications st
    /\ Dash.submitting st' = Dash.submitting st
    /\ Dash.submitSuccess st' = Dash.submitSuccess st
    /\ Dash.submitError st' = Dash.submitError st
    /\ match detect_data r with
       | None =>
           Dash.locationState st' = detect_state r
           /\ detect_state r <> Success
           /\ In (detect_state r)
                [Unsupported; PermissionDenied; Timeout; Error;
                 GeocodingFailed]
           /\ Dash.locationError st' = detect_error r
           /\ Dash.manualLocationMode st' = true
           /\ Dash.coordinates st' = Dash.coordinates st
           /\ Dash.detectedStreet st' = Dash.detectedStreet st
           /\ Dash.detectedCity st' = Dash.detectedCity st
           /\ Dash.locationSource st' = Dash.locationSource st
           /\ Dash.streetStats st' = Dash.streetStats st
       | Some d =>
           Dash.coordinates st' = Some (coordinates d)
           /\ Dash.detectedStreet st' = street_name (address d)
           /\ Dash.detectedCity st' = city (address d)
           /\ Dash.locationSource st' = Auto
           /\ match getStreetStatistics w (street_name (address d)) with
              | StatsThrown _ =>
                  Dash.locationState st' = Error
                  /\ Dash.locationError st'
                     = Some "An unexpected error occurred"
                  /\ Dash.manualLocationMode st' = true
                  /\ Dash.streetStats st' = Dash.streetStats st
              | StatsReturned stats =>
                  Dash.locationState st' = Success
                  /\ Dash.locationError st' = None
                  /\ Dash.manualLocationMode st' = Dash.manualLocationMode st
                  /\ Dash.streetStats st'
                     = match stats with
                       | Some (first :: _) => Some first
                       | _ => Dash.streetStats st
                       end
              end
       end.
Proof.
  intros st'. subst st'. rewrite after_setters, setters_located.
  destruct (requestLocation_setters w) as (r & Hr & H). exists r.
  split; [exact Hr |].
  destruct H as [(Hd & _ & Hst & ->) | (d & Hd & ->)]; rewrite Hd.
  - simpl. repeat split; try exact Hst.
    intros E. rewrite E in Hst. simpl in Hst.
    destruct Hst as [F|[F|[F|[F|[F|[]]]]]]; discriminate F.
  - destruct (getStreetStatistics w _) as [t|[[|s l]|]]; simpl;
      repeat split.
Qed.

(** X14. What a run of [requestLocation] leaves in the component.  The
    form, the submit flags and the notifications are untouched.  When the
    detection fails, the state is the one [detectLocation] returned (never
    ['success']), its message is shown and the manual entry opens; the
    coordinates, street and city are left as they were.  When it succeeds,
    the coordinates, street and city are those detected and the source is
    ['auto']; the state is ['success'], unless the statistics query throws:
    then it is ['error'] with the manual entry open.  The street statistics
    change only when the query answers with at least one entry. *)
Theorem requestLocation_settles (w : World) (st : Dash.State) :
  let st' := after st (located (requestLocation w)) in
  exists r,
    returned (detectLocation w) = Some r
    /\ Dash.description st' = Dash.description st
    /\ Dash.uploadedImage st' = Dash.uploadedImage st
    /\ Dash.uploadedFile st' = Dash.uploadedFile st
    /\ Dash.showNotifications st' = Dash.showNotifications st
    /\ Dash.submitting st' = Dash.submitting st
    /\ Dash.submitSuccess st' = Dash.submitSuccess st
    /\ Dash.submitError st' = Dash.submitError st
    /\ match detect_data r with
       | None =>
           Dash.locationState st' = detect_state r
           /\ detect_state r <> Success
           /\ In (detect_state r)
                [Unsupported; PermissionDenied; Timeout; Error;
                 GeocodingFailed]
           /\ Dash.locationError st' = detect_error r
           /\ Dash.manualLocationMode st' = true
           /\ Dash.coordinates st' = Dash.coordinates st
           /\ Dash.detectedStreet st' = Dash.detectedStreet st
           /\ Dash.detectedCity st' = Dash.detectedCity st
           /\ Dash.locationSource st' = Dash.locationSource st
           /\ Dash.streetStats st' = Dash.streetStats st
       | Some d =>
           Dash.coordinates st' = Some (coordinates d)
           /\ Dash.detectedStreet st' = street_name (address d)
           /\ Dash.detectedCity st' = city (address d)
           /\ Dash.locationSource st' = Auto
           /\ match getStreetStatistics w (street_name (address d)) with
              | StatsThrown _ =>
                  Dash.locationState st' = Error
                  /\ Dash.locationError st'
                     = Some "An unexpected error occurred"
                  /\ Dash.manualLocationMode st' = true
                  /\ Dash.streetStats st' = Dash.streetStats st
              | StatsReturned stats =>
                  Dash.locationState st' = Success
                  /\ Dash.locationError st' = None
                  /\ Dash.manualLocationMode st' = Dash.manualLocationMode st
                  /\ Dash.streetStats st'
                     = match stats with
                       | Some (first :: _) => Some first
                       | _ => Dash.streetStats st
                       end
              end
       end.
Proof. exact (requestLocation_after w st). Qed.

(** ** handleSubmit *)

#[local] Arguments truthy : simpl never.

(** The setter calls of the success path, in order. *)
Lemma handleSubmit_try_cases (b : Backend) (st : Dash.State) (file : File) :
  let m := handleSubmit_try b st file in
  let url := storage_getPublicUrl b (filePath b file) in
  (exists c d,
      upload_succeeds b file
      /\ Dash.coordinates st = Some c
      /\ reports_insert b (as_open (report_of st c url)) = InsertAnswered d None
      /\ snd m = inr tt
      /\ inserted (acts m) = [as_open (report_of st c url)]
      /\ In (ActSetTimeout 5000 (Dash.setSubmitSuccess false)) (acts m)
      /\ setters (acts m)
         = [Dash.setSubmitSuccess true; Dash.setDescription "";
            Dash.setUploadedImage None; Dash.setUploadedFile None;
            Dash.setLocationState Idle; Dash.setDetectedStreet "";
            Dash.setDetectedCity ""; Dash.setCoordinates None;
            Dash.setLocationSource Auto; Dash.setManualLocationMode false])
  \/ (exists t,
        snd m = inl t
        /\ setters (acts m) = []
        /\ ((createClient b = Some t /\ inserted (acts m) = [])
            \/ (createClient b = None
                /\ (storage_upload b (filePath b file) file
                    <> UploadAnswered None
                    \/ truthy (Some url) = false)
                /\ t = ErrorObject "Failed to upload image"
                /\ inserted (acts m) = [])
            \/ (upload_succeeds b file
                /\ Dash.coordinates st = None
                /\ t = ErrorObject (null_read_message b)
                /\ inserted (acts m) = [])
            \/ (upload_succeeds b file
                /\ exists c,
                     Dash.coordinates st = Some c
                     /\ inserted (acts m) = [as_open (report_of st c url)]
                     /\ (reports_insert b (as_open (report_of st c url))
                         = InsertRejected t
                         \/ exists d,
                              reports_insert b (as_open (report_of st c url))
                              = InsertAnswered d (Some t))))).
Proof.
  intros m url. subst m url.
  unfold handleSubmit_try, uploadReportImage, await_upload, createReport,
    await_insert, upload_succeeds.
  flow_unfold.
  destruct (createClient b) as [t|] eqn:Hc; simpl.
  { right. exists t. split; [reflexivity |]. split; [reflexivity |].
    left. split; reflexivity. }
  destruct (storage_upload b (filePath b file) file) as [t|[e|]] eqn:Hu; simpl.
  { right. eexists. split; [reflexivity |]. split; [reflexivity |].
    right. left. split; [reflexivity |]. split; [left; discriminate |].
    split; reflexivity. }
  { right. eexists. split; [reflexivity |]. split; [reflexivity |].
    right. left. split; [reflexivity |]. split; [left; discriminate |].
    split; reflexivity. }
  destruct (truthy (Some (storage_getPublicUrl b (filePath b file)))) eqn:Ht;
    simpl.
  2:{ right. eexists. split; [reflexivity |]. split; [reflexivity |].
      right. left. split; [reflexivity |]. split; [right; reflexivity |].
      split; reflexivity. }
  destruct (Dash.coordinates st) as [c|] eqn:Hco; simpl.
  2:{ right. eexists. split; [reflexivity |]. split; [reflexivity |].
      right. right. left. split; [tauto |]. split; [reflexivity |].
      split; reflexivity. }
  destruct (reports_insert b
              (as_open (report_of st c (storage_getPublicUrl b (filePath b file)))))
    as [t|d [e|]] eqn:Hi; simpl.
  - right. exists t. split; [reflexivity |]. split; [reflexivity |].
    right. right. right. split; [tauto |]. exists c.
    split; [reflexivity |]. split; [reflexivity |]. left. exact Hi.
  - right. exists e. split; [reflexivity |]. split; [reflexivity |].
    right. right. right. split; [tauto |]. exists c.
    split; [reflexivity |]. split; [reflexivity |]. right. exists d. exact Hi.
  - left. exists c, d. split; [tauto |]. split; [reflexivity |].
    split; [exact Hi |]. split; [reflexivity |]. split; [reflexivity |].
    split; [| reflexivity]. simpl. tauto.
Qed.

Lemma ready_guards (st : Dash.State) (file : File) :
  ready st file ->
  Dash.uploadedFile st = Some file
  /\ bool_decide (Dash.locationState st = Success) = true
  /\ truthy (Some (Dash.detectedStreet st)) = true
  /\ truthy (Some (Dash.detectedCity st)) = true.
Proof.
  intros (Hf & Hs & Hst & Hci). repeat split; try assumption.
  apply bool_decide_eq_true. exact Hs.
Qed.

(** Past the guards: the acts of [handleSubmit] around those of its [try]
    block. *)
Lemma handleSubmit_ready (b : Backend) (st : Dash.State) (file : File) :
  ready st file ->
  let m := handleSubmit_try b st file in
  snd (handleSubmit b st) = inr tt
  /\ inserted (acts (handleSubmit b st)) = inserted (acts m)
  /\ (forall a, In a (acts m) -> In a (acts (handleSubmit b st)))
  /\ setters (acts (handleSubmit b st))
     = [Dash.setSubmitError None; Dash.setSubmitSuccess false]
       ++ (if wants_default st
           then [Dash.setCoordinates (Some default_center)] else [])
       ++ [Dash.setSubmitting true]
       ++ setters (acts m)
       ++ match snd m with
          | inl t => [Dash.setSubmitError (Some (submit_message t))]
          | inr _ => []
          end
       ++ [Dash.setSubmitting false].
Proof.
  intros Hr m. subst m.
  destruct (ready_guards st file Hr) as (Hf & Hs & Hst & Hci).
  unfold handleSubmit, handleSubmit_catch. rewrite Hf, Hs, Hst, Hci. simpl.
  destruct (handleSubmit_try b st file) as [tr [t|[]]];
    destruct (wants_default st); flow_unfold; simpl.
  all: split; [reflexivity |].
  all: split; [rewrite ?inserted_app; simpl; rewrite ?app_nil_r; reflexivity |].
  all: split; [intros a Ha; simpl; rewrite ?in_app_iff; tauto |].
  all: rewrite ?setters_app; simpl; rewrite ?app_nil_r, <- ?app_assoc;
    reflexivity.
Qed.

Lemma handleSubmit_refused (b : Backend) (st : Dash.State) :
  Dash.uploadedFile st = None \/ Dash.locationState st <> Success
  \/ Dash.detectedStreet st = "" \/ Dash.detectedCity st = "" ->
  exists msg,
    handleSubmit b st
    = ([ActPreventDefault; ActSet (Dash.setSubmitError None);
        ActSet (Dash.setSubmitSuccess false);
        ActSet (Dash.setSubmitError (Some msg))], inr tt)
    /\ after st (handleSubmit b st)
       = {| Dash.locationState := Dash.locationState st;
            Dash.description := Dash.description st;
            Dash.uploadedImage := Dash.uploadedImage st;
            Dash.uploadedFile := Dash.uploadedFile st;
            Dash.showNotifications := Dash.showNotifications st;
            Dash.detectedStreet := Dash.detectedStreet st;
            Dash.detectedCity := Dash.detectedCity st;
            Dash.locationError := Dash.locationError st;
            Dash.coordinates := Dash.coordinates st;
            Dash.submitting := Dash.submitting st;
            Dash.submitSuccess := false;
            Dash.submitError := Some msg;
            Dash.streetStats := Dash.streetStats st;
            Dash.manualLocationMode := Dash.manualLocationMode st;
            Dash.locationSource := Dash.locationSource st |}
    /\ (Dash.uploadedFile st = None -> msg = "Please upload an image")
    /\ (Dash.uploadedFile st <> None -> Dash.locationState st <> Success ->
        msg = "Please detect or enter your location before submitting")
    /\ (Dash.uploadedFile st <> None -> Dash.locationState st = Success ->
        msg = "Street name and city are required").
Proof.
  intros H. unfold handleSubmit.
  destruct (Dash.uploadedFile st) as [file|] eqn:Hf.
  2:{ eexists. split; [reflexivity |]. split; [unfold after, replay_act; simpl; rewrite ?Hf; reflexivity |].
      split; [reflexivity |]. split; intros F; contradiction. }
  destruct (bool_decide (Dash.locationState st = Success)) eqn:Hs.
  2:{ apply bool_decide_eq_false in Hs.
      eexists. split; [reflexivity |]. split; [unfold after, replay_act; simpl; rewrite ?Hf; reflexivity |].
      split; [discriminate |]. split; [reflexivity |]. intros _ F. contradiction. }
  apply bool_decide_eq_true in Hs.
  assert (Hn : negb (truthy (Some (Dash.detectedStreet st)))
               || negb (truthy (Some (Dash.detectedCity st))) = true).
  { destruct H as [F|[F|[->| ->]]]; [discriminate | contradiction | reflexivity |].
    apply orb_true_r. }
  simpl. rewrite Hn.
  eexists. split; [reflexivity |]. split; [unfold after, replay_act; simpl; rewrite ?Hf; reflexivity |].
  split; [discriminate |]. split; [intros _ F; contradiction | reflexivity].
Qed.

(** X15. [handleSubmit] refuses a form that is not ready without calling
    the backend: no file gives "Please upload an image"; a file without a
    settled location gives "Please detect or enter your location before
    submitting"; an empty street or city gives "Street name and city are
    required".  Only the two submit flags change. *)
Theorem handleSubmit_refuses (b : Backend) (st : Dash.State) :
  Dash.uploadedFile st = None \/ Dash.locationState st <> Success
  \/ Dash.detectedStreet st = "" \/ Dash.detectedCity st = "" ->
  exists msg,
    handleSubmit b st
    = ([ActPreventDefault; ActSet (Dash.setSubmitError None);
        ActSet (Dash.setSubmitSuccess false);
        ActSet (Dash.setSubmitError (Some msg))], inr tt)
    /\ after st (handleSubmit b st)
       = {| Dash.locationState := Dash.locationState st;
            Dash.description := Dash.description st;
            Dash.uploadedImage := Dash.uploadedImage st;
            Dash.uploadedFile := Dash.uploadedFile st;
            Dash.showNotifications := Dash.showNotifications st;
            Dash.detectedStreet := Dash.detectedStreet st;
            Dash.detectedCity := Dash.detectedCity st;
            Dash.locationError := Dash.locationError st;
            Dash.coordinates := Dash.coordinates st;
            Dash.submitting := Dash.submitting st;
            Dash.submitSuccess := false;
            Dash.submitError := Some msg;
            Dash.streetStats := Dash.streetStats st;
            Dash.manualLocationMode := Dash.manualLocationMode st;
            Dash.locationSource := Dash.locationSource st |}
    /\ (Dash.uploadedFile st = None -> msg = "Please upload an image")
    /\ (Dash.uploadedFile st <> None -> Dash.locationState st <> Success ->
        msg = "Please detect or enter your location before submitting")
    /\ (Dash.uploadedFile st <> None -> Dash.locationState st = Success ->
        msg = "Street name and city are required").
Proof. exact (handleSubmit_refused b st). Qed.

Lemma handleSubmit_refuses_witness :
  exists msg,
    handleSubmit backend_ok Dash.initial
    = ([ActPreventDefault; ActSet (Dash.setSubmitError None);
        ActSet (Dash.setSubmitSuccess false);
        ActSet (Dash.setSubmitError (Some msg))], inr tt)
    /\ msg = "Please upload an image".
Proof.
  destruct (handleSubmit_refuses backend_ok Dash.initial) as (msg & H & _ & Hm & _).
  - left. reflexivity.
  - exists msg. split; [exact H | apply Hm; reflexivity].
Defined.

(** The state after [handleSubmit] when the guards are passed. *)
Lemma handleSubmit_past_guards (b : Backend) (st : Dash.State) (file : File) :
  ready st file ->
  let m := handleSubmit_try b st file in
  let st' := after st (handleSubmit b st) in
  let kept_coordinates :=
    if wants_default st then Some default_center else Dash.coordinates st in
  match snd m with
  | inr _ =>
      st' = {| Dash.locationState := Idle;
               Dash.description := "";
               Dash.uploadedImage := None;
               Dash.uploadedFile := None;
               Dash.showNotifications := Dash.showNotifications st;
               Dash.detectedStreet := "";
               Dash.detectedCity := "";
               Dash.locationError := Dash.locationError st;
               Dash.coordinates := None;
               Dash.submitting := false;
               Dash.submitSuccess := true;
               Dash.submitError := None;
               Dash.streetStats := Dash.streetStats st;
               Dash.manualLocationMode := false;
               Dash.locationSource := Auto |}
  | inl t =>
      st' = {| Dash.locationState := Dash.locationState st;
               Dash.description := Dash.description st;
               Dash.uploadedImage := Dash.uploadedImage st;
               Dash.uploadedFile := Dash.uploadedFile st;
               Dash.showNotifications := Dash.showNotifications st;
               Dash.detectedStreet := Dash.detectedStreet st;
               Dash.detectedCity := Dash.detectedCity st;
               Dash.locationError := Dash.locationError st;
               Dash.coordinates := kept_coordinates;
               Dash.submitting := false;
               Dash.submitSuccess := false;
               Dash.submitError := Some (submit_message t);
               Dash.streetStats := Dash.streetStats st;
               Dash.manualLocationMode := Dash.manualLocationMode st;
               Dash.locationSource := Dash.locationSource st |}
  end.
Proof.
  intros Hr m st' kept. subst m st' kept.
  destruct (handleSubmit_ready b st file Hr) as (_ & _ & _ & Hset).
  rewrite after_setters, Hset. clear Hset.
  destruct (handleSubmit_try_cases b st file)
    as [(c & d & _ & _ & _ & -> & _ & _ & ->) | (t & -> & -> & _)];
    destruct (wants_default st); reflexivity.
Qed.

Lemma ready_or_not (st : Dash.State) :
  (exists file, ready st file)
  \/ (Dash.uploadedFile st = None \/ Dash.locationState st <> Success
      \/ Dash.detectedStreet st = "" \/ Dash.detectedCity st = "").
Proof.
  unfold ready.
  destruct (Dash.uploadedFile st) as [file|]; [| right; left; reflexivity].
  destruct (decide (Dash.locationState st = Success)) as [Hs|Hs];
    [| right; right; left; exact Hs].
  destruct (Dash.detectedStreet st) as [|c s];
    [right; right; right; left; reflexivity |].
  destruct (Dash.detectedCity st) as [|c' s'];
    [right; right; right; right; reflexivity |].
  left. exists file. repeat split. exact Hs.
Qed.

(** X16. [handleSubmit] never throws.  When it returns, either the success
    flag is set and there is no submit error, or the flag is clear and an
    error is shown; [submitting] is false again whenever the guards were
    passed; the notifications, the location error and the street statistics
    are as before. *)
Theorem handleSubmit_settles (b : Backend) (st : Dash.State) :
  let st' := after st (handleSubmit b st) in
  outcome (handleSubmit b st) = Some tt
  /\ ((Dash.submitSuccess st' = true /\ Dash.submitError st' = None)
      \/ (Dash.submitSuccess st' = false /\ is_Some (Dash.submitError st')))
  /\ (Dash.submitting st = false -> Dash.submitting st' = false)
  /\ (forall file, ready st file -> Dash.submitting st' = false)
  /\ Dash.showNotifications st' = Dash.showNotifications st
  /\ Dash.locationError st' = Dash.locationError st
  /\ Dash.streetStats st' = Dash.streetStats st.
Proof.
  intros st'. subst st'.
  destruct (ready_or_not st) as [(file & Hr) | Hn].
  - pose proof (handleSubmit_past_guards b st file Hr) as Hst.
    destruct (handleSubmit_ready b st file Hr) as (Ho & _).
    cbv zeta in Hst. unfold outcome. rewrite Ho.
    split; [reflexivity |].
    destruct (snd (handleSubmit_try b st file)) as [t|u]; rewrite Hst; simpl.
    + split; [right; eauto |]. repeat split.
    + split; [left; eauto |]. repeat split.
  - assert (Hnr : forall file, ready st file -> False).
    { intros file (Hf & Hs & Hst & Hci).
      destruct Hn as [F|[F|[F|F]]]; [congruence | contradiction | |].
      - rewrite F in Hst. discriminate.
      - rewrite F in Hci. discriminate. }
    destruct (ready_or_not st) as [(file & Hr) | _];
      [destruct (Hnr file Hr) |].
    assert (Href := Hn).
    unfold handleSubmit in *.
    destruct (Dash.uploadedFile st) as [file|] eqn:Hf.
    2:{ unfold after, replay_act, outcome. simpl.
        split; [reflexivity |]. split; [right; eauto |]. repeat split; auto.
        intros file Hr. destruct (Hnr file Hr). }
    destruct (bool_decide (Dash.locationState st = Success)) eqn:Hs.
    2:{ unfold after, replay_act, outcome. simpl.
        split; [reflexivity |]. split; [right; eauto |]. repeat split; auto.
        intros file' Hr. destruct (Hnr file' Hr). }
    apply bool_decide_eq_true in Hs.
    assert (Hg : negb (truthy (Some (Dash.detectedStreet st)))
                 || negb (truthy (Some (Dash.detectedCity st))) = true).
    { destruct Hn as [F|[F|[->| ->]]];
        [discriminate | contradiction | reflexivity | apply orb_true_r]. }
    simpl. rewrite Hg.
    unfold after, replay_act, outcome. simpl.
    split; [reflexivity |]. split; [right; eauto |]. repeat split; auto.
    intros file' Hr. destruct (Hnr file' Hr).
Qed.

Lemma description_or_default (d : string) :
  js_or (Some d) (Some "No description provided")
  = Some (if String.eqb d "" then "No description provided" else d).
Proof. unfold js_or, truthy. destruct (String.eqb d ""); reflexivity. Qed.

Lemma handleSubmit_inserted (b : Backend) (st : Dash.State) :
  inserted (acts (handleSubmit b st)) = []
  \/ exists file c,
       ready st file /\ upload_succeeds b file
       /\ Dash.coordinates st = Some c
       /\ inserted (acts (handleSubmit b st))
          = [as_open (report_of st c
                        (storage_getPublicUrl b (filePath b file)))].
Proof.
  destruct (ready_or_not st) as [(file & Hr) | Hn].
  - destruct (handleSubmit_ready b st file Hr) as (_ & -> & _).
    destruct (handleSubmit_try_cases b st file)
      as [(c & d & Hu & Hc & _ & _ & Hi & _)
         | (t & _ & _ & [(_ & Hi) | [(_ & _ & _ & Hi)
                        | [(_ & _ & _ & Hi) | (Hu & c & Hc & Hi & _)]]])].
    + right. exists file, c. tauto.
    + left. exact Hi.
    + left. exact Hi.
    + left. exact Hi.
    + right. exists file, c. tauto.
  - left. unfold handleSubmit.
    destruct (Dash.uploadedFile st) as [file|]; [| reflexivity].
    destruct (bool_decide (Dash.locationState st = Success)) eqn:Hs;
      [| reflexivity].
    apply bool_decide_eq_true in Hs.
    assert (Hg : negb (truthy (Some (Dash.detectedStreet st)))
                 || negb (truthy (Some (Dash.detectedCity st))) = true).
    { destruct Hn as [F|[F|[->| ->]]];
        [discriminate | contradiction | reflexivity | apply orb_true_r]. }
    simpl. rewrite Hg. reflexivity.
Qed.

(** X17. [handleSubmit] inserts at most one report, and only when the form
    was ready and the image was stored.  The row carries the street, the
    city and the coordinates the component held when the form was
    submitted, also when [handleSubmit] has just replaced those coordinates
    by the default centre; its status is ['open'], its image the public URL
    of the stored file, and an empty description becomes "No description
    provided". *)
Theorem handleSubmit_inserts_click_time_location (b : Backend)
        (st : Dash.State) :
  inserted (acts (handleSubmit b st)) = []
  \/ exists file c row,
       ready st file /\ upload_succeeds b file
       /\ Dash.coordinates st = Some c
       /\ inserted (acts (handleSubmit b st)) = [row]
       /\ Insert.latitude row = latitude c
       /\ Insert.longitude row = longitude c
       /\ Insert.street_name row = Dash.detectedStreet st
       /\ Insert.city row = Dash.detectedCity st
       /\ Insert.status row = Some StatusOpen
       /\ Insert.image_url row = storage_getPublicUrl b (filePath b file)
       /\ Insert.description row
          = Some (if String.eqb (Dash.description st) ""
                  then "No description provided"
                  else Dash.description st).
Proof.
  destruct (handleSubmit_inserted b st) as [H | (file & c & Hr & Hu & Hc & H)];
    [left; exact H | right].
  exists file, c, (as_open (report_of st c
                              (storage_getPublicUrl b (filePath b file)))).
  repeat (split; [first [assumption | reflexivity] |]).
  simpl. apply description_or_default.
Qed.

(** X18. When the form is ready, the image is stored and the insert is
    answered without an error, [handleSubmit] clears the form: description,
    image, file, street, city and coordinates are emptied, the location
    state is ['idle'] again with source ['auto'], the success flag is set
    and a timer of 5000 ms is started that clears it.  The location error
    and the street statistics are not cleared. *)
Theorem handleSubmit_success_resets_form (b : Backend) (st : Dash.State)
        (file : File) (c : LocationCoordinates) (d : option Report.t) :
  ready st file ->
  upload_succeeds b file ->
  Dash.coordinates st = Some c ->
  reports_insert b
    (as_open (report_of st c (storage_getPublicUrl b (filePath b file))))
  = InsertAnswered d None ->
  after st (handleSubmit b st)
  = {| Dash.locationState := Idle;
       Dash.description := "";
       Dash.uploadedImage := None;
       Dash.uploadedFile := None;
       Dash.showNotifications := Dash.showNotifications st;
       Dash.detectedStreet := "";
       Dash.detectedCity := "";
       Dash.locationError := Dash.locationError st;
       Dash.coordinates := None;
       Dash.submitting := false;
       Dash.submitSuccess := true;
       Dash.submitError := None;
       Dash.streetStats := Dash.streetStats st;
       Dash.manualLocationMode := false;
       Dash.locationSource := Auto |}
  /\ In (ActSetTimeout 5000 (Dash.setSubmitSuccess false))
        (acts (handleSubmit b st)).
Proof.
  intros Hr Hu Hc Hi.
  pose proof (handleSubmit_past_guards b st file Hr) as Hst. cbv zeta in Hst.
  destruct (handleSubmit_ready b st file Hr) as (_ & _ & Hin & _).
  destruct (handleSubmit_try_cases b st file)
    as [(c' & d' & _ & _ & _ & Hs & _ & Ht & _)
       | (t & _ & _ & [(F & _) | [(_ & F & _)
                      | [(_ & F & _) | (_ & c' & Hc' & _ & F)]]])].
  - rewrite Hs in Hst. split; [exact Hst | apply Hin, Ht].
  - destruct Hu as (Hu & _). congruence.
  - destruct Hu as (_ & Hu & Ht). destruct F as [F|F]; congruence.
  - congruence.
  - rewrite Hc in Hc'. injection Hc' as <-.
    destruct F as [F|(d' & F)]; congruence.
Qed.

(** X19. When the storage refuses the file, or the upload call is rejected,
    [handleSubmit] shows "Failed to upload image" whatever the storage's
    own error was, inserts nothing and keeps the form as filled in; only
    the coordinates may have been replaced by the default centre. *)
Theorem handleSubmit_upload_failure (b : Backend) (st : Dash.State)
        (file : File) :
  ready st file ->
  createClient b = None ->
  storage_upload b (filePath b file) file <> UploadAnswered None ->
  inserted (acts (handleSubmit b st)) = []
  /\ after st (handleSubmit b st)
     = {| Dash.locationState := Dash.locationState st;
          Dash.description := Dash.description st;
          Dash.uploadedImage := Dash.uploadedImage st;
          Dash.uploadedFile := Dash.uploadedFile st;
          Dash.showNotifications := Dash.showNotifications st;
          Dash.detectedStreet := Dash.detectedStreet st;
          Dash.detectedCity := Dash.detectedCity st;
          Dash.locationError := Dash.locationError st;
          Dash.coordinates :=
            if wants_default st then Some default_center
            else Dash.coordinates st;
          Dash.submitting := false;
          Dash.submitSuccess := false;
          Dash.submitError := Some "Failed to upload image";
          Dash.streetStats := Dash.streetStats st;
          Dash.manualLocationMode := Dash.manualLocationMode st;
          Dash.locationSource := Dash.locationSource st |}.
Proof.
  intros Hr Hcl Hu.
  pose proof (handleSubmit_past_guards b st file Hr) as Hst. cbv zeta in Hst.
  destruct (handleSubmit_ready b st file Hr) as (_ & -> & _).
  destruct (handleSubmit_try_cases b st file)
    as [(c' & d' & (_ & F & _) & _)
       | (t & Hs & _ & [(F & _) | [(_ & _ & -> & Hi)
                       | [((_ & F & _) & _) | ((_ & F & _) & _)]]])];
    try congruence.
  rewrite Hs in Hst. split; [exact Hi | exact Hst].
Qed.

(** X20. When the image is stored but the insert fails, [handleSubmit]
    shows the message of the insert's error (or "Failed to submit report"
    when what was thrown is not an [Error]) and keeps the form as filled
    in; the row it tried to insert is the one of the submitted form. *)
Theorem handleSubmit_insert_failure (b : Backend) (st : Dash.State)
        (file : File) (c : LocationCoordinates) (e : Thrown) :
  ready st file ->
  upload_succeeds b file ->
  Dash.coordinates st = Some c ->
  (let row := as_open (report_of st c
                         (storage_getPublicUrl b (filePath b file))) in
   reports_insert b row = InsertRejected e
   \/ exists d, reports_insert b row = InsertAnswered d (Some e)) ->
  inserted (acts (handleSubmit b st))
  = [as_open (report_of st c (storage_getPublicUrl b (filePath b file)))]
  /\ after st (handleSubmit b st)
     = {| Dash.locationState := Dash.locationState st;
          Dash.description := Dash.description st;
          Dash.uploadedImage := Dash.uploadedImage st;
          Dash.uploadedFile := Dash.uploadedFile st;
          Dash.showNotifications := Dash.showNotifications st;
          Dash.detectedStreet := Dash.detectedStreet st;
          Dash.detectedCity := Dash.detectedCity st;
          Dash.locationError := Dash.locationError st;
          Dash.coordinates :=
            if wants_default st then Some default_center
            else Dash.coordinates st;
          Dash.submitting := false;
          Dash.submitSuccess := false;
          Dash.submitError := Some (submit_message e);
          Dash.streetStats := Dash.streetStats st;
          Dash.manualLocationMode := Dash.manualLocationMode st;
          Dash.locationSource := Dash.locationSource st |}.
Proof.
  intros Hr Hu Hc He. cbv zeta in He.
  pose proof (handleSubmit_past_guards b st file Hr) as Hst. cbv zeta in Hst.
  destruct (handleSubmit_ready b st file Hr) as (_ & -> & _).
  destruct (handleSubmit_try_cases b st file)
    as [(c' & d' & _ & Hc' & F & _)
       | (t & Hs & _ & [(F & _) | [(_ & F & _)
                       | [(_ & F & _) | (_ & c' & Hc' & Hi & F)]]])].
  - rewrite Hc in Hc'. injection Hc' as <-.
    destruct He as [He|(d & He)]; congruence.
  - destruct Hu as (Hu & _). congruence.
  - destruct Hu as (_ & Hu & Ht). destruct F as [F|F]; congruence.
  - congruence.
  - rewrite Hc in Hc'. injection Hc' as <-.
    assert (t = e).
    { destruct He as [He|(d & He)], F as [F|(d' & F)]; congruence. }
    subst t. rewrite Hs in Hst. split; [exact Hi | exact Hst].
Qed.

Lemma handleSubmit_success_resets_form_witness :
  Dash.uploadedFile
    (after state_manual_ready (handleSubmit backend_ok state_manual_ready))
  = None
  /\ In (ActSetTimeout 5000 (Dash.setSubmitSuccess false))
        (acts (handleSubmit backend_ok state_manual_ready)).
Proof.
  destruct (handleSubmit_success_resets_form backend_ok state_manual_ready
              photo manual_origin
              (Some (stored (as_open (report_of state_manual_ready manual_origin
                       (storage_getPublicUrl backend_ok
                          (filePath backend_ok photo)))))))
    as [-> Ht].
  - vm_compute. tauto.
  - vm_compute. tauto.
  - reflexivity.
  - reflexivity.
  - split; [reflexivity | exact Ht].
Defined.

Lemma handleSubmit_upload_failure_witness :
  inserted (acts (handleSubmit backend_storage_down state_manual_ready)) = []
  /\ Dash.submitError
       (after state_manual_ready
          (handleSubmit backend_storage_down state_manual_ready))
     = Some "Failed to upload image".
Proof.
  destruct (handleSubmit_upload_failure backend_storage_down
              state_manual_ready photo) as [Hi ->].
  - vm_compute. tauto.
  - reflexivity.
  - discriminate.
  - split; [exact Hi | reflexivity].
Defined.

Lemma handleSubmit_insert_failure_witness :
  Dash.submitError
    (after state_manual_ready
       (handleSubmit backend_insert_down state_manual_ready))
  = Some "permission denied for table reports".
Proof.
  destruct (handleSubmit_insert_failure backend_insert_down
              state_manual_ready photo manual_origin
              (ErrorObject "permission denied for table reports"))
    as [_ ->].
  - vm_compute. tauto.
  - vm_compute. tauto.
  - reflexivity.
  - right. eexists. reflexivity.
  - reflexivity.
Defined.

(** ** The manual flow *)

Lemma handleSubmit_reaches_insert (b : Backend) (st : Dash.State)
      (file : File) (c : LocationCoordinates) :
  ready st file ->
  upload_succeeds b file ->
  Dash.coordinates st = Some c ->
  inserted (acts (handleSubmit b st))
  = [as_open (report_of st c (storage_getPublicUrl b (filePath b file)))].
Proof.
  intros Hr Hu Hc.
  destruct (handleSubmit_ready b st file Hr) as (_ & -> & _).
  destruct (handleSubmit_try_cases b st file)
    as [(c' & d' & _ & Hc' & _ & _ & Hi & _)
       | (t & _ & _ & [(F & _) | [(_ & F & _)
                      | [(_ & F & _) | (_ & c' & Hc' & Hi & _)]]])].
  - rewrite Hc in Hc'. injection Hc' as <-. exact Hi.
  - destruct Hu as (Hu & _). congruence.
  - destruct Hu as (_ & Hu & Ht). destruct F as [F|F]; congruence.
  - congruence.
  - rewrite Hc in Hc'. injection Hc' as <-. exact Hi.
Qed.

Lemma handleSubmit_not_success (b : Backend) (st : Dash.State) (file : File) :
  ready st file ->
  Dash.submitSuccess (after st (handleSubmit b st)) = false ->
  ready (after st (handleSubmit b st)) file
  /\ Dash.coordinates (after st (handleSubmit b st))
     = (if wants_default st then Some default_center else Dash.coordinates st)
  /\ Dash.locationSource (after st (handleSubmit b st))
     = Dash.locationSource st.
Proof.
  intros Hr Hs.
  pose proof (handleSubmit_past_guards b st file Hr) as Hst. cbv zeta in Hst.
  destruct (snd (handleSubmit_try b st file)) as [t|u]; rewrite Hst in *.
  - split; [exact Hr |]. split; reflexivity.
  - discriminate Hs.
Qed.

(** X21. A report entered by hand is stored at latitude 0, longitude 0:
    with the coordinates [handleManualLocationSubmit] stores and the source
    ['manual'], [handleSubmit] puts the default centre into the component
    but inserts the coordinates it was rendered with.  When that submit
    fails, the component keeps the default centre, and submitting again
    inserts the default centre instead. *)
Theorem manual_report_coordinates (b b' : Backend) (st : Dash.State)
        (file : File) :
  ready st file ->
  Dash.coordinates st = Some manual_origin ->
  Dash.locationSource st = Manual ->
  upload_succeeds b file ->
  upload_succeeds b' file ->
  let st' := after st (handleSubmit b st) in
  (exists row,
      inserted (acts (handleSubmit b st)) = [row]
      /\ Insert.latitude row = 0%float /\ Insert.longitude row = 0%float)
  /\ (Dash.submitSuccess st' = false ->
      Dash.coordinates st' = Some default_center
      /\ exists row',
           inserted (acts (handleSubmit b' st')) = [row']
           /\ Insert.latitude row' = latitude default_center
           /\ Insert.longitude row' = longitude default_center).
Proof.
  intros Hr Hc Hm Hu Hu' st'. subst st'. split.
  - eexists. split; [apply (handleSubmit_reaches_insert b st file _ Hr Hu Hc) |].
    split; reflexivity.
  - intros Hs.
    destruct (handleSubmit_not_success b st file Hr Hs) as (Hr' & Hc' & _).
    assert (Hw : wants_default st = true).
    { unfold wants_default. rewrite Hc, Hm. reflexivity. }
    rewrite Hw in Hc'. split; [exact Hc' |].
    eexists.
    split; [apply (handleSubmit_reaches_insert b' _ file _ Hr' Hu' Hc') |].
    split; reflexivity.
Qed.

Lemma manual_report_coordinates_witness :
  let st' := after state_manual_ready
               (handleSubmit backend_insert_down state_manual_ready) in
  (exists row,
      inserted (acts (handleSubmit backend_insert_down state_manual_ready))
      = [row]
      /\ Insert.latitude row = 0%float /\ Insert.longitude row = 0%float)
  /\ (Dash.submitSuccess st' = false ->
      Dash.coordinates st' = Some default_center
      /\ exists row',
           inserted (acts (handleSubmit backend_ok st')) = [row']
           /\ Insert.latitude row' = latitude default_center
           /\ Insert.longitude row' = longitude default_center).
Proof.
  apply (manual_report_coordinates backend_insert_down backend_ok
           state_manual_ready photo).
  - vm_compute. tauto.
  - reflexivity.
  - reflexivity.
  - vm_compute. tauto.
  - vm_compute. tauto.
Defined.

(** ** handleManualLocationSubmit *)

Lemma valid_names_truthy (street cty : string) :
  valid (validateManualLocation street cty) = true ->
  truthy (Some street) = true /\ truthy (Some cty) = true.
Proof.
  intros Hv. destruct street as [|c s]; [discriminate Hv |].
  destruct cty as [|c' s']; [| split; reflexivity].
  unfold validateManualLocation in Hv.
  destruct (_ || _) in Hv; discriminate Hv.
Qed.

Lemma handleManualLocationSubmit_after (st : Dash.State) :
  let v := validateManualLocation (Dash.detectedStreet st)
                                  (Dash.detectedCity st) in
  let st' := after st (handleManualLocationSubmit st) in
  (valid v = false ->
   st' = Dash.apply st (Dash.setLocationError (validation_error v)))
  /\ (valid v = true ->
      st' = {| Dash.locationState := Success;
               Dash.description := Dash.description st;
               Dash.uploadedImage := Dash.uploadedImage st;
               Dash.uploadedFile := Dash.uploadedFile st;
               Dash.showNotifications := Dash.showNotifications st;
               Dash.detectedStreet := Dash.detectedStreet st;
               Dash.detectedCity := Dash.detectedCity st;
               Dash.locationError := None;
               Dash.coordinates :=
                 Some (default manual_origin (Dash.coordinates st));
               Dash.submitting := Dash.submitting st;
               Dash.submitSuccess := Dash.submitSuccess st;
               Dash.submitError := Dash.submitError st;
               Dash.streetStats := Dash.streetStats st;
               Dash.manualLocationMode := false;
               Dash.locationSource := Manual |}).
Proof.
  intros v st'. subst v st'. unfold handleManualLocationSubmit.
  destruct (valid _) eqn:Hv; simpl; split; intros E; try discriminate E.
  - destruct (Dash.coordinates st) as [c|] eqn:Hc;
      unfold after, replay_act; simpl; rewrite ?Hc; reflexivity.
  - reflexivity.
Qed.

(** X22. [handleManualLocationSubmit] calls no backend.  Names that fail
    the validation only set the location error to the validator's message.
    Valid names make the location ['success'] with source ['manual'] and
    the manual entry closed; the street and the city stay exactly as typed
    (neither trimmed nor normalised), coordinates already known are kept
    and otherwise latitude 0, longitude 0 with accuracy 1000 is stored; a
    form with a file is then ready to submit. *)
Theorem handleManualLocationSubmit_confirms (st : Dash.State) :
  let v := validateManualLocation (Dash.detectedStreet st)
                                  (Dash.detectedCity st) in
  let st' := after st (handleManualLocationSubmit st) in
  filter is_backend_call (acts (handleManualLocationSubmit st)) = []
  /\ Dash.detectedStreet st' = Dash.detectedStreet st
  /\ Dash.detectedCity st' = Dash.detectedCity st
  /\ (valid v = false ->
      st' = Dash.apply st (Dash.setLocationError (validation_error v)))
  /\ (valid v = true ->
      Dash.locationState st' = Success
      /\ Dash.locationSource st' = Manual
      /\ Dash.locationError st' = None
      /\ Dash.manualLocationMode st' = false
      /\ Dash.coordinates st'
         = Some (default manual_origin (Dash.coordinates st))
      /\ forall file, Dash.uploadedFile st = Some file -> ready st' file).
Proof.
  intros v st'.
  destruct (handleManualLocationSubmit_after st) as [Hf Ht].
  fold v st' in Hf, Ht.
  split.
  { unfold handleManualLocationSubmit. fold v.
    destruct (valid v); simpl; [| reflexivity].
    destruct (Dash.coordinates st); reflexivity. }
  destruct (valid v) eqn:Hv.
  - rewrite (Ht eq_refl). simpl.
    split; [reflexivity |]. split; [reflexivity |].
    split; [discriminate |]. intros _. repeat split; try reflexivity.
    + simpl. exact H.
    + apply (valid_names_truthy _ _ Hv).
    + apply (valid_names_truthy _ _ Hv).
  - rewrite (Hf eq_refl). simpl.
    split; [reflexivity |]. split; [reflexivity |].
    split; [reflexivity | discriminate].
Qed.

(** ** What holds between two actions *)

Lemma session_cons (w : World) (b : Backend) (a : UserAction)
      (l : list UserAction) (st : Dash.State) :
  session w b (a :: l) st = session w b l (step w b a st).
Proof. reflexivity. Qed.

Lemma settled_requestLocation (w : World) (st : Dash.State) :
  settled st -> settled (after st (located (requestLocation w))).
Proof.
  intros (Hsub & Hrp & Hg & Hc).
  destruct (requestLocation_after w st)
    as (r & _ & _ & _ & _ & _ & Hs & _ & _ & H).
  cbv zeta in *. unfold settled. rewrite Hs.
  split; [exact Hsub |].
  destruct (detect_data r) as [d|].
  - destruct H as (Hco & _ & _ & _ & H). rewrite Hco.
    destruct (getStreetStatistics w _) as [t|stats];
      destruct H as (-> & _); repeat split; try discriminate; eauto.
  - destruct H as (-> & Hns & Hin & _).
    simpl in Hin.
    repeat split; try contradiction;
      destruct Hin as [<-|[<-|[<-|[<-|[<-|[]]]]]]; discriminate.
Qed.

Lemma settled_apply_other (st : Dash.State) (s : Dash.Setter) :
  settled st ->
  match s with
  | Dash.setLocationState _ | Dash.setCoordinates _ | Dash.setSubmitting _ =>
      False
  | _ => True
  end ->
  settled (Dash.apply st s).
Proof. intros H Hs. destruct s; try contradiction; exact H. Qed.

Lemma step_settled (w : World) (b : Backend) (a : UserAction)
      (st : Dash.State) :
  settled st -> settled (step w b a st).
Proof.
  intros Hst. unfold step. destruct a; cbn [handle].
  - apply settled_requestLocation, Hst.
  - destruct file as [f|]; [| exact Hst].
    destruct Hst as (? & ? & ? & ?). repeat split; assumption.
  - destruct Hst as (? & ? & ? & ?).
    unfold after, replay_act, settled; simpl.
    repeat split; try assumption; discriminate.
  - exact Hst.
  - exact Hst.
  - exact Hst.
  - exact Hst.
  - exact Hst.
  - destruct (handleManualLocationSubmit_after st) as [Hf Ht].
    cbv zeta in *.
    destruct (valid _) eqn:Hv.
    + rewrite (Ht eq_refl). destruct Hst as (? & ? & ? & ?).
      unfold settled; simpl. repeat split; try assumption; try discriminate.
      eauto.
    + rewrite (Hf eq_refl). exact Hst.
  - assert (E : after st
                  (_ ← set (Dash.setManualLocationMode false);
                   _ ← set (Dash.setLocationError None);
                   located (requestLocation w))
                = after (Dash.apply
                           (Dash.apply st (Dash.setManualLocationMode false))
                           (Dash.setLocationError None))
                        (located (requestLocation w))).
    { unfold after, located. flow_unfold. simpl. reflexivity. }
    rewrite E. apply settled_requestLocation. exact Hst.
  - exact Hst.
  - exact Hst.
  - destruct (ready_or_not st) as [(file & Hr) | Hn].
    + pose proof (handleSubmit_past_guards b st file Hr) as H.
      cbv zeta in H.
      destruct (snd (handleSubmit_try b st file)); rewrite H.
      * destruct Hst as (? & ? & ? & Hc). unfold settled; simpl.
        repeat split; try assumption.
        intros Hs. destruct (wants_default st); [eauto | apply Hc, Hs].
      * unfold settled; simpl. repeat split; discriminate.
    + destruct (handleSubmit_refused b st Hn) as (msg & _ & -> & _).
      exact Hst.
  - exact Hst.
Qed.

Lemma reachable_is_settled (st : Dash.State) : reachable st -> settled st.
Proof.
  induction 1 as [|w b a st _ IH].
  - unfold settled, Dash.initial; simpl. repeat split; discriminate.
  - apply step_settled, IH.
Qed.

(** X23. Between two actions of the user the component is never
    submitting, its location state is never ['requesting-permission'] or
    ['geocoding'], and whenever the location state is ['success'] it holds
    coordinates.  (Every action is taken to be handled to its end before
    the next one starts.) *)
Theorem reachable_settled (st : Dash.State) :
  reachable st ->
  Dash.submitting st = false
  /\ Dash.locationState st <> RequestingPermission
  /\ Dash.locationState st <> Geocoding
  /\ (Dash.locationState st = Success -> is_Some (Dash.coordinates st)).
Proof. exact (reachable_is_settled st). Qed.

Lemma reachable_settled_witness :
  Dash.submitting state_manual_ready = false
  /\ Dash.locationState state_manual_ready <> RequestingPermission
  /\ Dash.locationState state_manual_ready <> Geocoding
  /\ (Dash.locationState state_manual_ready = Success ->
      is_Some (Dash.coordinates state_manual_ready)).
Proof.
  apply (reachable_settled state_manual_ready).
  unfold state_manual_ready, manual_entry, session. cbn [fold_left].
  repeat apply reachable_step. apply reachable_initial.
Defined.

(** X24. In a state the component can reach, a ready form whose image is
    stored always gets to the insert: [handleSubmit] issues exactly one,
    with the coordinates the component holds. *)
Theorem reachable_submit_inserts (b : Backend) (st : Dash.State)
        (file : File) :
  reachable st ->
  ready st file ->
  upload_succeeds b file ->
  exists c row,
    Dash.coordinates st = Some c
    /\ inserted (acts (handleSubmit b st)) = [row]
    /\ Insert.latitude row = latitude c
    /\ Insert.longitude row = longitude c.
Proof.
  intros Hre Hr Hu.
  destruct (reachable_is_settled st Hre) as (_ & _ & _ & Hc).
  destruct (Hc (proj1 (proj2 Hr))) as [c Hco].
  exists c. eexists.
  split; [exact Hco |].
  split; [apply (handleSubmit_reaches_insert b st file c Hr Hu Hco) |].
  split; reflexivity.
Qed.

Lemma reachable_submit_inserts_witness :
  exists c row,
    Dash.coordinates state_manual_ready = Some c
    /\ inserted (acts (handleSubmit backend_ok state_manual_ready)) = [row]
    /\ Insert.latitude row = latitude c
    /\ Insert.longitude row = longitude c.
Proof.
  apply (reachable_submit_inserts backend_ok state_manual_ready photo).
  - unfold state_manual_ready, manual_entry, session. cbn [fold_left].
    repeat apply reachable_step. apply reachable_initial.
  - vm_compute. tauto.
  - vm_compute. tauto.
Defined.

(** ** requestLocation and the statistics query *)

Lemma record_report_head (later : string -> string -> bool) (r : StatRow.t)
      (k : string) (e : Entry.t) (m : list (string * Entry.t)) :
  exists e' m', Analytics.record_report later r ((k, e) :: m) = (k, e') :: m'.
Proof.
  simpl. destruct (String.eqb k (StatRow.street_name r)); eauto.
Qed.

Lemma group_by_street_head (later : string -> string -> bool)
      (r0 : StatRow.t) (rest : list StatRow.t) :
  exists e G,
    Analytics.group_by_street later (r0 :: rest)
    = (StatRow.street_name r0, e) :: G.
Proof.
  unfold Analytics.group_by_street. cbn [fold_left Analytics.record_report].
  generalize (Analytics.first_entry r0) as e.
  generalize (@nil (string * Entry.t)) as m.
  induction rest as [|r rest IH]; intros m e; [eauto |].
  cbn [fold_left].
  destruct (record_report_head later r (StatRow.street_name r0) e m)
    as (e' & m' & ->).
  apply IH.
Qed.

Lemma statistics_head (later : string -> string -> bool)
      (r0 : StatRow.t) (rest : list StatRow.t) :
  exists s l,
    Analytics.statistics later (r0 :: rest) = s :: l
    /\ streetName s = StatRow.street_name r0
    /\ stat_city s = StatRow.city r0
    /\ totalReports s
       = length (rows_of (StatRow.street_name r0) (r0 :: rest)).
Proof.
  destruct (group_by_street_head later r0 rest) as (e & G & HG).
  destruct (group_by_street_inv later (r0 :: rest)) as (_ & _ & Hsum).
  rewrite HG in Hsum.
  specialize (Hsum _ e (or_introl eq_refl)).
  destruct (summary_counts later _ e Hsum)
    as (Ht & _ & _ & _ & _ & (r & l & Hl & Hc) & _).
  exists (Analytics.to_statistics (StatRow.street_name r0, e)),
         (Analytics.to_statistics <$> G).
  unfold Analytics.statistics. rewrite HG.
  split; [reflexivity |]. split; [reflexivity |].
  split; [| exact Ht].
  simpl. rewrite Hc.
  unfold rows_of in Hl. simpl in Hl. unfold on_street in Hl at 1.
  rewrite String.eqb_refl in Hl. injection Hl as <- _. reflexivity.
Qed.

(** X25. When the detection succeeds with an empty street name, the
    statistics query that follows is not filtered, and what the component
    shows as the statistics of the street are those of the first street of
    the whole table. *)
Theorem empty_street_shows_first_street (w : World) (b : Backend)
        (st : Dash.State) (r0 : StatRow.t) (rest : list StatRow.t) :
  let st' := after st (located (requestLocation (world_with_backend w b))) in
  createClient b = None ->
  reports_select b None = SelectAnswered (Some (r0 :: rest)) None ->
  Dash.locationState st' = Success ->
  Dash.detectedStreet st' = "" ->
  exists s,
    Dash.streetStats st' = Some s
    /\ streetName s = StatRow.street_name r0
    /\ stat_city s = StatRow.city r0
    /\ totalReports s
       = length (rows_of (StatRow.street_name r0) (r0 :: rest)).
Proof.
  intros st' Hc Hsel Hs He. subst st'.
  destruct (requestLocation_after (world_with_backend w b) st)
    as (r & _ & _ & _ & _ & _ & _ & _ & _ & H).
  cbv zeta in H.
  destruct (detect_data r) as [d|].
  2:{ destruct H as (E & Hn & _). rewrite Hs in E. symmetry in E.
      contradiction. }
  destruct H as (_ & Hstreet & _ & _ & H).
  rewrite He in Hstreet. rewrite <- Hstreet in H.
  assert (Hq : getStreetStatistics (world_with_backend w b) ""
               = StatsReturned
                   (Some (Analytics.statistics (Date_later b) (r0 :: rest)))).
  { cbn [getStreetStatistics world_with_backend]. unfold stats_from.
    unfold Analytics.getStreetStatistics, Analytics.await_select.
    flow_unfold. rewrite Hc. simpl.
    change (truthy (Some "")) with false. cbn iota. rewrite Hsel.
    reflexivity. }
  rewrite Hq in H. destruct H as (_ & _ & _ & H).
  destruct (statistics_head (Date_later b) r0 rest)
    as (s & l & Hst & Hk & Hci & Ht).
  rewrite Hst in H. exists s. tauto.
Qed.

Lemma empty_street_shows_first_street_witness :
  exists s,
    Dash.streetStats
      (after Dash.initial
         (located (requestLocation
                     (world_with_backend (world_found address_only_commas)
                                         backend_ok))))
    = Some s
    /\ streetName s = "Oak Avenue"
    /\ stat_city s = "Pune"
    /\ totalReports s = 3.
Proof.
  apply (empty_street_shows_first_street
           (world_found address_only_commas) backend_ok Dash.initial
           (stat_row "Oak Avenue" "Pune" StatusOpen "2024-03-02")
           [stat_row "MG Road" "Bengaluru" StatusResolved "2024-03-05";
            stat_row "Oak Avenue" "Mumbai" StatusOpen "2024-01-09";
            stat_row "Canal Walk" "Pune" StatusFalseReport "2024-02-11";
            stat_row "Oak Avenue" "Pune" StatusInProgress "2024-04-21"]).
  - reflexivity.
  - reflexivity.
  - vm_compute. reflexivity.
  - vm_compute. reflexivity.
Defined.

(** ** detectLocation without a position *)

(** X26. When no position is obtained, [detectLocation] sends no geocoding
    request: it answers at once with the state [getCurrentLocation] gave
    and the message [getErrorMessage] has for it, which is never empty. *)
Theorem detectLocation_without_position (w : World)
        (o : Outcome LocationCoordinates LocationState) (s : LocationState) :
  returned (getCurrentLocation w) = Some o ->
  error o = Some s ->
  returned (detectLocation w)
  = Some {| detect_data := None;
            detect_error := Some (getErrorMessage s);
            detect_state := s |}
  /\ trace (detectLocation w) = trace (getCurrentLocation w)
  /\ filter is_fetch (trace (detectLocation w)) = []
  /\ getErrorMessage s <> "".
Proof.
  intros Ho He.
  assert (Hq : filter is_fetch (trace (getCurrentLocation w)) = []).
  { unfold getCurrentLocation, isGeolocationSupported.
    destruct (geolocation w) as [gcp|]; [| reflexivity].
    comp_unfold. simpl. destruct (gcp position_options); reflexivity. }
  unfold detectLocation. comp_unfold.
  destruct (getCurrentLocation w) as [tr [t|o']]; simpl in *; [discriminate |].
  injection Ho as ->. rewrite He. simpl. rewrite app_nil_r.
  split; [reflexivity |]. split; [reflexivity |]. split; [exact Hq |].
  destruct s; discriminate.
Qed.

Lemma detectLocation_without_position_witness :
  returned (detectLocation world_denied)
  = Some {| detect_data := None;
            detect_error := Some (getErrorMessage PermissionDenied);
            detect_state := PermissionDenied |}
  /\ trace (detectLocation world_denied)
     = trace (getCurrentLocation world_denied)
  /\ filter is_fetch (trace (detectLocation world_denied)) = []
  /\ getErrorMessage PermissionDenied <> "".
Proof.
  apply (detectLocation_without_position world_denied
           {| data := None; error := Some PermissionDenied |}
           PermissionDenied); reflexivity.
Defined.

(** ** getReportsByStreet *)

Lemma has_place_In (k : string) (m : list (string * Place.t)) :
  has_place k m = true <-> In k (fst <$> m).
Proof.
  unfold has_place. rewrite existsb_exists. split.
  - intros (x & Hx & E). apply String.eqb_eq in E. subst. exact Hx.
  - intros H. exists k. split; [exact H | apply String.eqb_refl].
Qed.

Lemma record_place_keys (r : PlaceRow.t)
      (m : list (string * Place.t)) :
  fst <$> ByStreet.record_place r m
  = (fst <$> m)
      ++ (if has_place (ByStreet.key_of r) m then []
          else [ByStreet.key_of r]).
Proof.
  induction m as [|[k e] m IH]; [reflexivity |].
  unfold has_place in *. cbn [ByStreet.record_place fmap list_fmap existsb fst].
  rewrite (String.eqb_sym (ByStreet.key_of r) k).
  destruct (String.eqb k (ByStreet.key_of r)) eqn:E.
  - cbn. rewrite app_nil_r. reflexivity.
  - cbn. f_equal. exact IH.
Qed.

Lemma record_place_In (r : PlaceRow.t)
      (m : list (string * Place.t)) (k : string) (e' : Place.t) :
  NoDup (fst <$> m) ->
  In (k, e') (ByStreet.record_place r m) ->
  (k <> ByStreet.key_of r /\ In (k, e') m)
  \/ (k = ByStreet.key_of r
      /\ ((exists e, In (k, e) m /\ e' = ByStreet.add_place r e)
          \/ (has_place k m = false /\ e' = ByStreet.first_place r))).
Proof.
  induction m as [|[k0 e0] m IH]; intros Hnd Hin.
  - simpl in Hin. destruct Hin as [[= <- <-]|[]]. right. split; auto.
  - cbn [fmap list_fmap fst] in Hnd. apply NoDup_cons in Hnd as [Hk0 Hnd].
    cbn [ByStreet.record_place] in Hin.
    destruct (String.eqb_spec k0 (ByStreet.key_of r)) as [E|E].
    + destruct Hin as [[= <- <-]|Hin].
      * right. split; [exact E |]. left. exists e0. split; [left |]; reflexivity.
      * left. split; [| right; exact Hin].
        intros ->. apply Hk0. rewrite E.
        apply list_elem_of_In, (in_map fst _ _ Hin).
    + destruct Hin as [[= <- <-]|Hin].
      * left. split; [exact E | left; reflexivity].
      * destruct (IH Hnd Hin) as [[Hne H]|[-> [(e & H & He)|[Hk He]]]].
        -- left. split; [exact Hne | right; exact H].
        -- right. split; [reflexivity |]. left. exists e. split; [right |]; auto.
        -- right. split; [reflexivity |]. right. split; [| exact He].
           unfold has_place in *. cbn. rewrite Hk, orb_false_r.
           apply String.eqb_neq. congruence.
Qed.

Lemma record_place_NoDup (r : PlaceRow.t)
      (m : list (string * Place.t)) :
  NoDup (fst <$> m) -> NoDup (fst <$> ByStreet.record_place r m).
Proof.
  intros Hnd. rewrite record_place_keys.
  destruct (has_place _ m) eqn:E; [rewrite app_nil_r; exact Hnd |].
  apply NoDup_app. split; [exact Hnd |]. split; [| apply NoDup_singleton].
  intros x Hx Hx'. apply list_elem_of_In in Hx'. destruct Hx' as [<-|[]].
  apply list_elem_of_In, has_place_In in Hx. congruence.
Qed.

Lemma group_places_snoc (rows : list PlaceRow.t) (r : PlaceRow.t) :
  ByStreet.group_places (rows ++ [r])
  = ByStreet.record_place r (ByStreet.group_places rows).
Proof. unfold ByStreet.group_places. rewrite fold_left_app. reflexivity. Qed.

Lemma keyed_snoc (k : string) (rows : list PlaceRow.t) (r : PlaceRow.t) :
  keyed k (rows ++ [r])
  = keyed k rows ++ (if on_key k r then [r] else []).
Proof.
  unfold keyed. rewrite List.filter_app. simpl.
  destruct (on_key k r); reflexivity.
Qed.

Lemma place_summary_snoc (l : list PlaceRow.t)
      (r : PlaceRow.t) (e : Place.t) :
  place_summary l = Some e ->
  place_summary (l ++ [r]) = Some (ByStreet.add_place r e).
Proof.
  destruct l as [|r0 l]; [discriminate |]. simpl. intros [= <-].
  rewrite fold_left_app. reflexivity.
Qed.

(** The grouping keeps one entry per key, and the entry of a key is the
    summary of the reports with that key. *)
Lemma group_places_inv (rows : list PlaceRow.t) :
  NoDup (fst <$> ByStreet.group_places rows)
  /\ (forall k, has_place k (ByStreet.group_places rows) = true
                <-> keyed k rows <> [])
  /\ (forall k e, In (k, e) (ByStreet.group_places rows) ->
                  place_summary (keyed k rows) = Some e).
Proof.
  induction rows as [|r rows IH] using rev_ind.
  - split; [constructor |]. split.
    + intros k. split; [discriminate | intros H; contradiction].
    + intros k e [].
  - destruct IH as (Hnd & Hkeys & Hsum).
    rewrite group_places_snoc.
    split; [apply record_place_NoDup, Hnd |]. split.
    + intros k. rewrite has_place_In, record_place_keys, in_app_iff,
        <- has_place_In, Hkeys, keyed_snoc.
      unfold on_key. rewrite (String.eqb_sym _ k).
      destruct (String.eqb_spec k (ByStreet.key_of r)) as [->|Hne].
      * split; [intros _ E; apply app_eq_nil in E as [_ E]; discriminate |].
        intros _. destruct (has_place _ _) eqn:Ek.
        -- left. apply Hkeys, Ek.
        -- right. left. reflexivity.
      * rewrite app_nil_r. split; [| tauto].
        intros [H|H]; [exact H |].
        destruct (has_place _ _); simpl in H; [tauto |].
        destruct H as [E|[]]. congruence.
    + intros k e Hin. rewrite keyed_snoc.
      destruct (record_place_In r _ k e Hnd Hin)
        as [[Hne H]|[-> [(e0 & H & ->)|[Hk ->]]]].
      * unfold on_key.
        destruct (String.eqb_spec (ByStreet.key_of r) k);
          [congruence |]. rewrite app_nil_r. apply Hsum, H.
      * unfold on_key. rewrite String.eqb_refl.
        apply place_summary_snoc, Hsum, H.
      * unfold on_key. rewrite String.eqb_refl.
        assert (E : keyed (ByStreet.key_of r) rows = []).
        { destruct (keyed _ rows) eqn:E; [reflexivity |].
          assert (Hk' : has_place (ByStreet.key_of r)
                          (ByStreet.group_places rows) = true)
            by (apply Hkeys; rewrite E; discriminate).
          congruence. }
        rewrite E. reflexivity.
Qed.

Lemma fold_add_place (rest : list PlaceRow.t) (p0 : Place.t) :
  let p := fold_left (fun p r => ByStreet.add_place r p) rest p0 in
  Place.count p = Place.count p0 + length rest
  /\ Place.city p = Place.city p0.
Proof.
  revert p0. induction rest as [|r rest IH]; intros p0; cbn [fold_left].
  - simpl. split; [lia | reflexivity].
  - destruct (IH (ByStreet.add_place r p0)) as [H1 H2]. cbv zeta.
    rewrite H1, H2. simpl. split; [lia | reflexivity].
Qed.

Lemma place_summary_counts (l : list PlaceRow.t) (p : Place.t) :
  place_summary l = Some p ->
  Place.count p = length l
  /\ exists r0 rest, l = r0 :: rest /\ Place.city p = PlaceRow.city r0.
Proof.
  destruct l as [|r0 rest]; [discriminate |]. simpl. intros [= <-].
  destruct (fold_add_place rest (ByStreet.first_place r0)) as [H1 H2].
  cbv zeta in *. rewrite H1, H2. simpl. eauto.
Qed.

Lemma record_place_sum (r : PlaceRow.t) (m : list (string * Place.t)) :
  sum_list ((fun kv => Place.count (snd kv)) <$> ByStreet.record_place r m)
  = S (sum_list ((fun kv => Place.count (snd kv)) <$> m)).
Proof.
  induction m as [|[k e] m IH]; [reflexivity |].
  cbn [ByStreet.record_place].
  destruct (String.eqb k (ByStreet.key_of r)).
  - rewrite !fmap_cons. simpl. lia.
  - rewrite !fmap_cons. cbn [sum_list sum_list_with]. rewrite IH. simpl. lia.
Qed.

Lemma group_places_sum (rows : list PlaceRow.t) :
  sum_list ((fun kv => Place.count (snd kv)) <$> ByStreet.group_places rows)
  = length rows.
Proof.
  induction rows as [|r rows IH] using rev_ind; [reflexivity |].
  rewrite group_places_snoc, record_place_sum, IH, length_app. simpl. lia.
Qed.

(** The first piece of a split, and the first separator of a text. *)
Lemma split_go_hd (sep : ascii) (l cur : chars) :
  exists p,
    hd [] (Js.split_go sep cur l) = rev cur ++ p
    /\ ~ In sep p
    /\ (l = p \/ exists rest, l = p ++ sep :: rest).
Proof.
  revert cur. induction l as [|c t IH]; intros cur; simpl.
  - exists []. rewrite app_nil_r. tauto.
  - destruct (Ascii.eqb_spec c sep) as [->|Hne].
    + exists []. simpl. rewrite app_nil_r.
      split; [reflexivity |]. split; [tauto |]. right. exists t. reflexivity.
    + destruct (IH (c :: cur)) as (p & Hp & Hno & Hl).
      exists (c :: p). simpl in Hp. rewrite <- app_assoc in Hp.
      split; [exact Hp |].
      split; [intros [E|E]; [congruence | tauto] |].
      destruct Hl as [->|(rest & ->)]; [left; reflexivity |].
      right. exists rest. reflexivity.
Qed.

Lemma first_sep_unique (sep : ascii) (l1 r1 l2 r2 : chars) :
  l1 ++ sep :: r1 = l2 ++ sep :: r2 ->
  ~ In sep l1 -> ~ In sep l2 -> l1 = l2 /\ r1 = r2.
Proof.
  revert l2. induction l1 as [|a l1 IH]; intros [|b l2] E H1 H2; simpl in *.
  - injection E as <-. tauto.
  - injection E as <- _. tauto.
  - injection E as -> _. tauto.
  - injection E as <- E. destruct (IH l2 E) as [<- <-]; tauto.
Qed.

Lemma in_split_first (sep : ascii) (l : chars) :
  In sep l -> exists a b, l = a ++ sep :: b /\ ~ In sep a.
Proof.
  induction l as [|c t IH]; intros H; [destruct H |].
  destruct (Ascii.eqb_spec c sep) as [->|Hne].
  - exists [], t. tauto.
  - destruct H as [E|H]; [congruence |].
    destruct (IH H) as (a & b & -> & Hno).
    exists (c :: a), b. split; [reflexivity |].
    intros [E|E]; [congruence | tauto].
Qed.

Lemma street_of_key_spec (street cty : string) :
  let s := ByStreet.street_of_key (street ++ "-" ++ cty) in
  ~ In ByStreet.hyphen (of_string s)
  /\ (~ In ByStreet.hyphen (of_string street) -> s = street)
  /\ (In ByStreet.hyphen (of_string street) ->
      exists tail, street = (s ++ "-" ++ tail)%string).
Proof.
  intros s. subst s. unfold ByStreet.street_of_key, Js.split.
  rewrite of_string_app.
  change (of_string ("-" ++ cty)) with (ByStreet.hyphen :: of_string cty).
  destruct (split_go_hd ByStreet.hyphen
              (of_string street ++ ByStreet.hyphen :: of_string cty) [])
    as (p & -> & Hno & Hl).
  simpl. rewrite of_to_string.
  destruct Hl as [Hl|(rest & Hl)].
  { exfalso. apply Hno. rewrite <- Hl. apply in_or_app. right. left.
    reflexivity. }
  split; [exact Hno |]. split.
  - intros Hs. destruct (first_sep_unique _ _ _ _ _ Hl Hs Hno) as [<- _].
    apply to_of_string.
  - intros Hs. destruct (in_split_first _ _ Hs) as (a & b & Ha & Hna).
    rewrite Ha, <- app_assoc in Hl. simpl in Hl.
    destruct (first_sep_unique _ _ _ _ _ Hl Hna Hno) as [<- _].
    exists (to_string b).
    rewrite <- (to_of_string street), Ha, to_string_app. reflexivity.
Qed.

Lemma street_counts_In (rows : list PlaceRow.t) (s : StreetCount.t) :
  In s (ByStreet.street_counts rows) ->
  exists r0 rest p,
    keyed (ByStreet.key_of r0) rows = r0 :: rest
    /\ In (ByStreet.key_of r0, p) (ByStreet.group_places rows)
    /\ s = ByStreet.to_street_count (ByStreet.key_of r0, p)
    /\ Place.count p = S (length rest)
    /\ Place.city p = PlaceRow.city r0.
Proof.
  unfold ByStreet.street_counts. intros Hs.
  apply list_elem_of_In, list_elem_of_fmap in Hs as ([k p] & -> & Hin).
  apply list_elem_of_In in Hin.
  destruct (group_places_inv rows) as (_ & _ & Hsum).
  destruct (place_summary_counts _ p (Hsum _ _ Hin))
    as (Hc & r0 & rest & Hl & Hci).
  assert (Hk : ByStreet.key_of r0 = k).
  { assert (Hr : In r0 (keyed k rows)) by (rewrite Hl; left; reflexivity).
    apply filter_In in Hr as [_ Hr]. apply String.eqb_eq, Hr. }
  subst k. exists r0, rest, p. rewrite Hl in Hc.
  split; [exact Hl |]. split; [exact Hin |]. split; [reflexivity |].
  split; [exact Hc | exact Hci].
Qed.

(** X27. The street name of an entry of [getReportsByStreet] is the street
    name of its reports only when that name has no hyphen: the name is
    recovered by cutting the key at its first hyphen, so a street name with
    a hyphen comes back cut before it.  The city is the city of the
    reports. *)
Theorem street_counts_names (rows : list PlaceRow.t) (s : StreetCount.t) :
  In s (ByStreet.street_counts rows) ->
  exists r,
    In r rows
    /\ StreetCount.city s = PlaceRow.city r
    /\ (In ByStreet.hyphen (of_string (StreetCount.street_name s)) -> False)
    /\ ((In ByStreet.hyphen (of_string (PlaceRow.street_name r)) -> False) ->
        StreetCount.street_name s = PlaceRow.street_name r)
    /\ (In ByStreet.hyphen (of_string (PlaceRow.street_name r)) ->
        exists tail,
          PlaceRow.street_name r
          = (StreetCount.street_name s ++ "-" ++ tail)%string).
Proof.
  intros Hs.
  destruct (street_counts_In rows s Hs) as (r0 & rest & p & Hl & _ & -> & _ & Hc).
  exists r0.
  assert (Hr : In r0 (keyed (ByStreet.key_of r0) rows))
    by (rewrite Hl; left; reflexivity).
  apply filter_In in Hr as [Hr _].
  split; [exact Hr |]. split; [exact Hc |].
  apply (street_of_key_spec (PlaceRow.street_name r0) (PlaceRow.city r0)).
Qed.

Lemma street_counts_names_witness :
  exists r,
    In r sample_places
    /\ "Pune" = PlaceRow.city r
    /\ (In ByStreet.hyphen (of_string "Twenty") -> False)
    /\ ((In ByStreet.hyphen (of_string (PlaceRow.street_name r)) -> False) ->
        "Twenty" = PlaceRow.street_name r)
    /\ (In ByStreet.hyphen (of_string (PlaceRow.street_name r)) ->
        exists tail, PlaceRow.street_name r = ("Twenty" ++ "-" ++ tail)%string).
Proof.
  apply (street_counts_names sample_places
           {| StreetCount.street_name := "Twenty";
              StreetCount.city := "Pune";
              StreetCount.count := 2;
              StreetCount.lat := 18.625%float;
              StreetCount.lng := 73.5%float |}).
  vm_compute. auto.
Defined.

(** X28. [getReportsByStreet] counts under one entry the reports whose
    street name and city, joined by a hyphen, give the same text: the count
    of an entry is the number of those reports (at least one), and the
    counts of all entries add up to the number of reports. *)
Theorem street_counts_totals (rows : list PlaceRow.t) :
  sum_list (StreetCount.count <$> ByStreet.street_counts rows) = length rows
  /\ forall s, In s (ByStreet.street_counts rows) ->
       exists r,
         In r rows
         /\ StreetCount.city s = PlaceRow.city r
         /\ 1 <= StreetCount.count s
         /\ StreetCount.count s
            = length (List.filter
                        (fun r' =>
                           String.eqb
                             (PlaceRow.street_name r' ++ "-" ++ PlaceRow.city r')
                             (PlaceRow.street_name r ++ "-" ++ PlaceRow.city r))
                        rows).
Proof.
  split.
  - unfold ByStreet.street_counts. rewrite <- list_fmap_compose.
    apply group_places_sum.
  - intros s Hs.
    destruct (street_counts_In rows s Hs)
      as (r0 & rest & p & Hl & _ & -> & Hc & Hci).
    exists r0.
    assert (Hr : In r0 (keyed (ByStreet.key_of r0) rows))
      by (rewrite Hl; left; reflexivity).
    apply filter_In in Hr as [Hr _].
    split; [exact Hr |]. split; [exact Hci |].
    cbn [ByStreet.to_street_count StreetCount.count snd]. rewrite Hc.
    split; [lia |].
    change (S (length rest)) with (length (r0 :: rest)). rewrite <- Hl.
    reflexivity.
Qed.

(** X29. Once [createClient()] has returned, [getReportsByStreet] does not
    throw: it reads the whole table with one query and answers the grouped
    rows, [{ data: null, error }] when the query is refused or rejected,
    and [{ data: null, error: null }] when it gives neither rows nor an
    error.  An exception of [createClient()] leaves the function before any
    query. *)
Theorem getReportsByStreet_outcome (b : Backend) :
  (createClient b = None ->
   acts (ByStreet.getReportsByStreet b)
   = ActSelectReports "reports"
       "street_name, city, latitude, longitude, status" None
     :: match reports_places b with
        | PlacesRejected t | PlacesAnswered _ (Some t) =>
            [ActConsoleError "Error fetching street reports:" t]
        | PlacesAnswered _ None => []
        end
   /\ outcome (ByStreet.getReportsByStreet b)
      = Some match reports_places b with
             | PlacesAnswered (Some rows) None =>
                 {| data := Some (ByStreet.street_counts rows); error := None |}
             | PlacesAnswered None None => {| data := None; error := None |}
             | PlacesAnswered _ (Some e) => {| data := None; error := Some e |}
             | PlacesRejected t => {| data := None; error := Some t |}
             end)
  /\ (forall t, createClient b = Some t ->
                ByStreet.getReportsByStreet b = ([], inl t)).
Proof.
  unfold ByStreet.getReportsByStreet, ByStreet.await_places. flow_unfold.
  split.
  - intros ->. simpl.
    destruct (reports_places b) as [t|[rows|] [e|]]; simpl; split; reflexivity.
  - intros t ->. reflexivity.
Qed.

(** ** Removing the photo *)

Lemma dead_end_step (w : World) (b : Backend) (a : UserAction)
      (st : Dash.State) :
  dead_end st -> rendered w a st = true -> dead_end (step w b a st).
Proof.
  intros (Hs & He & Hm) Hr. unfold rendered in Hr.
  assert (Hb : bool_decide (Dash.locationState st = Success) = false)
    by (apply bool_decide_eq_false; exact Hs).
  destruct a;
    rewrite ?He, ?Hm, ?Hb, ?andb_false_r, ?orb_true_r in Hr; simpl in Hr;
    try discriminate Hr.
  - destruct file as [f|]; unfold dead_end; tauto.
  - unfold dead_end, step, after, replay_act; simpl.
    split; [discriminate | tauto].
  - unfold dead_end; tauto.
  - unfold dead_end; tauto.
  - unfold dead_end; tauto.
  - unfold dead_end; tauto.
Qed.

Lemma dead_end_session (w : World) (b : Backend) (l : list UserAction)
      (st : Dash.State) :
  dead_end st -> all_rendered w b l st = true -> dead_end (session w b l st).
Proof.
  revert st. induction l as [|a l IH]; intros st Hd Hr; [exact Hd |].
  cbn [all_rendered] in Hr. apply andb_true_iff in Hr as [Ha Hr].
  rewrite session_cons. apply IH; [apply dead_end_step; assumption | exact Hr].
Qed.

(** X30. Removing the photo when no location error is shown and the manual
    entry is closed leaves the form at a dead end: whatever the user does
    next with the controls on the page, the location state never becomes
    ['success'] again, none of the controls that could settle it (Enter
    Location Manually, Edit, Confirm Location, Try Auto-Detect) is on the
    page, and the submit button stays disabled. *)
Theorem remove_image_dead_end (w : World) (b : Backend) (st : Dash.State)
        (l : list UserAction) :
  truthy (Dash.locationError st) = false ->
  Dash.manualLocationMode st = false ->
  all_rendered w b l (step w b RemoveImage st) = true ->
  let final := session w b l (step w b RemoveImage st) in
  Dash.locationState final <> Success
  /\ rendered w EnterManually final = false
  /\ rendered w EditLocation final = false
  /\ rendered w ConfirmLocation final = false
  /\ rendered w TryAutoDetect final = false
  /\ rendered w Submit final = false.
Proof.
  intros He Hm Hr final.
  assert (Hd : dead_end (step w b RemoveImage st)).
  { unfold dead_end, step, after, replay_act; simpl.
    split; [discriminate | tauto]. }
  destruct (dead_end_session w b l _ Hd Hr) as (Hs & He' & Hm').
  fold final in Hs, He', Hm'.
  assert (Hb : bool_decide (Dash.locationState final = Success) = false)
    by (apply bool_decide_eq_false; exact Hs).
  unfold rendered. rewrite He', Hm', Hb, !andb_false_r, !orb_true_r.
  repeat split. exact Hs.
Qed.

Lemma remove_image_dead_end_witness :
  let final :=
    session (world_found address_mg_road) backend_ok
      [ChooseImage (Some photo) (Some "data:image/jpeg;base64,/9j/4AAQ");
       TypeDescription "Overflowing bin"; ToggleNotifications]
      (step (world_found address_mg_road) backend_ok RemoveImage
            state_detected) in
  Dash.locationState state_detected = Success
  /\ Dash.locationState final <> Success
  /\ rendered (world_found address_mg_road) Submit final = false.
Proof.
  intros final. split; [reflexivity |].
  destruct (remove_image_dead_end (world_found address_mg_road) backend_ok
              state_detected
              [ChooseImage (Some photo) (Some "data:image/jpeg;base64,/9j/4AAQ");
               TypeDescription "Overflowing bin"; ToggleNotifications])
    as (Hs & _ & _ & _ & _ & Hr).
  - reflexivity.
  - reflexivity.
  - vm_compute. reflexivity.
  - split; [exact Hs | exact Hr].
Defined.
